(** * web-monitor: the sampling and caching core of [app/main.py]

    A shallow embedding of the collector functions of [app/main.py]
    (RAPL power reader, aged caches, bounded histories, process table,
    size formatter, listening ports and [collect_stats] with the
    statements of it that can raise) together with the properties
    checked against the specification. *)

From Stdlib Require Import ZArith QArith Qround Qabs String Ascii List Lia Bool.
From Stdlib Require Import Sorting.Sorted Permutation.
From stdpp Require Import base option list sorting gmap strings pretty.

Local Open Scope Z_scope.

(** ** Python floats as an interface

    [time.time()], wattages, temperatures and percentages are Python
    floats.  The collector only subtracts, adds, divides, compares
    them with integer literals, converts integers to them, sums them
    and rounds them, so the model is parametric in a type [F] offering
    exactly these operations.  Two laws are all the proofs need. *)

Class PyFloat (F : Type) := {
  (** [a - b] *)
  fsub : F -> F -> F;
  (** [a + b] *)
  fadd : F -> F -> F;
  (** [a / b], used only where [b] is a non-zero float *)
  fdiv : F -> F -> F;
  (** [a > n] for a Python integer literal [n]; Python compares a float
      with an int exactly *)
  fgt_int : F -> Z -> bool;
  (** [a < b] on two floats, the comparison [list.sort] uses *)
  flt : F -> F -> bool;
  (** the implicit [float(n)] of [n / 1000000.0]; [None] stands for the
      [OverflowError] Python raises when [n] is too large *)
  float_of_int : Z -> option F;
  (** [float(len(l))]: a length always converts *)
  float_of_len : nat -> F;
  (** [round(a, ndigits)] *)
  py_round : F -> Z -> F;
  (** [sum(...)] over floats, the integer [0] when there is none *)
  py_sum : list F -> F;
  (** the literals [0.0], [1000000.0] and [1e12] *)
  f0 : F;
  f1e6 : F;
  f1e12 : F;
  (** integers below [2^1023] in magnitude convert without overflow *)
  float_of_int_small :
    forall z, Z.abs z < 2 ^ 1023 -> is_Some (float_of_int z);
  (** the empty sum is the integer [0], which is not [> 0] *)
  sum_nil_not_positive : fgt_int (py_sum []) 0 = false
}.

(** ** Bounded histories: [collections.deque(maxlen=60)]

    [_cpu_temp_history] and [_memory_history] are deques with
    [maxlen=60].  [append] adds on the right and, when the deque then
    holds more than [maxlen] items, drops the leftmost one. *)

Module Deque.

Definition maxlen : nat := 60.

Definition append {A} (cap : nat) (d : list A) (x : A) : list A :=
  let d' := d ++ [x] in
  if Nat.ltb cap (length d') then tail d' else d'.

(** The history [d] after a run of pushes. *)
Definition pushes {A} (cap : nat) (d xs : list A) : list A :=
  fold_left (append cap) xs d.

End Deque.

(** ** Python dictionaries with insertion order

    A [dict] iterates in insertion order and an assignment to an
    existing key keeps the key's position, so a dictionary whose
    iteration order is observable is an association list updated in
    place. *)

Module Dict.
Section dict.
Context {K V : Type} `{EqDecision K}.

Fixpoint set (k : K) (v : V) (d : list (K * V)) : list (K * V) :=
  match d with
  | [] => [(k, v)]
  | (k', v') :: d' =>
      if decide (k = k') then (k, v) :: d' else (k', v') :: set k v d'
  end.

Fixpoint get (k : K) (d : list (K * V)) : option V :=
  match d with
  | [] => None
  | (k', v') :: d' => if decide (k = k') then Some v' else get k d'
  end.

Definition keys (d : list (K * V)) : list K := map fst d.
Definition values (d : list (K * V)) : list V := map snd d.
End dict.
End Dict.

(** ** [RaplReader]: wattage from cumulative energy registers *)

Module Rapl.

(** One entry of [self.domains], as [_init_domains] builds it. *)
Record domain := {
  path : string;
  name : string;
  energy_file : string;
  max_range : Z
}.

(** What the reader sees of the powercap file system during one call:
    [os.path.exists] and the integer [int(f.read().strip())] yields
    ([None] when opening or parsing raises). *)
Record sysfs := {
  file_exists : string -> bool;
  read_int : string -> option Z
}.

Section reader.
Context {F : Type} `{PyFloat F}.

Record reader := {
  last_readings : gmap string (F * Z);
  domains : list domain;
  cleanup_counter : Z
}.

(** Lines 92-101: every 301st call forgets readings older than 60s. *)
Definition cleanup (r : reader) (now : F) : reader :=
  let counter := cleanup_counter r + 1 in
  if 300 <? counter then
    {| last_readings :=
         filter (fun kv => fgt_int (fsub now (fst (snd kv))) 60 = false)
                (last_readings r);
       domains := domains r;
       cleanup_counter := 0 |}
  else
    {| last_readings := last_readings r;
       domains := domains r;
       cleanup_counter := counter |}.

(** The wraparound correction of lines 113-116. *)
Definition energy_delta (energy_uj last_energy max : Z) : Z :=
  let de := energy_uj - last_energy in
  if de <? 0 then de + max else de.

(** Lines 105-122, the body of the [try]: [None] is a raised
    exception, after which the [except] clause continues with the
    state as it was (nothing is assigned before a statement that can
    raise). *)
Definition sample_domain (fs : sysfs) (now : F) (d : domain)
    (st : list (string * F) * gmap string (F * Z))
  : option (list (string * F) * gmap string (F * Z)) :=
  let '(stats, readings) := st in
  if file_exists fs (energy_file d) then
    energy_uj ← read_int fs (energy_file d);
    stats' ←
      match readings !! path d with
      | Some (last_time, last_energy) =>
          let dt := fsub now last_time in
          let de := energy_delta energy_uj last_energy (max_range d) in
          if fgt_int dt 0 && (0 <=? de) then
            x ← float_of_int de;
            let power_watts := fdiv (fdiv x f1e6) dt in
            Some (Dict.set (name d) (py_round power_watts 2) stats)
          else Some stats
      | None => Some stats
      end;
    Some (stats', <[path d := (now, energy_uj)]> readings)
  else Some st.

(** Lines 103-124: the loop over the domains, [except: continue]. *)
Definition sample_loop (fs : sysfs) (now : F) (ds : list domain)
    (st : list (string * F) * gmap string (F * Z))
  : list (string * F) * gmap string (F * Z) :=
  fold_left (fun st d => default st (sample_domain fs now d st)) ds st.

(** [get_power_stats]: the returned [stats] and the reader afterwards. *)
Definition get_power_stats (r : reader) (fs : sysfs) (now : F)
  : list (string * F) * reader :=
  let r1 := cleanup r now in
  let '(stats, readings) :=
    sample_loop fs now (domains r1) ([], last_readings r1) in
  (stats,
   {| last_readings := readings;
      domains := domains r1;
      cleanup_counter := cleanup_counter r1 |}).
End reader.

Arguments reader F : clear implicits.

(** Energy registers are unsigned 64-bit counters. *)
Definition uj64 (z : Z) : Prop := 0 <= z < 2 ^ 64.

End Rapl.

(** ** What [psutil] hands to the collector *)

Module Psutil.

(** One entry of [psutil.net_connections()].  [laddr] and [raddr] are
    [None] for the empty tuple, [sock_type] is [conn.type]
    (1 = SOCK_STREAM, 2 = SOCK_DGRAM), [conn_pid] is [None] when the
    owner is not known. *)
Record conn := {
  status : string;
  laddr : option (string * Z);
  raddr : option (string * Z);
  sock_type : Z;
  conn_pid : option Z
}.

Section process.
Context {F : Type}.

(** One [p_info] dictionary of [get_top_processes], with the keys
    the table is sorted and linked by.  [ppid] is [None] when the key
    is missing ([p.get('ppid', 0)] then reads 0). *)
Record process := {
  pid : Z;
  ppid : option Z;
  pname : string;
  username : string;
  memory_percent : F;
  cpu_percent : F
}.
End process.

Arguments process F : clear implicits.

End Psutil.

(** ** [list.sort] and [sorted]

    Python's sort is stable and compares with [<] only.  Every stable
    sort returns the same list, so insertion from the right stands for
    it: an element is placed in front of the first element that is not
    smaller than it.  With [reverse=True] the comparison is flipped and
    equal elements still keep their order. *)

Module Sort.
Section sort.
Context {A : Type} (lt : A -> A -> bool).

Fixpoint insert (x : A) (l : list A) : list A :=
  match l with
  | [] => [x]
  | y :: l' => if lt y x then y :: insert x l' else x :: y :: l'
  end.

Definition sorted (l : list A) : list A := fold_right insert [] l.
End sort.

(** [l.sort(key=key, reverse=True)] for float keys. *)
Definition sort_by_key_desc {A F} `{PyFloat F} (key : A -> F) (l : list A)
  : list A :=
  sorted (fun a b => flt (key b) (key a)) l.

End Sort.

(** ** The aged caches: GPU identity, TCP states, SSH, process table *)

Module Cache.
Import Psutil.

(** *** [get_gpu_info] *)

(** A [/sys/class/drm/card?] directory: whether the two files exist and
    what reading them yields ([None] when the read raises). *)
Record drm_card := {
  vendor_file_exists : bool;
  device_file_exists : bool;
  vendor : option string;
  device : option string
}.

(** [intel_gpu_names.get(device, f"Intel Graphics [{device}]")] *)
Definition intel_gpu_name (device : string) : string :=
  if String.eqb device "0x46d4" then "Intel Alder Lake-N [UHD Graphics]"
  else if String.eqb device "0x46d1" then "Intel Alder Lake-N [UHD Graphics]"
  else if String.eqb device "0x46d0" then "Intel Alder Lake-N [UHD Graphics]"
  else "Intel Graphics [" +:+ device +:+ "]".

(** The outcome of the [try] block of lines 184-210. *)
Inductive gpu_scan :=
  | GpuFound (gpu_name : string)
  | GpuNotFound
  | GpuRaised.

Fixpoint scan_cards (cards : list drm_card) : gpu_scan :=
  match cards with
  | [] => GpuNotFound
  | c :: cs =>
      if vendor_file_exists c && device_file_exists c then
        match vendor c with
        | None => GpuRaised
        | Some v =>
            match device c with
            | None => GpuRaised
            | Some dv =>
                if String.eqb v "0x8086"
                then GpuFound (intel_gpu_name dv +:+ " [Integrated]")
                else scan_cards cs
            end
        end
      else scan_cards cs
  end.

Section caches.
Context {F : Type} `{PyFloat F}.

Record gpu_cache := {
  gpu_info_cache : option string;
  last_gpu_info_time : F
}.

(** [get_gpu_info]: [now] is the clock at the staleness test, [now']
    the clock when the result is stored.  Returns the value returned
    and the globals afterwards. *)
Definition get_gpu_info (st : gpu_cache) (now now' : F)
    (cards : list drm_card) : option string * gpu_cache :=
  if fgt_int (fsub now (last_gpu_info_time st)) 60
     || bool_decide (gpu_info_cache st = None) then
    match scan_cards cards with
    | GpuFound n =>
        (Some n, {| gpu_info_cache := Some n; last_gpu_info_time := now' |})
    | GpuNotFound | GpuRaised =>
        (Some "Unknown GPU"%string,
         {| gpu_info_cache := Some "Unknown GPU"%string;
            last_gpu_info_time := now' |})
    end
  else (gpu_info_cache st, st).

(** *** [get_connection_states] *)

Definition zero_states : list (string * Z) :=
  [("ESTABLISHED", 0); ("SYN_SENT", 0); ("SYN_RECV", 0);
   ("FIN_WAIT1", 0); ("FIN_WAIT2", 0); ("TIME_WAIT", 0);
   ("CLOSE", 0); ("CLOSE_WAIT", 0); ("LAST_ACK", 0);
   ("LISTEN", 0); ("CLOSING", 0)]%string.

Definition count_state (states : list (string * Z)) (c : conn)
  : list (string * Z) :=
  match Dict.get (status c) states with
  | Some n => Dict.set (status c) (n + 1) states
  | None => states
  end.

Record states_cache := {
  connection_states_cache : list (string * Z);
  last_connection_states_time : F
}.

(** [tcp] is [psutil.net_connections(kind='tcp')], [None] when it
    raises; the [except: pass] leaves [states] as it is then. *)
Definition get_connection_states (st : states_cache) (now now' : F)
    (tcp : option (list conn)) : list (string * Z) * states_cache :=
  if fgt_int (fsub now (last_connection_states_time st)) 10 then
    let states :=
      match tcp with
      | Some connections => fold_left count_state connections zero_states
      | None => zero_states
      end in
    (states, {| connection_states_cache := states;
                last_connection_states_time := now' |})
  else (connection_states_cache st, st).

(** *** [get_ssh_stats] *)

Record ssh_session := {
  user : string;
  ip : string;
  started : string
}.

Record oom_entry := {
  oom_pid : Z;
  oom_name : string;
  oom_memory : F
}.

Record ssh_stats := {
  ssh_status : string;
  connections : Z;
  port : Z;
  sessions : list ssh_session;
  auth_password : Z;
  auth_publickey : Z;
  auth_other : Z;
  failed_logins : Z;
  hostkey_fingerprint : string;
  oom_risk_processes : list oom_entry;
  ssh_process_memory : F;
  history_size : Z
}.

(** Steps 2 to 6 of [get_ssh_stats] (lines 545-621) each sit in a
    [try] of their own and cannot fail the refresh: they leave six
    keys at whatever they reached, the defaults at worst.  A tick
    supplies these end values. *)
Record ssh_details := {
  d_auth_password : Z;
  d_auth_publickey : Z;
  d_failed_logins : Z;
  d_hostkey_fingerprint : string;
  d_oom_risk_processes : list oom_entry;
  d_ssh_process_memory : F;
  d_history_size : Z
}.

Definition set_status (s : ssh_stats) (v : string) : ssh_stats :=
  {| ssh_status := v; connections := connections s; port := port s;
     sessions := sessions s; auth_password := auth_password s;
     auth_publickey := auth_publickey s; auth_other := auth_other s;
     failed_logins := failed_logins s;
     hostkey_fingerprint := hostkey_fingerprint s;
     oom_risk_processes := oom_risk_processes s;
     ssh_process_memory := ssh_process_memory s;
     history_size := history_size s |}.

Definition add_session (s : ssh_stats) (x : ssh_session) : ssh_stats :=
  {| ssh_status := ssh_status s; connections := connections s + 1;
     port := port s; sessions := sessions s ++ [x];
     auth_password := auth_password s;
     auth_publickey := auth_publickey s; auth_other := auth_other s;
     failed_logins := failed_logins s;
     hostkey_fingerprint := hostkey_fingerprint s;
     oom_risk_processes := oom_risk_processes s;
     ssh_process_memory := ssh_process_memory s;
     history_size := history_size s |}.

(** Lines 507-543 for one connection.  [conn.laddr.port] raises on an
    empty [laddr] ([None]); [identify] is the guarded look at the
    owning process (lines 517-537), which yields the user name and
    the start time or their placeholders. *)
Definition ssh_conn_step (identify : conn -> string * string)
    (s : ssh_stats) (c : conn) : option ssh_stats :=
  '(_, lport) ← laddr c;
  if lport =? 22 then
    if String.eqb (status c) "LISTEN" then Some (set_status s "Running")
    else if String.eqb (status c) "ESTABLISHED" then
      let remote_ip :=
        match raddr c with Some (a, _) => a | None => "Unknown"%string end in
      let '(user_name, start) := identify c in
      Some (add_session s
              {| user := user_name; ip := remote_ip; started := start |})
    else Some s
  else Some s.

Fixpoint ssh_conn_loop (identify : conn -> string * string)
    (s : ssh_stats) (cs : list conn) : option ssh_stats :=
  match cs with
  | [] => Some s
  | c :: cs' =>
      s' ← ssh_conn_step identify s c;
      ssh_conn_loop identify s' cs'
  end.

(** The [try] block of lines 504-623: the fresh dictionary when it
    runs to its end, [None] when step 1 raises. *)
Definition compute_ssh_stats (tcp : option (list conn))
    (identify : conn -> string * string) (d : ssh_details)
  : option ssh_stats :=
  conns ← tcp;
  ssh_conn_loop identify
    {| ssh_status := "Stopped"; connections := 0; port := 22;
       sessions := [];
       auth_password := d_auth_password d;
       auth_publickey := d_auth_publickey d;
       auth_other := 0;
       failed_logins := d_failed_logins d;
       hostkey_fingerprint := d_hostkey_fingerprint d;
       oom_risk_processes := d_oom_risk_processes d;
       ssh_process_memory := d_ssh_process_memory d;
       history_size := d_history_size d |}
    conns.

Record ssh_cache := {
  ssh_stats_cache : ssh_stats;
  last_ssh_time : F
}.

Definition get_ssh_stats (st : ssh_cache) (now now' : F)
    (tcp : option (list conn)) (identify : conn -> string * string)
    (d : ssh_details) : ssh_stats * ssh_cache :=
  if fgt_int (fsub now (last_ssh_time st)) 10 then
    let cache :=
      match compute_ssh_stats tcp identify d with
      | Some fresh => fresh
      | None => ssh_stats_cache st
      end in
    (cache, {| ssh_stats_cache := cache; last_ssh_time := now' |})
  else (ssh_stats_cache st, st).

(** *** [get_top_processes] *)

Record process_cache := {
  process_cache_list : list (process F);
  last_process_time : F
}.

(** [processes] is the list lines 218-284 collected: every process
    whose record could be built, up to the point where
    [process_iter] raised if it did (the empty list when it raised
    at once). *)
Definition get_top_processes (st : process_cache) (now now' : F)
    (processes : list (process F)) : list (process F) * process_cache :=
  if fgt_int (fsub now (last_process_time st)) 5 then
    let processes := Sort.sort_by_key_desc memory_percent processes in
    (processes, {| process_cache_list := processes;
                   last_process_time := now' |})
  else (process_cache_list st, st).
End caches.

Arguments gpu_cache F : clear implicits.
Arguments states_cache F : clear implicits.
Arguments oom_entry F : clear implicits.
Arguments ssh_stats F : clear implicits.
Arguments ssh_details F : clear implicits.
Arguments ssh_cache F : clear implicits.
Arguments process_cache F : clear implicits.

End Cache.

(** ** [build_process_tree]

    The function works on the dictionaries it is given: it sets the
    key ['children'] of each and appends the dictionaries themselves to
    the lists of their parents, so a record reachable through two
    paths is one object.  The callers pass a list of distinct
    dictionaries, so an object is named by its position in
    [processes]; the store maps each object to its ['children'] list,
    a list of objects. *)

Module ProcessTree.
Import Psutil.

Section tree.
Context {F : Type}.

(** [p.get('ppid', 0)] *)
Definition ppid_of (p : process F) : Z := default 0 (ppid p).

(** [{p['pid']: p for p in processes}]: a later record replaces an
    earlier one with the same pid. *)
Definition pid_map (processes : list (process F)) : gmap Z nat :=
  fold_left (fun m ip => <[pid ip.2 := ip.1]> m) (imap pair processes) ∅.

Record tree := {
  children : list (list nat);
  root_processes : list nat
}.

(** One round of the loop of lines 303-309 for object [i]. *)
Definition link (m : gmap Z nat) (t : tree) (ip : nat * process F) : tree :=
  let '(i, p) := ip in
  match m !! ppid_of p with
  | Some parent =>
      {| children := alter (fun c => c ++ [i]) parent (children t);
         root_processes := root_processes t |}
  | None =>
      {| children := children t;
         root_processes := root_processes t ++ [i] |}
  end.

Definition build_process_tree (processes : list (process F)) : tree :=
  let m := pid_map processes in
  let n := length processes in
  fold_left (link m) (imap pair processes)
    {| children := replicate n []; root_processes := [] |}.

(** The pids of a list of objects, for reading a result. *)
Definition pids_of (processes : list (process F)) (objs : list nat)
  : list Z :=
  omap (fun i => pid <$> processes !! i) objs.
End tree.

End ProcessTree.

(** ** [get_size]

    [bytes] starts as a Python integer and becomes a float at the
    first [bytes /= factor].  That division rounds the integer to the
    53 significant bits of a double; later divisions of a double by
    1024 are exact, so from there on the value is the rational it
    stands for. *)

Module Size.

(** Round a non-negative integer to 53 significant bits, ties to even. *)
Definition rn53 (n : Z) : Z :=
  let bits := Z.log2 n + 1 in
  if bits <=? 53 then n
  else
    let s := bits - 53 in
    let q := Z.shiftr n s in
    let r := Z.land n (Z.ones s) in
    let half := Z.shiftl 1 (s - 1) in
    let q' := if r <? half then q
              else if half <? r then q + 1
              else if Z.even q then q else q + 1 in
    Z.shiftl q' s.

Inductive number :=
  | PyInt (n : Z)
  | PyFloatQ (q : Q).

Inductive result :=
  | Str (s : string)        (* the formatted size *)
  | NoneValue               (* the loop ended: the function returns None *)
  | Overflow.               (* OverflowError *)

(** [float(n)] for any integer, [None] on overflow. *)
Definition to_float (n : Z) : option Q :=
  let m := rn53 (Z.abs n) in
  if m <? 2 ^ 1024 then Some (inject_Z (Z.sgn n * m)) else None.

(** [bytes < factor] *)
Definition lt_factor (b : number) : bool :=
  match b with
  | PyInt n => n <? 1024
  | PyFloatQ q => negb (Qle_bool (inject_Z 1024) q)
  end.

(** [bytes /= factor] *)
Definition div_factor (b : number) : option number :=
  match b with
  | PyInt n =>
      (* int / int: the correctly rounded quotient *)
      let m := rn53 (Z.abs n) in
      if m <? 2 ^ 1034
      then Some (PyFloatQ (Qred (inject_Z (Z.sgn n * m) / inject_Z 1024)))
      else None
  | PyFloatQ q => Some (PyFloatQ (Qred (q / inject_Z 1024)))
  end.

(** Hundredths nearest to [q], ties to even. *)
Definition hundredths (q : Q) : Z :=
  let x := Qred (q * inject_Z 100) in
  let fl := Qfloor x in
  match Qcompare (Qred (x - inject_Z fl)) (1 # 2) with
  | Lt => fl
  | Gt => fl + 1
  | Eq => if Z.even fl then fl else fl + 1
  end.

Definition two_digits (n : Z) : string :=
  if n <? 10 then "0" +:+ pretty n else pretty n.

(** [f"{x:.2f}"] for a float [x]. *)
Definition format_2f_float (q : Q) : string :=
  let h := hundredths (Qabs q) in
  let body := pretty (h / 100) +:+ "." +:+ two_digits (h mod 100) in
  if Qle_bool 0 q then body else "-" +:+ body.

(** [f"{bytes:.2f}"]: an integer is converted to a float first. *)
Definition format_2f (b : number) : option string :=
  match b with
  | PyInt n => format_2f_float <$> to_float n
  | PyFloatQ q => Some (format_2f_float q)
  end.

Definition units : list string := [""; "K"; "M"; "G"; "T"; "P"]%string.

(** [1024^k], the denominator of the value after [k] divisions by
    [factor]. *)
Fixpoint den (k : nat) : positive :=
  match k with
  | O => 1%positive
  | S k' => (den k' * 1024)%positive
  end.

Fixpoint size_loop (us : list string) (bytes : number) (suffix : string)
  : result :=
  match us with
  | [] => NoneValue
  | unit :: us' =>
      if lt_factor bytes then
        match format_2f bytes with
        | Some digits => Str (digits +:+ " " +:+ unit +:+ "i" +:+ suffix)
        | None => Overflow
        end
      else
        match div_factor bytes with
        | Some bytes' => size_loop us' bytes' suffix
        | None => Overflow
        end
  end.

Definition get_size (bytes : Z) (suffix : string) : result :=
  size_loop units (PyInt bytes) suffix.

End Size.

(** ** Strings: [str.lower] and the [in] test, on ASCII text *)

Module Text.

Definition lower_ascii (c : ascii) : ascii :=
  let n := nat_of_ascii c in
  if (Nat.leb 65 n && Nat.leb n 90)%bool then ascii_of_nat (n + 32) else c.

Fixpoint lower (s : string) : string :=
  match s with
  | EmptyString => EmptyString
  | String c s' => String (lower_ascii c) (lower s')
  end.

(** [needle in hay] *)
Fixpoint contains (needle hay : string) : bool :=
  String.prefix needle hay
  || match hay with
     | EmptyString => false
     | String _ hay' => contains needle hay'
     end.

(** Truth value of a string: non-empty. *)
Definition truthy (s : string) : bool :=
  match s with EmptyString => false | _ => true end.

End Text.

(** ** [get_listening_ports] *)

Module Ports.
Import Psutil.

Record entry := {
  port : Z;
  protocol : string
}.

Definition protocol_of (proto : Z) : string :=
  if proto =? 1 then "TCP" else if proto =? 2 then "UDP" else "OTHER".

(** [f"PID {conn.pid}"] *)
Definition pid_label (p : option Z) : string :=
  "PID " +:+ match p with Some n => pretty n | None => "None" end.

Definition fresh_port_info : list (string * option string) :=
  [("tcp", None); ("udp", None)]%string.

(** Lines 319-335 for one connection; [process_name p] is
    [psutil.Process(p).name()], [None] when that raises. *)
Definition record_conn (process_name : option Z -> option string)
    (listening_ports : list (Z * list (string * option string)))
    (c : conn) : list (Z * list (string * option string)) :=
  if String.eqb (status c) "LISTEN" then
    match laddr c with
    | Some (_, port) =>
        let protocol := protocol_of (sock_type c) in
        let proc_name :=
          match process_name (conn_pid c) with
          | Some n => n
          | None => pid_label (conn_pid c)
          end in
        let port_info :=
          default fresh_port_info (Dict.get port listening_ports) in
        Dict.set port
          (Dict.set (Text.lower protocol) (Some proc_name) port_info)
          listening_ports
    | None => listening_ports
    end
  else listening_ports.

(** Lines 343-349. *)
Definition describe (port_info : list (string * option string)) : string :=
  let proto_str :=
    match Dict.get "tcp"%string port_info with
    | Some (Some n) => if Text.truthy n then "TCP:" +:+ n else ""
    | _ => ""
    end in
  match Dict.get "udp"%string port_info with
  | Some (Some n) =>
      if Text.truthy n then
        (if Text.truthy proto_str then proto_str +:+ ", " else proto_str)
        +:+ "UDP:" +:+ n
      else proto_str
  | _ => proto_str
  end%string.

Definition listening_table (process_name : option Z -> option string)
    (conns : list conn) : list (Z * list (string * option string)) :=
  fold_left (record_conn process_name) conns [].

(** [net] is [psutil.net_connections()], [None] when it raises. *)
Definition get_listening_ports (net : option (list conn))
    (process_name : option Z -> option string) : list entry :=
  match net with
  | Some conns =>
      let listening_ports := listening_table process_name conns in
      omap (fun port =>
              port_info ← Dict.get port listening_ports;
              Some {| port := port; protocol := describe port_info |})
           (take 20 (Sort.sorted Z.ltb (Dict.keys listening_ports)))
  | None => []
  end.

(** The ports some connection listens on. *)
Definition listens_on (conns : list conn) (p : Z) : Prop :=
  exists c a, c ∈ conns /\ status c = "LISTEN"%string /\ laddr c = Some (a, p).

End Ports.

(** ** [collect_stats]

    [collect_stats] is a sequence of statements over the module
    globals (the two histories, the RAPL reader, the partition cache
    and the aged caches).  A call made outside a [try] can raise: the
    exception then leaves [collect_stats] with the globals as the
    statements before it have written them, and no snapshot is
    returned.  The model follows, in the order of the source, every
    statement that reads or writes a global and every statement that
    is outside a [try] and calls into the host or into [get_size].
    The sections built inside a [try] from fresh readings alone (load
    average, CPU statistics and frequency, fans, the [sensors]
    mapping, disk usage, disk I/O, inodes, interfaces, socket counts,
    swap) write no global and let no exception out; they are not part
    of the snapshot of the model. *)

Module Collect.
Import Psutil.

Section collect.
Context {F : Type} `{PyFloat F}.

(** [psutil.cpu_times_percent()]: the fields read as attributes and
    those read with [getattr(cpu_times, ..., 0.0)], [None] when the
    platform has none. *)
Record cpu_times := {
  user : F;
  system : F;
  idle : F;
  nice : option F;
  iowait : option F;
  irq : option F;
  softirq : option F;
  steal : option F;
  guest : option F;
  guest_nice : option F
}.

(** The dictionary [get_cpu_info()] returns. *)
Record cpu_info := {
  ci_model : string;
  ci_architecture : string;
  ci_cores : option Z;
  ci_threads : option Z;
  ci_max_freq : F;
  ci_min_freq : F
}.

(** An entry of [psutil.sensors_temperatures()]. *)
Record temp_entry := {
  label : string;
  current : F;
  high : option F;
  critical : option F
}.

Record temp_sample := {
  ts_time : F;
  ts_avg : F;
  ts_cores : list F
}.

(** [psutil.virtual_memory()]; the fields read with
    [getattr(svmem, ..., 0)] are [None] when the platform has none. *)
Record svmem := {
  vm_total : Z;
  vm_available : Z;
  vm_used : Z;
  vm_percent : F;
  vm_buffers : option Z;
  vm_cached : option Z;
  vm_shared : option Z;
  vm_slab : option Z;
  vm_active : option Z;
  vm_inactive : option Z
}.

(** [memory_stats]; a size is [None] where [get_size] returns
    [None]. *)
Record memory_stats := {
  mem_total : option string;
  mem_available : option string;
  mem_used : option string;
  mem_percent : F;
  mem_buffers : option string;
  mem_cached : option string;
  mem_shared : option string;
  mem_slab : option string;
  mem_active : option string;
  mem_inactive : option string
}.

Record memory_sample := {
  ms_time : F;
  ms_percent : F;
  ms_used : Z;
  ms_available : Z
}.

Record battery := {
  percent : F;
  power_plugged : option bool;
  secsleft : Z
}.

(** A directory of [/sys/class/power_supply]: the integer each file
    yields, [None] when opening or parsing it raises. *)
Record supply := {
  power_now : option Z;
  voltage_now : option Z;
  current_now : option Z
}.

(** The [power] section; a key that is not set is [None]. *)
Record power_status := {
  ps_battery : option battery;
  ps_rapl : option (list (string * F));
  consumption_watts : option F
}.

Record partition := {
  part_device : string;
  part_mountpoint : string;
  part_fstype : string
}.

(** [psutil.net_io_counters()]. *)
Record net_io := {
  bytes_sent : Z;
  bytes_recv : Z;
  errin : Z;
  errout : Z;
  dropin : Z;
  dropout : Z
}.

(** The keys of [network_stats] the model follows. *)
Record network_stats := {
  ns_bytes_sent : option string;
  ns_bytes_recv : option string;
  ns_raw_sent : Z;
  ns_raw_recv : Z;
  ns_connection_states : list (string * Z);
  ns_errors : list (string * Z);
  ns_listening_ports : list Ports.entry
}.

(** [time.struct_time], the fields [boot_time] is made of. *)
Record tm := {
  tm_year : Z;
  tm_mon : Z;
  tm_mday : Z;
  tm_hour : Z;
  tm_min : Z;
  tm_sec : Z
}.

(** The module globals. *)
Record state := {
  rapl_reader : Rapl.reader F;
  cpu_temp_history : list temp_sample;
  memory_history : list memory_sample;
  disk_partitions_cache : list partition;
  last_partitions_time : F;
  states_cache : Cache.states_cache F;
  ssh_cache : Cache.ssh_cache F;
  process_cache : Cache.process_cache F
}.

(** What the host answers during one call, in the order of the calls,
    with the clock at each [time.time()] the model follows.  An answer
    of type [option] is [None] when the call raises.
    [net_io_counters] is [Some None] when [psutil] returns [None] (a
    host without interfaces).  [boot_localtime] is
    [time.localtime(psutil.boot_time())], [get_cpu_info] the result of
    the function of that name, whose [platform.machine()] and
    [psutil.cpu_count()] are outside a [try].  [tcp_connections] and
    [ssh_connections] are the two calls of
    [psutil.net_connections(kind='tcp')], [net_connections] the call
    without a kind. *)
Record tick := {
  cpu_percent_total : option F;
  cpu_percent_percpu : option (list F);
  cpu_times_percent : option cpu_times;
  temps : option (list (string * list temp_entry));
  t_temp : F;
  sensors_battery : option battery;
  powercap : Rapl.sysfs;
  t_rapl : F;
  power_supply : option (list supply);
  virtual_memory : option svmem;
  t_memory : F;
  t_partitions : F;
  disk_partitions : option (list partition);
  t_partitions' : F;
  net_io_counters : option (option net_io);
  tcp_connections : option (list conn);
  t_states : F;
  t_states' : F;
  net_connections : option (list conn);
  process_name : option Z -> option string;
  boot_localtime : option tm;
  get_cpu_info : option cpu_info;
  ssh_connections : option (list conn);
  ssh_identify : conn -> string * string;
  ssh_details : Cache.ssh_details F;
  t_ssh : F;
  t_ssh' : F;
  processes : list (process F);
  t_process : F;
  t_process' : F
}.

(** The keys of the returned dictionary the model follows. *)
Record snapshot := {
  snap_cpu_percent : F;
  snap_cpu_per_core : list F;
  snap_cpu_times : list (string * F);
  snap_cpu_info : cpu_info;
  snap_temp_history : list temp_sample;
  snap_power : power_status;
  snap_memory : memory_stats;
  snap_memory_history : list memory_sample;
  snap_network : network_stats;
  snap_ssh_stats : Cache.ssh_stats F;
  snap_boot_time : string;
  snap_processes : list (process F)
}.

(** *** Statements

    A statement runs on the globals and returns a value or raises
    ([None]); either way the globals are left as the statement has
    written them. *)
Definition stmt (A : Type) : Type := state -> option A * state.

#[local] Instance stmt_ret : MRet stmt := fun A a st => (Some a, st).

#[local] Instance stmt_bind : MBind stmt := fun A B f m st =>
  match m st with
  | (Some a, st') => f a st'
  | (None, st') => (None, st')
  end.

(** A call that raises when the answer is [None]. *)
Definition call {A} (answer : option A) : stmt A := fun st => (answer, st).

(** Reading a global, and assigning to the globals. *)
Definition global {A} (f : state -> A) : stmt A := fun st => (Some (f st), st).

Definition assign (f : state -> state) : stmt unit := fun st => (Some tt, f st).

Definition set_rapl_reader (r : Rapl.reader F) (st : state) : state :=
  {| rapl_reader := r;
     cpu_temp_history := cpu_temp_history st;
     memory_history := memory_history st;
     disk_partitions_cache := disk_partitions_cache st;
     last_partitions_time := last_partitions_time st;
     states_cache := states_cache st;
     ssh_cache := ssh_cache st;
     process_cache := process_cache st |}.

Definition set_cpu_temp_history (h : list temp_sample) (st : state) : state :=
  {| rapl_reader := rapl_reader st;
     cpu_temp_history := h;
     memory_history := memory_history st;
     disk_partitions_cache := disk_partitions_cache st;
     last_partitions_time := last_partitions_time st;
     states_cache := states_cache st;
     ssh_cache := ssh_cache st;
     process_cache := process_cache st |}.

Definition set_memory_history (h : list memory_sample) (st : state) : state :=
  {| rapl_reader := rapl_reader st;
     cpu_temp_history := cpu_temp_history st;
     memory_history := h;
     disk_partitions_cache := disk_partitions_cache st;
     last_partitions_time := last_partitions_time st;
     states_cache := states_cache st;
     ssh_cache := ssh_cache st;
     process_cache := process_cache st |}.

Definition set_disk_partitions_cache (ps : list partition) (st : state)
  : state :=
  {| rapl_reader := rapl_reader st;
     cpu_temp_history := cpu_temp_history st;
     memory_history := memory_history st;
     disk_partitions_cache := ps;
     last_partitions_time := last_partitions_time st;
     states_cache := states_cache st;
     ssh_cache := ssh_cache st;
     process_cache := process_cache st |}.

Definition set_last_partitions_time (t : F) (st : state) : state :=
  {| rapl_reader := rapl_reader st;
     cpu_temp_history := cpu_temp_history st;
     memory_history := memory_history st;
     disk_partitions_cache := disk_partitions_cache st;
     last_partitions_time := t;
     states_cache := states_cache st;
     ssh_cache := ssh_cache st;
     process_cache := process_cache st |}.

Definition set_states_cache (c : Cache.states_cache F) (st : state) : state :=
  {| rapl_reader := rapl_reader st;
     cpu_temp_history := cpu_temp_history st;
     memory_history := memory_history st;
     disk_partitions_cache := disk_partitions_cache st;
     last_partitions_time := last_partitions_time st;
     states_cache := c;
     ssh_cache := ssh_cache st;
     process_cache := process_cache st |}.

Definition set_ssh_cache (c : Cache.ssh_cache F) (st : state) : state :=
  {| rapl_reader := rapl_reader st;
     cpu_temp_history := cpu_temp_history st;
     memory_history := memory_history st;
     disk_partitions_cache := disk_partitions_cache st;
     last_partitions_time := last_partitions_time st;
     states_cache := states_cache st;
     ssh_cache := c;
     process_cache := process_cache st |}.

Definition set_process_cache (c : Cache.process_cache F) (st : state) : state :=
  {| rapl_reader := rapl_reader st;
     cpu_temp_history := cpu_temp_history st;
     memory_history := memory_history st;
     disk_partitions_cache := disk_partitions_cache st;
     last_partitions_time := last_partitions_time st;
     states_cache := states_cache st;
     ssh_cache := ssh_cache st;
     process_cache := c |}.

(** *** The CPU section *)

(** Lines 635-646. *)
Definition cpu_times_dict (t : cpu_times) : list (string * F) :=
  [ ("user", user t); ("system", system t); ("idle", idle t);
    ("nice", default f0 (nice t)); ("iowait", default f0 (iowait t));
    ("irq", default f0 (irq t)); ("softirq", default f0 (softirq t));
    ("steal", default f0 (steal t)); ("guest", default f0 (guest t));
    ("guest_nice", default f0 (guest_nice t)) ]%string.

(** *** Temperatures *)

(** Lines 701-713: the core temperatures among all readings. *)
Definition is_core_temp (sensor : string) (e : temp_entry) : bool :=
  (Text.contains "coretemp" (Text.lower sensor)
   || Text.contains "cpu" (Text.lower sensor))
  && Text.contains "core" (Text.lower (label e)).

Definition core_temps_of (ts : list (string * list temp_entry)) : list F :=
  flat_map (fun ne => current <$> filter (fun e => is_core_temp (fst ne) e = true) (snd ne)) ts.

(** Lines 696-725: the sample the temperature history receives, if
    any.  The read raising, an empty result and no core temperature
    all leave the history alone. *)
Definition temp_sample_of (tk : tick) : option temp_sample :=
  match temps tk with
  | Some ts =>
      let core_temps := core_temps_of ts in
      match core_temps with
      | [] => None
      | _ :: _ =>
          let cpu_temp_avg :=
            py_round (fdiv (py_sum core_temps)
                           (float_of_len (length core_temps))) 1 in
          Some {| ts_time := t_temp tk; ts_avg := cpu_temp_avg;
                  ts_cores := core_temps |}
      end
  | None => None
  end.

(** The [try] of lines 696-725 as a statement: it never raises. *)
Definition record_temperatures (tk : tick) : stmt unit :=
  match temp_sample_of tk with
  | Some s =>
      assign (fun st =>
        set_cpu_temp_history
          (Deque.append Deque.maxlen (cpu_temp_history st) s) st)
  | None => mret tt
  end.

(** *** Power *)

(** Line 739: [rapl_reader.get_power_stats()]. *)
Definition rapl_get_power_stats (tk : tick) : stmt (list (string * F)) :=
  fun st =>
    let '(rapl_stats, reader) :=
      Rapl.get_power_stats (rapl_reader st) (powercap tk) (t_rapl tk) in
    (Some rapl_stats, set_rapl_reader reader st).

(** Lines 754-769 for one supply. *)
Definition supply_step (power_watts : F) (s : supply) : F :=
  match p_now ← power_now s; float_of_int p_now with
  | Some x => fadd power_watts (fdiv x f1e6)
  | None =>
      match v_now ← voltage_now s; c_now ← current_now s;
            float_of_int (v_now * c_now) with
      | Some x => fadd power_watts (fdiv x f1e12)
      | None => power_watts
      end
  end.

(** Lines 747-771: the total of [/sys/class/power_supply];
    [None] when the directory is missing or listing it raises. *)
Definition sysfs_power (supplies : option (list supply)) : F :=
  match supplies with
  | Some l => fold_left supply_step l f0
  | None => f0
  end.

(** Lines 727-774. *)
Definition collect_power (bat : option battery)
    (rapl_stats : list (string * F)) (supplies : option (list supply))
  : power_status :=
  let power_status :=
    {| ps_battery := bat; ps_rapl := None; consumption_watts := None |} in
  let power_status :=
    match rapl_stats with
    | [] => power_status
    | _ :: _ =>
        (* sum(v for k, v in rapl_stats.items() if "Package" in k) *)
        let total_watts :=
          py_sum (snd <$> filter (fun kv => Text.contains "Package" (fst kv) = true)
                                 rapl_stats) in
        {| ps_battery := bat; ps_rapl := Some rapl_stats;
           consumption_watts :=
             if fgt_int total_watts 0 then Some total_watts else None |}
    end in
  match consumption_watts power_status with
  | Some _ => power_status
  | None =>
      let power_watts := sysfs_power supplies in
      if fgt_int power_watts 0 then
        {| ps_battery := ps_battery power_status;
           ps_rapl := ps_rapl power_status;
           consumption_watts := Some (py_round power_watts 4) |}
      else power_status
  end.

(** *** Memory *)

(** [get_size(bytes)] where it is called outside a [try]: [None] is
    the [OverflowError], [Some None] the [None] it returns beyond its
    units. *)
Definition sized (bytes : Z) : option (option string) :=
  match Size.get_size bytes "B" with
  | Size.Str s => Some (Some s)
  | Size.NoneValue => Some None
  | Size.Overflow => None
  end.

(** Lines 777-788. *)
Definition memory_stats_of (vm : svmem) : option memory_stats :=
  total ← sized (vm_total vm);
  available ← sized (vm_available vm);
  used ← sized (vm_used vm);
  buffers ← sized (default 0 (vm_buffers vm));
  cached ← sized (default 0 (vm_cached vm));
  shared ← sized (default 0 (vm_shared vm));
  slab ← sized (default 0 (vm_slab vm));
  active ← sized (default 0 (vm_active vm));
  inactive ← sized (default 0 (vm_inactive vm));
  Some {| mem_total := total; mem_available := available; mem_used := used;
          mem_percent := vm_percent vm;
          mem_buffers := buffers; mem_cached := cached;
          mem_shared := shared; mem_slab := slab;
          mem_active := active; mem_inactive := inactive |}.

(** Lines 791-796. *)
Definition memory_sample_of (tk : tick) (vm : svmem) : memory_sample :=
  {| ms_time := t_memory tk; ms_percent := vm_percent vm;
     ms_used := vm_used vm; ms_available := vm_available vm |}.

(** *** Partitions *)

(** Lines 798-803. *)
Definition refresh_partitions (tk : tick) : stmt (list partition) :=
  last ← global last_partitions_time;
  cache ← global disk_partitions_cache;
  if fgt_int (fsub (t_partitions tk) last) 60 || bool_decide (cache = [])
  then
    ps ← call (disk_partitions tk);
    _ ← assign (set_disk_partitions_cache ps);
    _ ← assign (set_last_partitions_time (t_partitions' tk));
    mret ps
  else mret cache.

(** *** Network *)

(** Line 907: [get_connection_states()]. *)
Definition get_connection_states (tk : tick) : stmt (list (string * Z)) :=
  fun st =>
    let '(connection_states, cache) :=
      Cache.get_connection_states (states_cache st) (t_states tk)
        (t_states' tk) (tcp_connections tk) in
    (Some connection_states, set_states_cache cache st).

(** Lines 909-924: reading an attribute of [None] raises, and so does
    a size that overflows. *)
Definition network_stats_of (tk : tick) (counters : option net_io)
    (connection_states : list (string * Z)) : option network_stats :=
  io ← counters;
  sent ← sized (bytes_sent io);
  recv ← sized (bytes_recv io);
  Some {| ns_bytes_sent := sent; ns_bytes_recv := recv;
          ns_raw_sent := bytes_sent io; ns_raw_recv := bytes_recv io;
          ns_connection_states := connection_states;
          ns_errors :=
            [ ("total_errors_in", errin io); ("total_errors_out", errout io);
              ("total_drops_in", dropin io);
              ("total_drops_out", dropout io) ]%string;
          ns_listening_ports :=
            Ports.get_listening_ports (net_connections tk)
              (process_name tk) |}.

(** *** Boot time *)

(** Line 962. *)
Definition format_boot_time (bt : tm) : string :=
  pretty (tm_year bt) +:+ "/" +:+ pretty (tm_mon bt) +:+ "/"
  +:+ pretty (tm_mday bt) +:+ " " +:+ pretty (tm_hour bt) +:+ ":"
  +:+ pretty (tm_min bt) +:+ ":" +:+ pretty (tm_sec bt).

(** *** The cached sections of the returned dictionary *)

(** Line 990: [get_ssh_stats()]. *)
Definition get_ssh_stats (tk : tick) : stmt (Cache.ssh_stats F) :=
  fun st =>
    let '(ssh, cache) :=
      Cache.get_ssh_stats (ssh_cache st) (t_ssh tk) (t_ssh' tk)
        (ssh_connections tk) (ssh_identify tk) (ssh_details tk) in
    (Some ssh, set_ssh_cache cache st).

(** Line 992: [get_top_processes()]. *)
Definition get_top_processes (tk : tick) : stmt (list (process F)) :=
  fun st =>
    let '(procs, cache) :=
      Cache.get_top_processes (process_cache st) (t_process tk)
        (t_process' tk) (processes tk) in
    (Some procs, set_process_cache cache st).

(** *** [collect_stats] *)

Definition collect_stats (tk : tick) : stmt snapshot :=
  (* lines 630-646 *)
  cpu_percent ← call (cpu_percent_total tk);
  cpu_per_core ← call (cpu_percent_percpu tk);
  cpu_times ← call (cpu_times_percent tk);
  (* lines 693-725 *)
  _ ← record_temperatures tk;
  (* lines 727-774 *)
  rapl_stats ← rapl_get_power_stats tk;
  let power_status :=
    collect_power (sensors_battery tk) rapl_stats (power_supply tk) in
  (* lines 776-796 *)
  svmem ← call (virtual_memory tk);
  memory_stats ← call (memory_stats_of svmem);
  _ ← assign (fun st =>
         set_memory_history
           (Deque.append Deque.maxlen (memory_history st)
              (memory_sample_of tk svmem)) st);
  (* lines 798-803 *)
  partitions ← refresh_partitions tk;
  (* lines 873-924 *)
  net_io ← call (net_io_counters tk);
  connection_states ← get_connection_states tk;
  network_stats ← call (network_stats_of tk net_io connection_states);
  (* lines 960-962 *)
  bt ← call (boot_localtime tk);
  (* lines 964-993 *)
  info ← call (get_cpu_info tk);
  temp_history ← global cpu_temp_history;
  memory_history ← global memory_history;
  ssh_stats ← get_ssh_stats tk;
  processes ← get_top_processes tk;
  mret {| snap_cpu_percent := cpu_percent;
          snap_cpu_per_core := cpu_per_core;
          snap_cpu_times := cpu_times_dict cpu_times;
          snap_cpu_info := info;
          snap_temp_history := temp_history;
          snap_power := power_status;
          snap_memory := memory_stats;
          snap_memory_history := memory_history;
          snap_network := network_stats;
          snap_ssh_stats := ssh_stats;
          snap_boot_time := format_boot_time bt;
          snap_processes := processes |}.

(** The same tick on a host whose [/sys/class/power_supply] shows
    [supplies] instead. *)
Definition with_power_supply (tk : tick) (supplies : option (list supply))
  : tick :=
  {| cpu_percent_total := cpu_percent_total tk;
     cpu_percent_percpu := cpu_percent_percpu tk;
     cpu_times_percent := cpu_times_percent tk;
     temps := temps tk; t_temp := t_temp tk;
     sensors_battery := sensors_battery tk;
     powercap := powercap tk; t_rapl := t_rapl tk;
     power_supply := supplies;
     virtual_memory := virtual_memory tk; t_memory := t_memory tk;
     t_partitions := t_partitions tk;
     disk_partitions := disk_partitions tk;
     t_partitions' := t_partitions' tk;
     net_io_counters := net_io_counters tk;
     tcp_connections := tcp_connections tk;
     t_states := t_states tk; t_states' := t_states' tk;
     net_connections := net_connections tk;
     process_name := process_name tk;
     boot_localtime := boot_localtime tk;
     get_cpu_info := get_cpu_info tk;
     ssh_connections := ssh_connections tk;
     ssh_identify := ssh_identify tk; ssh_details := ssh_details tk;
     t_ssh := t_ssh tk; t_ssh' := t_ssh' tk;
     processes := processes tk;
     t_process := t_process tk; t_process' := t_process' tk |}.
End collect.

Arguments cpu_times F : clear implicits.
Arguments cpu_info F : clear implicits.
Arguments temp_entry F : clear implicits.
Arguments temp_sample F : clear implicits.
Arguments svmem F : clear implicits.
Arguments memory_stats F : clear implicits.
Arguments memory_sample F : clear implicits.
Arguments battery F : clear implicits.
Arguments power_status F : clear implicits.
Arguments state F : clear implicits.
Arguments tick F : clear implicits.
Arguments snapshot F : clear implicits.
Arguments stmt F : clear implicits.

End Collect.

(** ** [RaplReader.__init__] and [_init_domains] *)

Module RaplInit.

(** What [_init_domains] sees of [/sys/class/powercap]:
    [os.path.exists] of the directory, [os.listdir] of it ([None] when
    it raises), the files below it as [get_power_stats] sees them, and
    [f.read().strip()] of a file ([None] when opening it raises). *)
Record powercap := {
  base_exists : bool;
  listdir : option (list string);
  files : Rapl.sysfs;
  read_text : string -> option string
}.

Definition base_path : string := "/sys/class/powercap".

(** [os.path.join(a, b)] for a plain file name [b]. *)
Definition join (a b : string) : string := a +:+ "/" +:+ b.

(** [s.split(":")[-1]]: what follows the last colon, all of [s] when
    there is none. *)
Fixpoint last_segment (s : string) : string :=
  match s with
  | EmptyString => EmptyString
  | String c s' =>
      if Text.contains ":" s' then last_segment s'
      else if Ascii.eqb c ":" then s' else s
  end.

(** Lines 62-84 for one directory: the domain appended, [None] when
    there is no name file or the [try] raises ([except: continue]). *)
Definition init_domain (env : powercap) (path : string)
  : option Rapl.domain :=
  let name_file := join path "name" in
  if Rapl.file_exists (files env) name_file then
    name ← read_text env name_file;
    let name :=
      if Text.contains "package" name
      then "Package-" +:+ last_segment path else name in
    let max_file := join path "max_energy_range_uj" in
    max_range ←
      (if Rapl.file_exists (files env) max_file
       then Rapl.read_int (files env) max_file else Some 0);
    Some {| Rapl.path := path; Rapl.name := name;
            Rapl.energy_file := join path "energy_uj";
            Rapl.max_range := max_range |}
  else None.

(** [d] is kept by line 58. *)
Definition is_rapl_dir (d : string) : bool :=
  Text.contains "intel-rapl" d && Text.contains ":" d.

(** [_init_domains]: the value [self.domains] is left with. *)
Definition init_domains (env : powercap) : list Rapl.domain :=
  if base_exists env then
    match listdir env with
    | Some entries =>
        let rapl_dirs :=
          join base_path <$> filter (fun d => is_rapl_dir d = true) entries in
        omap (init_domain env) rapl_dirs
    | None => []
    end
  else [].

(** [RaplReader()] *)
Definition new_reader {F : Type} (env : powercap) : Rapl.reader F :=
  {| Rapl.last_readings := ∅;
     Rapl.domains := init_domains env;
     Rapl.cleanup_counter := 0 |}.

End RaplInit.

(** ** The push channel: the interval of [websocket_endpoint] *)

Module Push.

(** Lines 1003-1005.  [tenth] is the literal [0.1] and [sixty] the
    number [60] the interval is set to. *)
Definition clamp_interval {F : Type} `{PyFloat F} (tenth sixty : F)
    (interval : F) : F :=
  let interval := if flt interval tenth then tenth else interval in
  if fgt_int interval 60 then sixty else interval.

End Push.

(** ** The rationals as floats

    An exact-arithmetic reading of the interface over the rationals,
    used to run the model on concrete inputs.  Values are kept in
    lowest terms so that equal numbers are equal terms. *)

Definition q_round (a : Q) (ndigits : Z) : Q :=
  let scale := inject_Z (10 ^ ndigits) in
  let x := Qred (a * scale) in
  let fl := Qfloor x in
  let frac := Qred (x - inject_Z fl) in
  (* round half to even on the scaled value *)
  let n :=
    match Qcompare frac (1 # 2) with
    | Lt => fl
    | Gt => fl + 1
    | Eq => if Z.even fl then fl else fl + 1
    end in
  Qred (inject_Z n / scale).

Definition q_gt_int (a : Q) (n : Z) : bool :=
  negb (Qle_bool a (inject_Z n)).

Definition q_lt (a b : Q) : bool := negb (Qle_bool b a).

Definition q_of_int (z : Z) : option Q :=
  if Z.abs z <? 2 ^ 1024 then Some (inject_Z z) else None.

Definition q_sum (l : list Q) : Q :=
  fold_left (fun acc x => Qred (acc + x)) l 0%Q.

Lemma q_of_int_small z : Z.abs z < 2 ^ 1023 -> is_Some (q_of_int z).
Proof.
  intros Hz. unfold q_of_int.
  assert (Hlt : 2 ^ 1023 < 2 ^ 1024) by (apply Z.pow_lt_mono_r; lia).
  destruct (Z.ltb_spec (Z.abs z) (2 ^ 1024)) as [_ | Hge]; [eauto | lia].
Qed.

#[export] Instance QFloat : PyFloat Q := {|
  fsub a b := Qred (a - b);
  fadd a b := Qred (a + b);
  fdiv a b := Qred (a / b);
  fgt_int := q_gt_int;
  flt := q_lt;
  float_of_int := q_of_int;
  float_of_len n := inject_Z (Z.of_nat n);
  py_round := q_round;
  py_sum := q_sum;
  f0 := 0%Q;
  f1e6 := inject_Z 1000000;
  f1e12 := inject_Z 1000000000000;
  float_of_int_small := q_of_int_small;
  sum_nil_not_positive := eq_refl
|}.

(** ** Sample hosts

    Concrete readers, file systems and ticks over the rational
    instance, on which the model is run below. *)

Module Sample.

Definition pkg0 : Rapl.domain :=
  {| Rapl.path := "/sys/class/powercap/intel-rapl:0";
     Rapl.name := "Package-0";
     Rapl.energy_file := "/sys/class/powercap/intel-rapl:0/energy_uj";
     Rapl.max_range := 262143328850 |}.

Definition core0 : Rapl.domain :=
  {| Rapl.path := "/sys/class/powercap/intel-rapl:0:0";
     Rapl.name := "core";
     Rapl.energy_file := "/sys/class/powercap/intel-rapl:0:0/energy_uj";
     Rapl.max_range := 262143328850 |}.

(** [Package-0] was read at time 10 with 1000000 uJ; [core] never. *)
Definition reader0 : Rapl.reader Q :=
  {| Rapl.last_readings := {[ Rapl.path pkg0 := (10%Q, 1000000) ]};
     Rapl.domains := [pkg0; core0];
     Rapl.cleanup_counter := 0 |}.

(** The package register now reads 5000000 uJ, the core register 77. *)
Definition powercap0 : Rapl.sysfs :=
  {| Rapl.file_exists := fun _ => true;
     Rapl.read_int := fun f =>
       if String.eqb f (Rapl.energy_file pkg0) then Some 5000000
       else Some 77 |}.

(** Three processes; the first and the last use the same share of
    memory. *)
Definition proc (pid : Z) (ppid : Z) (mem : Q) : Psutil.process Q :=
  {| Psutil.pid := pid; Psutil.ppid := Some ppid;
     Psutil.pname := "p"; Psutil.username := "root";
     Psutil.memory_percent := mem; Psutil.cpu_percent := 0%Q |}.

Definition procs : list (Psutil.process Q) :=
  [proc 1 0 (3 # 2); proc 2 1 3%Q; proc 3 99 (3 # 2)].

Definition process_cache0 : Cache.process_cache Q :=
  {| Cache.process_cache_list := [proc 1 0 (3 # 2)];
     Cache.last_process_time := 0%Q |}.

(** A GPU was identified at time 0. *)
Definition gpu_cache0 : Cache.gpu_cache Q :=
  {| Cache.gpu_info_cache := Some "Intel Graphics [0x9a49] [Integrated]"%string;
     Cache.last_gpu_info_time := 0%Q |}.

(** A card whose vendor file exists but cannot be read. *)
Definition unreadable_card : Cache.drm_card :=
  {| Cache.vendor_file_exists := true; Cache.device_file_exists := true;
     Cache.vendor := None; Cache.device := None |}.

(** Three listening sockets were counted at time 0. *)
Definition states_cache0 : Cache.states_cache Q :=
  {| Cache.connection_states_cache :=
       Dict.set "LISTEN"%string 3 Cache.zero_states;
     Cache.last_connection_states_time := 0%Q |}.

Definition ssh_running : Cache.ssh_stats Q :=
  {| Cache.ssh_status := "Running"; Cache.connections := 0; Cache.port := 22;
     Cache.sessions := []; Cache.auth_password := 0;
     Cache.auth_publickey := 4; Cache.auth_other := 0;
     Cache.failed_logins := 1; Cache.hostkey_fingerprint := "-";
     Cache.oom_risk_processes := []; Cache.ssh_process_memory := 0%Q;
     Cache.history_size := 12 |}.

Definition ssh_cache0 : Cache.ssh_cache Q :=
  {| Cache.ssh_stats_cache := ssh_running; Cache.last_ssh_time := 0%Q |}.

Definition ssh_details0 : Cache.ssh_details Q :=
  {| Cache.d_auth_password := 0; Cache.d_auth_publickey := 0;
     Cache.d_failed_logins := 0; Cache.d_hostkey_fingerprint := "-";
     Cache.d_oom_risk_processes := []; Cache.d_ssh_process_memory := 0%Q;
     Cache.d_history_size := 0 |}.

Definition identify0 (c : Psutil.conn) : string * string :=
  ("Unknown"%string, "-"%string).

(** Connections: sshd and a web server listening, one SSH session. *)
Definition conns : list Psutil.conn :=
  [ {| Psutil.status := "LISTEN"; Psutil.laddr := Some ("0.0.0.0"%string, 80);
       Psutil.raddr := None; Psutil.sock_type := 1;
       Psutil.conn_pid := Some 410 |};
    {| Psutil.status := "ESTABLISHED";
       Psutil.laddr := Some ("10.0.0.5"%string, 22);
       Psutil.raddr := Some ("10.0.0.9"%string, 50122);
       Psutil.sock_type := 1; Psutil.conn_pid := Some 977 |};
    {| Psutil.status := "LISTEN"; Psutil.laddr := Some ("0.0.0.0"%string, 22);
       Psutil.raddr := None; Psutil.sock_type := 1;
       Psutil.conn_pid := Some 300 |} ].

Definition process_name0 (p : option Z) : option string :=
  match p with
  | Some 300 => Some "sshd"%string
  | Some 410 => Some "nginx"%string
  | _ => None
  end.

(** A second package zone that reports under the name of the first. *)
Definition pkg1 : Rapl.domain :=
  {| Rapl.path := "/sys/class/powercap/intel-rapl:1";
     Rapl.name := "Package-0";
     Rapl.energy_file := "/sys/class/powercap/intel-rapl:1/energy_uj";
     Rapl.max_range := 262143328850 |}.

(** [reader0] at its 301st call: the periodic cleanup is due. *)
Definition reader_cleanup_due : Rapl.reader Q :=
  {| Rapl.last_readings := {[ Rapl.path pkg0 := (10%Q, 1000000) ]};
     Rapl.domains := [pkg0; core0];
     Rapl.cleanup_counter := 300 |}.

(** Both domains were read at time 10 with 1000000 uJ. *)
Definition reader_both : Rapl.reader Q :=
  {| Rapl.last_readings :=
       {[ Rapl.path pkg0 := (10%Q, 1000000);
          Rapl.path core0 := (10%Q, 1000000) ]};
     Rapl.domains := [pkg0; core0];
     Rapl.cleanup_counter := 0 |}.

(** A new reader with two zones of the same name before [core]. *)
Definition reader_shared_name : Rapl.reader Q :=
  {| Rapl.last_readings := ∅;
     Rapl.domains := [pkg0; pkg1; core0];
     Rapl.cleanup_counter := 0 |}.

(** Every register reads 1000000 uJ. *)
Definition powercap_start : Rapl.sysfs :=
  {| Rapl.file_exists := fun _ => true;
     Rapl.read_int := fun _ => Some 1000000 |}.

(** The package register reads 5000000 uJ, every other 3000000. *)
Definition powercap_both : Rapl.sysfs :=
  {| Rapl.file_exists := fun _ => true;
     Rapl.read_int := fun f =>
       if String.eqb f (Rapl.energy_file pkg0) then Some 5000000
       else Some 3000000 |}.

(** A host without a battery whose power supply reports 7.5 W. *)
Definition state0 : Collect.state Q :=
  {| Collect.rapl_reader := reader0;
     Collect.cpu_temp_history := [];
     Collect.memory_history := [];
     Collect.disk_partitions_cache := [];
     Collect.last_partitions_time := 0%Q;
     Collect.states_cache := states_cache0;
     Collect.ssh_cache := ssh_cache0;
     Collect.process_cache := process_cache0 |}.

(** The same host with a prior reading of both RAPL domains. *)
Definition state_both : Collect.state Q :=
  {| Collect.rapl_reader := reader_both;
     Collect.cpu_temp_history := [];
     Collect.memory_history := [];
     Collect.disk_partitions_cache := [];
     Collect.last_partitions_time := 0%Q;
     Collect.states_cache := states_cache0;
     Collect.ssh_cache := ssh_cache0;
     Collect.process_cache := process_cache0 |}.

Definition cpu_times0 : Collect.cpu_times Q :=
  {| Collect.user := (25 # 2)%Q; Collect.system := 4%Q;
     Collect.idle := (167 # 2)%Q;
     Collect.nice := Some 0%Q; Collect.iowait := Some 0%Q;
     Collect.irq := Some 0%Q; Collect.softirq := Some 0%Q;
     Collect.steal := Some 0%Q; Collect.guest := Some 0%Q;
     Collect.guest_nice := Some 0%Q |}.

Definition svmem0 : Collect.svmem Q :=
  {| Collect.vm_total := 8000000000;
     Collect.vm_available := 4600000000;
     Collect.vm_used := 3400000000;
     Collect.vm_percent := (85 # 2)%Q;
     Collect.vm_buffers := Some 100000000;
     Collect.vm_cached := Some 900000000;
     Collect.vm_shared := Some 50000000;
     Collect.vm_slab := Some 80000000;
     Collect.vm_active := Some 2000000000;
     Collect.vm_inactive := Some 1000000000 |}.

Definition net_io0 : Collect.net_io :=
  {| Collect.bytes_sent := 123456789; Collect.bytes_recv := 987654321;
     Collect.errin := 0; Collect.errout := 0;
     Collect.dropin := 2; Collect.dropout := 0 |}.

Definition boot0 : Collect.tm :=
  {| Collect.tm_year := 2024; Collect.tm_mon := 5; Collect.tm_mday := 17;
     Collect.tm_hour := 8; Collect.tm_min := 4; Collect.tm_sec := 59 |}.

Definition cpu_info0 : Collect.cpu_info Q :=
  {| Collect.ci_model := "Unknown"; Collect.ci_architecture := "x86_64";
     Collect.ci_cores := Some 2; Collect.ci_threads := Some 4;
     Collect.ci_max_freq := 0%Q; Collect.ci_min_freq := 0%Q |}.

(** A core temperature sensor. *)
Definition core_temps0 : list (string * list (Collect.temp_entry Q)) :=
  [("coretemp"%string,
    [ {| Collect.label := "Package id 0"; Collect.current := 50%Q;
         Collect.high := None; Collect.critical := None |};
      {| Collect.label := "Core 0"; Collect.current := 48%Q;
         Collect.high := None; Collect.critical := None |};
      {| Collect.label := "Core 1"; Collect.current := 51%Q;
         Collect.high := None; Collect.critical := None |} ])].

(** One call at time 12 on the sample host, given what
    [psutil.cpu_percent], [psutil.sensors_temperatures], the powercap
    registers and [psutil.virtual_memory] answer. *)
Definition tick_at_12 (cpu : option Q)
    (temps : option (list (string * list (Collect.temp_entry Q))))
    (fs : Rapl.sysfs) (vm : option (Collect.svmem Q)) : Collect.tick Q :=
  {| Collect.cpu_percent_total := cpu;
     Collect.cpu_percent_percpu := Some [10%Q; 15%Q];
     Collect.cpu_times_percent := Some cpu_times0;
     Collect.temps := temps;
     Collect.t_temp := 12%Q;
     Collect.sensors_battery := None;
     Collect.powercap := fs;
     Collect.t_rapl := 12%Q;
     Collect.power_supply :=
       Some [ {| Collect.power_now := Some 7500000;
                 Collect.voltage_now := None;
                 Collect.current_now := None |} ];
     Collect.virtual_memory := vm;
     Collect.t_memory := 12%Q;
     Collect.t_partitions := 12%Q;
     Collect.disk_partitions := Some [];
     Collect.t_partitions' := 12%Q;
     Collect.net_io_counters := Some (Some net_io0);
     Collect.tcp_connections := Some conns;
     Collect.t_states := 12%Q;
     Collect.t_states' := 12%Q;
     Collect.net_connections := Some conns;
     Collect.process_name := process_name0;
     Collect.boot_localtime := Some boot0;
     Collect.get_cpu_info := Some cpu_info0;
     Collect.ssh_connections := Some conns;
     Collect.ssh_identify := identify0;
     Collect.ssh_details := ssh_details0;
     Collect.t_ssh := 12%Q;
     Collect.t_ssh' := 12%Q;
     Collect.processes := procs;
     Collect.t_process := 12%Q;
     Collect.t_process' := 12%Q |}.

(** The host without temperature sensors ... *)
Definition tick0 : Collect.tick Q :=
  tick_at_12 (Some (25 # 2)%Q) None powercap0 (Some svmem0).

(** ... and with the core temperature sensor. *)
Definition tick1 : Collect.tick Q :=
  tick_at_12 (Some (25 # 2)%Q) (Some core_temps0) powercap0 (Some svmem0).

(** Both RAPL registers have advanced. *)
Definition tick_both : Collect.tick Q :=
  tick_at_12 (Some (25 # 2)%Q) None powercap_both (Some svmem0).

(** [psutil.cpu_percent] raises. *)
Definition tick_cpu_raises : Collect.tick Q :=
  tick_at_12 None (Some core_temps0) powercap0 (Some svmem0).

(** [psutil.virtual_memory] raises. *)
Definition tick_memory_raises : Collect.tick Q :=
  tick_at_12 (Some (25 # 2)%Q) (Some core_temps0) powercap0 None.

(** A powercap directory with one package, its core domain and an
    entry that is no RAPL zone. *)
Definition powercap_dir : RaplInit.powercap :=
  {| RaplInit.base_exists := true;
     RaplInit.listdir :=
       Some ["intel-rapl:0"; "intel-rapl:0:0"; "dtpm"]%string;
     RaplInit.files :=
       {| Rapl.file_exists := fun _ => true;
          Rapl.read_int := fun f =>
            if Text.contains "max_energy_range_uj" f then Some 262143328850
            else if String.eqb f (Rapl.energy_file pkg0) then Some 5000000
            else Some 77 |};
     RaplInit.read_text := fun f =>
       if String.eqb f "/sys/class/powercap/intel-rapl:0/name"
       then Some "package-0"%string else Some "core"%string |}.

(** The same file system with the core register gone. *)
Definition powercap_core_missing : Rapl.sysfs :=
  {| Rapl.file_exists := fun f =>
       negb (String.eqb f (Rapl.energy_file core0));
     Rapl.read_int := Rapl.read_int powercap0 |}.

(** [reader0] without the core domain. *)
Definition reader_pkg_only : Rapl.reader Q :=
  {| Rapl.last_readings := Rapl.last_readings reader0;
     Rapl.domains := [pkg0];
     Rapl.cleanup_counter := Rapl.cleanup_counter reader0 |}.

End Sample.

(** * Properties *)

(** ** The bounded history *)

Section deque_facts.
Context {A : Type}.
Implicit Types (xs d : list A) (cap : nat).

Lemma pushes_snoc cap d xs x :
  Deque.pushes cap d (xs ++ [x]) = Deque.append cap (Deque.pushes cap d xs) x.
Proof. unfold Deque.pushes. by rewrite fold_left_app. Qed.

Lemma tail_drop (n : nat) xs : tail (drop n xs) = drop (S n) xs.
Proof.
  revert n. induction xs as [|y ys IH]; intros [|n]; simpl; auto.
Qed.

(** A history within its capacity holds, after any pushes, the last
    [cap] items of what it held followed by what was pushed. *)
Lemma pushes_drop cap d xs :
  (length d <= cap)%nat ->
  Deque.pushes cap d xs = drop (length (d ++ xs) - cap) (d ++ xs).
Proof.
  intros Hd. induction xs as [|x xs IH] using rev_ind.
  - rewrite app_nil_r. replace (length d - cap)%nat with 0%nat by lia. done.
  - rewrite pushes_snoc, IH. unfold Deque.append.
    rewrite app_assoc. set (l := d ++ xs).
    rewrite !length_app, length_drop. simpl.
    destruct (Nat.ltb_spec cap (length l - (length l - cap) + 1)) as [Hlt|Hge].
    + assert (Hlen : (cap <= length l)%nat) by lia.
      rewrite <- drop_app_le by lia.
      rewrite tail_drop. f_equal. lia.
    + replace (length l + 1 - cap)%nat with 0%nat by lia.
      replace (length l - cap)%nat with 0%nat by lia.
      by rewrite !drop_0.
Qed.
End deque_facts.

(** C5: a history of capacity 60 that receives [capacity + 1] pushes
    holds exactly 60 items afterwards, the pushed items without the
    first one and in push order, so that the last pushed item is the
    last one held and the first pushed item (when it was pushed once) is
    gone; up to [capacity] pushes are all kept, in order, behind what
    is left of the older items, and are the whole content when the
    history was empty. *)
Theorem history_keeps_last_capacity {A : Type} (d xs : list A) :
  (length d <= Deque.maxlen)%nat ->
  let h := Deque.pushes Deque.maxlen d xs in
  (length xs = S Deque.maxlen ->
     length h = Deque.maxlen
     /\ h = tail xs
     /\ last h = last xs
     /\ (NoDup xs -> forall x, head xs = Some x -> x ∉ h))
  /\ ((length xs <= Deque.maxlen)%nat ->
        h = drop (length d + length xs - Deque.maxlen) d ++ xs
        /\ (d = [] -> h = xs)).
Proof.
  intros Hd h. unfold h. rewrite (pushes_drop _ _ _ Hd).
  rewrite length_app. split.
  - intros Hlen.
    assert (Hp : drop (length d + length xs - Deque.maxlen) (d ++ xs)
                 = tail xs).
    { rewrite Hlen.
      replace (length d + S Deque.maxlen - Deque.maxlen)%nat
        with (length d + 1)%nat by lia.
      rewrite drop_app_add. by destruct xs. }
    rewrite Hp. destruct xs as [|x [|y ys]]; try (simpl in Hlen; discriminate).
    split; [simpl in *; lia|]. split; [done|]. split; [done|].
    intros Hnd z Hz. simpl in Hz. injection Hz as <-.
    simpl. by apply NoDup_cons_1_1 in Hnd.
  - intros Hlen.
    assert (Hk : (length d + length xs - Deque.maxlen <= length d)%nat) by lia.
    split.
    + by rewrite drop_app_le.
    + intros ->. simpl. replace (length xs - Deque.maxlen)%nat with 0%nat by lia.
      apply drop_0.
Qed.

(** Sixty-one pushes into a history that already held two items, and
    three pushes into an empty one. *)
Lemma history_keeps_last_capacity_run :
  (let xs := seq 0 61 in
   let h := Deque.pushes Deque.maxlen [100; 101]%nat xs in
   length h = Deque.maxlen
   /\ h = tail xs
   /\ last h = last xs
   /\ 0%nat ∉ h)
  /\ Deque.pushes Deque.maxlen [] [7; 8; 9]%nat = [7; 8; 9]%nat.
Proof.
  split.
  - destruct (proj1 (history_keeps_last_capacity [100; 101]%nat (seq 0 61)
                       ltac:(unfold Deque.maxlen; simpl; lia)) eq_refl)
      as (Hlen & Htl & Hlast & Hfirst).
    cbv zeta.
    split; [exact Hlen | split; [exact Htl | split; [exact Hlast |]]].
    apply Hfirst; [apply NoDup_seq | reflexivity].
  - apply (proj2 (history_keeps_last_capacity [] [7; 8; 9]%nat
                    ltac:(unfold Deque.maxlen; simpl; lia))).
    + unfold Deque.maxlen. simpl. lia.
    + reflexivity.
Defined.

(** ** Ordered dictionaries *)

Section dict_facts.
Context {K V : Type} `{EqDecision K}.
Implicit Types (d : list (K * V)).

Lemma dict_get_set_eq k v d : Dict.get k (Dict.set k v d) = Some v.
Proof.
  induction d as [|[k' v'] d IH]; simpl.
  - by rewrite decide_True.
  - destruct (decide (k = k')) as [->|Hne]; simpl.
    + by rewrite decide_True.
    + by rewrite decide_False.
Qed.

Lemma dict_get_set_ne k k' v d :
  k <> k' -> Dict.get k' (Dict.set k v d) = Dict.get k' d.
Proof.
  intros Hne. induction d as [|[k0 v0] d IH]; simpl.
  - by rewrite decide_False.
  - destruct (decide (k = k0)) as [->|Hne0]; simpl.
    + by rewrite !decide_False.
    + destruct (decide (k' = k0)); auto.
Qed.

Lemma dict_get_Some_keys k v d : Dict.get k d = Some v -> k ∈ Dict.keys d.
Proof.
  induction d as [|[k0 v0] d IH]; simpl; [done|].
  destruct (decide (k = k0)) as [->|Hne]; intros Hg.
  - apply list_elem_of_here.
  - apply list_elem_of_further. auto.
Qed.

Lemma dict_keys_get k d : k ∈ Dict.keys d -> is_Some (Dict.get k d).
Proof.
  induction d as [|[k0 v0] d IH]; simpl.
  - intros Hin. by apply elem_of_nil in Hin.
  - intros Hin. destruct (decide (k = k0)) as [->|Hne]; [eauto|].
    apply IH. apply elem_of_cons in Hin as [?|?]; [done|auto].
Qed.

Lemma dict_keys_set k v d :
  forall k', k' ∈ Dict.keys (Dict.set k v d) <-> k' = k \/ k' ∈ Dict.keys d.
Proof.
  intros k'. unfold Dict.keys.
  induction d as [|[k0 v0] d IH]; simpl.
  - rewrite list_elem_of_singleton, elem_of_nil. tauto.
  - destruct (decide (k = k0)) as [->|Hne]; simpl.
    + rewrite !elem_of_cons. tauto.
    + rewrite !elem_of_cons, IH. tauto.
Qed.

Lemma dict_keys_set_NoDup k v d :
  NoDup (Dict.keys d) -> NoDup (Dict.keys (Dict.set k v d)).
Proof.
  unfold Dict.keys. induction d as [|[k0 v0] d IH]; simpl; intros Hnd.
  - apply NoDup_singleton.
  - apply NoDup_cons in Hnd as [Hnotin Hnd].
    destruct (decide (k = k0)) as [->|Hne]; simpl.
    + by apply NoDup_cons.
    + apply NoDup_cons. split; [|auto].
      intros Hin. apply (dict_keys_set k v d k0) in Hin as [?|?]; auto.
Qed.
End dict_facts.

(** ** The RAPL reader *)

Section rapl_facts.
Context {F : Type} `{PyFloat F}.
Import Rapl.
Implicit Types (st : list (string * F) * gmap string (F * Z)).
Implicit Types (d : domain) (ds : list domain).

Lemma sample_loop_app fs now ds1 ds2 st :
  sample_loop fs now (ds1 ++ ds2) st
  = sample_loop fs now ds2 (sample_loop fs now ds1 st).
Proof. unfold sample_loop. apply fold_left_app. Qed.

Lemma sample_loop_cons fs now d ds st :
  sample_loop fs now (d :: ds) st
  = sample_loop fs now ds (default st (sample_domain fs now d st)).
Proof. done. Qed.

(** One round touches only the round's own reading ... *)
Lemma sample_domain_readings_other fs now d st p :
  p <> path d ->
  (default st (sample_domain fs now d st)).2 !! p = st.2 !! p.
Proof.
  intros Hne. destruct st as [stats readings]. unfold sample_domain.
  destruct (file_exists fs (energy_file d)); [|done].
  destruct (read_int fs (energy_file d)) as [e|]; [|done]. simpl.
  destruct (readings !! path d) as [[t0 e0]|]; simpl.
  - destruct (fgt_int (fsub now t0) 0 && (0 <=? energy_delta e e0 (max_range d))).
    + destruct (float_of_int _); simpl; [|done].
      by rewrite lookup_insert_ne.
    + simpl. by rewrite lookup_insert_ne.
  - by rewrite lookup_insert_ne.
Qed.

(** ... and only the round's own name in [stats]. *)
Lemma sample_domain_stats_other fs now d st n :
  n <> name d ->
  Dict.get n (default st (sample_domain fs now d st)).1 = Dict.get n st.1.
Proof.
  intros Hne. destruct st as [stats readings]. unfold sample_domain.
  destruct (file_exists fs (energy_file d)); [|done].
  destruct (read_int fs (energy_file d)) as [e|]; [|done]. simpl.
  destruct (readings !! path d) as [[t0 e0]|]; simpl; [|done].
  destruct (fgt_int (fsub now t0) 0 && (0 <=? energy_delta e e0 (max_range d)));
    [|done].
  destruct (float_of_int _); simpl; [|done].
  by rewrite dict_get_set_ne.
Qed.

Lemma sample_loop_readings_other fs now ds st p :
  p ∉ path <$> ds ->
  (sample_loop fs now ds st).2 !! p = st.2 !! p.
Proof.
  revert st. induction ds as [|d ds IH]; intros st Hnotin; [done|].
  rewrite sample_loop_cons. rewrite fmap_cons, not_elem_of_cons in Hnotin.
  destruct Hnotin as [Hne Hnotin].
  rewrite IH by done. by apply sample_domain_readings_other.
Qed.

Lemma sample_loop_stats_other fs now ds st n :
  n ∉ name <$> ds ->
  Dict.get n (sample_loop fs now ds st).1 = Dict.get n st.1.
Proof.
  revert st. induction ds as [|d ds IH]; intros st Hnotin; [done|].
  rewrite sample_loop_cons. rewrite fmap_cons, not_elem_of_cons in Hnotin.
  destruct Hnotin as [Hne Hnotin].
  rewrite IH by done. by apply sample_domain_stats_other.
Qed.

(** A delta of 64-bit registers converts to a float. *)
Lemma energy_delta_converts e e0 m :
  uj64 e -> uj64 e0 -> uj64 m ->
  is_Some (float_of_int (energy_delta e e0 m)).
Proof.
  unfold uj64, energy_delta. intros He He0 Hm.
  apply float_of_int_small.
  assert (H64 : 2 ^ 64 * 2 < 2 ^ 1023) by (vm_compute; reflexivity).
  destruct (Z.ltb_spec (e - e0) 0); lia.
Qed.

(** The round of a domain whose register is read stores the reading,
    whatever was stored before. *)
Lemma sample_domain_stores fs now d st v :
  file_exists fs (energy_file d) = true ->
  read_int fs (energy_file d) = Some v ->
  uj64 v -> uj64 (max_range d) ->
  (forall t0 e0, st.2 !! path d = Some (t0, e0) -> uj64 e0) ->
  (default st (sample_domain fs now d st)).2 !! path d = Some (now, v).
Proof.
  intros Hex Hread Hv Hmax Hprior. destruct st as [stats readings].
  unfold sample_domain. rewrite Hex, Hread. simpl in *.
  destruct (readings !! path d) as [[t0 e0]|] eqn:Hp; simpl.
  - destruct (fgt_int (fsub now t0) 0 && (0 <=? energy_delta v e0 (max_range d))).
    + destruct (energy_delta_converts v e0 (max_range d)) as [x ->];
        [done | by eapply Hprior | done |].
      simpl. by rewrite lookup_insert_eq.
    + simpl. by rewrite lookup_insert_eq.
  - by rewrite lookup_insert_eq.
Qed.

(** The round of a domain with a prior reading: what it does to
    [stats]. *)
Lemma sample_domain_emits fs now d st v t0 e0 :
  file_exists fs (energy_file d) = true ->
  read_int fs (energy_file d) = Some v ->
  st.2 !! path d = Some (t0, e0) ->
  uj64 v -> uj64 e0 -> uj64 (max_range d) ->
  let dt := fsub now t0 in
  let de := energy_delta v e0 (max_range d) in
  exists x, float_of_int de = Some x /\
    (default st (sample_domain fs now d st)).1
    = if fgt_int dt 0 && (0 <=? de)
      then Dict.set (name d) (py_round (fdiv (fdiv x f1e6) dt) 2) st.1
      else st.1.
Proof.
  intros Hex Hread Hp Hv He0 Hmax dt de. destruct st as [stats readings].
  destruct (energy_delta_converts v e0 (max_range d)) as [x Hx]; try done.
  exists x. split; [done|].
  subst dt de.
  unfold sample_domain. rewrite Hex, Hread. simpl in *. rewrite Hp. simpl.
  destruct (fgt_int (fsub now t0) 0 && _); simpl; [|done].
  by rewrite Hx.
Qed.
(** The round of a domain without a prior reading emits nothing. *)
Lemma sample_domain_no_prior fs now d st :
  st.2 !! path d = None ->
  (default st (sample_domain fs now d st)).1 = st.1.
Proof.
  intros Hnone. destruct st as [stats readings]. unfold sample_domain.
  destruct (file_exists fs (energy_file d)); [|done].
  destruct (read_int fs (energy_file d)) as [e|]; [|done]. simpl in *.
  by rewrite Hnone.
Qed.
End rapl_facts.

Section rapl_calls.
Context {F : Type} `{PyFloat F}.
Import Rapl.

Lemma cleanup_domains (r : reader F) now : domains (cleanup r now) = domains r.
Proof. unfold cleanup. by destruct (300 <? cleanup_counter r + 1). Qed.

Lemma get_power_stats_loop (r : reader F) fs now :
  get_power_stats r fs now
  = let l := sample_loop fs now (domains r)
               ([], last_readings (cleanup r now)) in
    (l.1, {| last_readings := l.2; domains := domains r;
             cleanup_counter := cleanup_counter (cleanup r now) |}).
Proof.
  unfold get_power_stats. rewrite cleanup_domains.
  by destruct (sample_loop _ _ _ _).
Qed.

(** Calls that do not reach the periodic cleanup see the stored
    readings as they are. *)
Lemma cleanup_keeps_readings (r : reader F) now :
  cleanup_counter r < 300 ->
  last_readings (cleanup r now) = last_readings r.
Proof.
  intros Hc. unfold cleanup.
  destruct (Z.ltb_spec 300 (cleanup_counter r + 1)); [lia | done].
Qed.

(** The periodic cleanup forgets a stored reading exactly on the call
    that finds the counter at 300 or beyond, when the reading is older
    than 60 seconds. *)
Lemma cleanup_lookup_kept (r : reader F) now p x :
  last_readings r !! p = Some x ->
  (300 <? cleanup_counter r + 1) && fgt_int (fsub now x.1) 60 = false ->
  last_readings (cleanup r now) !! p = Some x.
Proof.
  intros Hl Hkeep. unfold cleanup.
  destruct (300 <? cleanup_counter r + 1); simpl in *; [|done].
  apply map_lookup_filter_Some. by split.
Qed.

Lemma cleanup_lookup_forgotten (r : reader F) now p x :
  last_readings r !! p = Some x ->
  (300 <? cleanup_counter r + 1) && fgt_int (fsub now x.1) 60 = true ->
  last_readings (cleanup r now) !! p = None.
Proof.
  intros Hl Hdrop. apply andb_true_iff in Hdrop as [Hdue Hold].
  unfold cleanup. rewrite Hdue. simpl.
  apply map_lookup_filter_None. right. intros x' Hx'.
  rewrite Hl in Hx'. injection Hx' as <-. simpl. by rewrite Hold.
Qed.
End rapl_calls.

(** The claim C1 as it stands fails on the call that runs the
    periodic cleanup.  [Package-0] has a stored prior reading
    [(10, 1000000)], its register is read as 5000000 at time 100, so
    [dt = 90 > 0] and [de = 4000000 >= 0]; but the reader is at its
    301st call and the reading is older than 60 seconds: lines 93-101
    delete it before the loop, and no wattage is emitted. *)
Lemma rapl_stale_prior_not_emitted :
  Rapl.last_readings Sample.reader_cleanup_due !! Rapl.path Sample.pkg0
  = Some (10%Q, 1000000)
  /\ Rapl.file_exists Sample.powercap0 (Rapl.energy_file Sample.pkg0) = true
  /\ Rapl.read_int Sample.powercap0 (Rapl.energy_file Sample.pkg0)
     = Some 5000000
  /\ fgt_int (fsub 100%Q 10%Q) 0 = true
  /\ Rapl.energy_delta 5000000 1000000 (Rapl.max_range Sample.pkg0) = 4000000
  /\ (Rapl.get_power_stats Sample.reader_cleanup_due Sample.powercap0
        100%Q).1 = [].
Proof. repeat split; vm_compute; reflexivity. Qed.

(** C1, as the code has it: a domain with a stored prior reading
    [(t0, e0)] whose register is read, and before which the reader has
    no domain of the same path.  Let [dt = now - t0] and
    [de = current - e0], plus [max_range] once when negative.  The
    prior reading is forgotten by the periodic cleanup of lines 93-101
    when the call finds the cleanup counter at 300 or beyond and
    [dt > 60].  If it is not forgotten, [dt > 0] and [de >= 0], the
    domain's round assigns [round((de / 1e6) / dt, 2)] under the
    domain's name, and that is the value the returned mapping holds
    for the name when no later domain shares it.  In every other case
    (forgotten, [dt <= 0] or [de < 0]) the round leaves the wattages
    alone, and the returned mapping has no entry for the name when no
    other domain shares it. *)
Theorem rapl_wattage_iff_valid {F : Type} `{PyFloat F}
    (r : Rapl.reader F) (fs : Rapl.sysfs) (now : F)
    (pre post : list Rapl.domain) (d : Rapl.domain) (t0 : F) (e0 v : Z) :
  Rapl.domains r = pre ++ d :: post ->
  Rapl.path d ∉ Rapl.path <$> pre ->
  Rapl.last_readings r !! Rapl.path d = Some (t0, e0) ->
  Rapl.file_exists fs (Rapl.energy_file d) = true ->
  Rapl.read_int fs (Rapl.energy_file d) = Some v ->
  Rapl.uj64 v -> Rapl.uj64 e0 -> Rapl.uj64 (Rapl.max_range d) ->
  let dt := fsub now t0 in
  let raw := v - e0 in
  let de := if raw <? 0 then raw + Rapl.max_range d else raw in
  let forgotten := (300 <? Rapl.cleanup_counter r + 1) && fgt_int dt 60 in
  let start := ([], Rapl.last_readings (Rapl.cleanup r now)) in
  let before := (Rapl.sample_loop fs now pre start).1 in
  let after := (Rapl.sample_loop fs now (pre ++ [d]) start).1 in
  let stats := (Rapl.get_power_stats r fs now).1 in
  (forgotten = false /\ fgt_int dt 0 = true /\ 0 <= de ->
     exists x, float_of_int de = Some x /\
       let watts := py_round (fdiv (fdiv x f1e6) dt) 2 in
       after = Dict.set (Rapl.name d) watts before
       /\ (Rapl.name d ∉ Rapl.name <$> post ->
           Dict.get (Rapl.name d) stats = Some watts))
  /\ (forgotten = true \/ fgt_int dt 0 = false \/ de < 0 ->
       after = before
       /\ (Rapl.name d ∉ Rapl.name <$> pre ++ post ->
           Dict.get (Rapl.name d) stats = None)).
Proof.
  intros Hdom Hnotin Hstored Hex Hread Hv He0 Hmax
    dt raw de forgotten start before after stats.
  set (st := Rapl.sample_loop fs now pre start).
  assert (Hafter : after = (default st (Rapl.sample_domain fs now d st)).1).
  { unfold after. by rewrite sample_loop_app. }
  assert (Hstats : stats = (Rapl.sample_loop fs now post
                              (default st (Rapl.sample_domain fs now d st))).1).
  { unfold stats. rewrite get_power_stats_loop. simpl. rewrite Hdom.
    by rewrite sample_loop_app. }
  assert (Hleft : after = before ->
            after = before
            /\ (Rapl.name d ∉ Rapl.name <$> pre ++ post ->
                Dict.get (Rapl.name d) stats = None)).
  { intros Hsame. split; [done|]. intros Hothers.
    rewrite fmap_app, not_elem_of_app in Hothers.
    destruct Hothers as [Hn1 Hn2].
    rewrite Hstats, sample_loop_stats_other by done.
    rewrite <- Hafter, Hsame. unfold before.
    by rewrite sample_loop_stats_other. }
  destruct forgotten eqn:Hforgotten.
  - (* the cleanup has deleted the prior reading *)
    assert (Hp : st.2 !! Rapl.path d = None).
    { unfold st. rewrite sample_loop_readings_other by done.
      by apply (cleanup_lookup_forgotten r now _ (t0, e0)). }
    split; [by intros [? _]|]. intros _. apply Hleft.
    rewrite Hafter. by apply sample_domain_no_prior.
  - assert (Hp : st.2 !! Rapl.path d = Some (t0, e0)).
    { unfold st. rewrite sample_loop_readings_other by done.
      by apply (cleanup_lookup_kept r now _ (t0, e0)). }
    destruct (sample_domain_emits fs now d st v t0 e0 Hex Hread Hp Hv He0 Hmax)
      as (x & Hx & Hstep).
    fold dt in Hstep.
    change (Rapl.energy_delta v e0 (Rapl.max_range d)) with de in *.
    split.
    + intros (_ & Hdt & Hde). exists x. split; [done|]. cbv zeta.
      assert (Hcond : fgt_int dt 0 && (0 <=? de) = true).
      { rewrite Hdt. simpl. by apply Z.leb_le. }
      rewrite Hcond in Hstep. split.
      * rewrite Hafter, Hstep. done.
      * intros Hpost. rewrite Hstats, sample_loop_stats_other by done.
        rewrite Hstep. apply dict_get_set_eq.
    + intros Hbad. apply Hleft.
      assert (Hcond : fgt_int dt 0 && (0 <=? de) = false).
      { destruct Hbad as [? | [-> | Hneg]]; [done|done|].
        apply andb_false_iff. right. by apply Z.leb_gt. }
      rewrite Hcond in Hstep. by rewrite Hafter, Hstep.
Qed.

(** C3: a domain whose register is read has its stored reading
    replaced by the current [(timestamp, value)] pair, whether a
    wattage was emitted or not, on the first reading as well as on a
    discarded one. *)
Theorem rapl_reading_always_stored {F : Type} `{PyFloat F}
    (r : Rapl.reader F) (fs : Rapl.sysfs) (now : F)
    (d : Rapl.domain) (v : Z) :
  d ∈ Rapl.domains r ->
  NoDup (Rapl.path <$> Rapl.domains r) ->
  Rapl.file_exists fs (Rapl.energy_file d) = true ->
  Rapl.read_int fs (Rapl.energy_file d) = Some v ->
  Rapl.uj64 v -> Rapl.uj64 (Rapl.max_range d) ->
  (forall t0 e0,
     Rapl.last_readings (Rapl.cleanup r now) !! Rapl.path d = Some (t0, e0) ->
     Rapl.uj64 e0) ->
  Rapl.last_readings (Rapl.get_power_stats r fs now).2 !! Rapl.path d
  = Some (now, v).
Proof.
  intros Hin Hnd Hex Hread Hv Hmax Hprior.
  apply list_elem_of_split in Hin as (pre & post & Hdom).
  rewrite get_power_stats_loop. simpl.
  rewrite Hdom in Hnd |- *. rewrite fmap_app, fmap_cons in Hnd.
  apply NoDup_app in Hnd as (_ & Hpre & Hnd).
  apply NoDup_cons in Hnd as [Hpost _].
  assert (Hnotin : Rapl.path d ∉ Rapl.path <$> pre).
  { intros Hin. apply (Hpre _ Hin). apply list_elem_of_here. }
  rewrite sample_loop_app, sample_loop_cons.
  rewrite sample_loop_readings_other by done.
  apply sample_domain_stores; try done.
  intros t0 e0. rewrite sample_loop_readings_other by done. apply Hprior.
Qed.

(** The wraparound example of the specification: prior 50, current 10,
    range 100 give a corrected delta of 60. *)
Example energy_delta_wraps : Rapl.energy_delta 10 50 100 = 60.
Proof. reflexivity. Qed.

Lemma sample_paths_NoDup : NoDup (Rapl.path <$> Rapl.domains Sample.reader0).
Proof.
  apply NoDup_cons. split; [|apply NoDup_singleton].
  rewrite list_elem_of_singleton. discriminate.
Defined.

Lemma uj64_intro (z : Z) : (0 <=? z) && (z <? 2 ^ 64) = true -> Rapl.uj64 z.
Proof. unfold Rapl.uj64. intros Hb. apply andb_true_iff in Hb as [? ?]. lia. Defined.

(** Two seconds after the prior reading the package register has
    advanced by 4 J: 2 W are reported.  On the call that runs the
    cleanup, 90 seconds after the prior reading, nothing is. *)
Lemma rapl_wattage_iff_valid_run :
  Dict.get "Package-0"%string
    (Rapl.get_power_stats Sample.reader0 Sample.powercap0 12%Q).1
  = Some 2%Q
  /\ Dict.get "Package-0"%string
       (Rapl.get_power_stats Sample.reader_cleanup_due Sample.powercap0
          100%Q).1
     = None.
Proof.
  assert (Hfirst : Rapl.path Sample.pkg0 ∉ Rapl.path <$> []).
  { apply not_elem_of_nil. }
  assert (Hnames : forall l : list Rapl.domain, l = [Sample.core0] ->
            Rapl.name Sample.pkg0 ∉ Rapl.name <$> l).
  { intros l ->. simpl. rewrite list_elem_of_singleton. discriminate. }
  split.
  - destruct (@rapl_wattage_iff_valid Q QFloat Sample.reader0 Sample.powercap0
                12%Q [] [Sample.core0] Sample.pkg0 10%Q 1000000 5000000
                eq_refl Hfirst)
      as [Hvalid _];
      [ vm_compute; reflexivity | reflexivity | reflexivity
      | apply uj64_intro; reflexivity | apply uj64_intro; reflexivity
      | apply uj64_intro; reflexivity | ].
    destruct Hvalid as (x & Hx & _ & Hget).
    { split; [reflexivity|]. split; [reflexivity | vm_compute; discriminate]. }
    vm_compute in Hx. injection Hx as <-.
    refine (eq_trans (Hget (Hnames _ eq_refl)) _). vm_compute. reflexivity.
  - destruct (@rapl_wattage_iff_valid Q QFloat Sample.reader_cleanup_due
                Sample.powercap0 100%Q [] [Sample.core0] Sample.pkg0
                10%Q 1000000 5000000 eq_refl Hfirst)
      as [_ Hnot];
      [ vm_compute; reflexivity | reflexivity | reflexivity
      | apply uj64_intro; reflexivity | apply uj64_intro; reflexivity
      | apply uj64_intro; reflexivity | ].
    destruct (Hnot (or_introl eq_refl)) as [_ Hget].
    apply Hget, (Hnames _ eq_refl).
Defined.

(** The first reading of [core] is stored although nothing is emitted
    for it. *)
Lemma rapl_reading_always_stored_run :
  Rapl.last_readings
    (Rapl.get_power_stats Sample.reader0 Sample.powercap0 12%Q).2
    !! Rapl.path Sample.core0
  = Some (12%Q, 77).
Proof.
  apply (rapl_reading_always_stored Sample.reader0 Sample.powercap0 12%Q
           Sample.core0 77).
  - right. left.
  - exact sample_paths_NoDup.
  - reflexivity.
  - reflexivity.
  - apply uj64_intro; reflexivity.
  - apply uj64_intro; reflexivity.
  - intros t0 e0 Hl. vm_compute in Hl. discriminate.
Defined.

(** ** Sorting *)

Section sort_facts.
Context {A : Type} (lt : A -> A -> bool).
Hypothesis lt_asym : forall a b, lt a b = true -> lt b a = false.
Hypothesis lt_cotrans :
  forall a b c, lt a c = true -> lt a b = true \/ lt b c = true.

Lemma sort_insert_perm x l : Sort.insert lt x l ≡ₚ x :: l.
Proof.
  induction l as [|y l IH]; simpl; [done|].
  destruct (lt y x); [|done].
  rewrite IH. apply Permutation_swap.
Qed.

Lemma sort_sorted_perm l : Sort.sorted lt l ≡ₚ l.
Proof.
  induction l as [|x l IH]; simpl; [done|].
  by rewrite sort_insert_perm, IH.
Qed.

Lemma sort_insert_sorted x l :
  StronglySorted (fun a b => lt b a = false) l ->
  StronglySorted (fun a b => lt b a = false) (Sort.insert lt x l).
Proof.
  induction 1 as [|y l Hs IH Hall]; simpl.
  - repeat constructor.
  - destruct (lt y x) eqn:Hyx.
    + constructor; [exact IH|].
      rewrite sort_insert_perm. constructor; [by apply lt_asym | exact Hall].
    + constructor; [by constructor|].
      constructor; [exact Hyx|].
      eapply Forall_impl; [exact Hall|]. simpl. intros z Hzy.
      destruct (lt z x) eqn:Hzx; [|done].
      destruct (lt_cotrans z y x Hzx); congruence.
Qed.

Lemma sort_sorted_sorted l :
  StronglySorted (fun a b => lt b a = false) (Sort.sorted lt l).
Proof.
  induction l as [|x l IH]; simpl; [constructor|].
  by apply sort_insert_sorted.
Qed.

(** Stability: elements that are pairwise not smaller than one another
    come out in the order they went in. *)
Lemma sort_insert_filter (P : A -> Prop) `{!forall a, Decision (P a)} x l :
  (forall a b, P a -> P b -> lt a b = false) ->
  filter P (Sort.insert lt x l)
  = if decide (P x) then x :: filter P l else filter P l.
Proof.
  intros Htied. induction l as [|y l IH]; simpl.
  - rewrite filter_cons, filter_nil. done.
  - destruct (lt y x) eqn:Hyx.
    + rewrite !filter_cons, IH.
      destruct (decide (P x)) as [Hx|Hx]; [|done].
      destruct (decide (P y)) as [Hy|Hy]; [|done].
      rewrite (Htied y x Hy Hx) in Hyx. discriminate.
    + by rewrite (filter_cons P x).
Qed.

Lemma sort_sorted_filter (P : A -> Prop) `{!forall a, Decision (P a)} l :
  (forall a b, P a -> P b -> lt a b = false) ->
  filter P (Sort.sorted lt l) = filter P l.
Proof.
  intros Htied. induction l as [|x l IH]; simpl; [done|].
  rewrite sort_insert_filter by done. rewrite filter_cons, IH. done.
Qed.
End sort_facts.

(** C7: on a refresh the flat list is the collected list reordered by
    descending memory percentage (no record stands before one with a
    larger percentage), and the records of any one percentage keep
    their input order.  The percentages are ordered floats (no NaN):
    [<] is asymmetric and splits through any third value. *)
Theorem process_table_sorted_desc_stable {F : Type} `{PyFloat F}
    (st : Cache.process_cache F) (now now' : F)
    (processes : list (Psutil.process F)) :
  (forall a b : F, flt a b = true -> flt b a = false) ->
  (forall a b c : F, flt a c = true -> flt a b = true \/ flt b c = true) ->
  fgt_int (fsub now (Cache.last_process_time st)) 5 = true ->
  let flat := (Cache.get_top_processes st now now' processes).1 in
  Cache.process_cache_list (Cache.get_top_processes st now now' processes).2
  = flat
  /\ flat ≡ₚ processes
  /\ StronglySorted
       (fun p q => flt (Psutil.memory_percent p) (Psutil.memory_percent q)
                   = false) flat
  /\ forall m : F,
       filter (fun p => flt m (Psutil.memory_percent p) = false
                        /\ flt (Psutil.memory_percent p) m = false) flat
       = filter (fun p => flt m (Psutil.memory_percent p) = false
                          /\ flt (Psutil.memory_percent p) m = false)
                processes.
Proof.
  intros Hasym Hco Hstale flat.
  unfold flat, Cache.get_top_processes. rewrite Hstale. simpl.
  unfold Sort.sort_by_key_desc.
  set (lt := fun a b : Psutil.process F =>
               flt (Psutil.memory_percent b) (Psutil.memory_percent a)).
  assert (Ha : forall a b, lt a b = true -> lt b a = false).
  { intros a b. unfold lt. apply Hasym. }
  assert (Hc : forall a b c, lt a c = true -> lt a b = true \/ lt b c = true).
  { intros a b c. unfold lt. intros Hac.
    destruct (Hco _ (Psutil.memory_percent b) _ Hac); auto. }
  split; [done|]. split; [apply sort_sorted_perm|].
  split; [exact (sort_sorted_sorted lt Ha Hc processes)|].
  intros m. apply sort_sorted_filter.
  intros a b [Ha1 Ha2] [Hb1 Hb2]. unfold lt.
  destruct (flt (Psutil.memory_percent b) (Psutil.memory_percent a)) eqn:Hba;
    [|done].
  destruct (Hco _ m _ Hba); congruence.
Qed.

Lemma q_lt_asym (a b : Q) : q_lt a b = true -> q_lt b a = false.
Proof.
  unfold q_lt. intros Hab. apply negb_true_iff in Hab.
  apply negb_false_iff, Qle_bool_iff.
  destruct (Qlt_le_dec a b) as [Hlt|Hle]; [by apply Qlt_le_weak|].
  apply Qle_bool_iff in Hle. congruence.
Qed.

Lemma q_lt_cotrans (a b c : Q) :
  q_lt a c = true -> q_lt a b = true \/ q_lt b c = true.
Proof.
  unfold q_lt. intros Hac. apply negb_true_iff in Hac.
  destruct (Qle_bool b a) eqn:Hba; [|by left].
  right. apply negb_true_iff.
  destruct (Qle_bool c b) eqn:Hcb; [|done].
  apply Qle_bool_iff in Hba, Hcb.
  assert (Hca : (c <= a)%Q) by (by eapply Qle_trans).
  apply Qle_bool_iff in Hca. congruence.
Qed.

(** At time 100 the sample processes are re-sorted: pid 2 first, then
    pids 1 and 3 in their input order. *)
Lemma process_table_sorted_desc_stable_run :
  let flat := (Cache.get_top_processes Sample.process_cache0 100%Q 100%Q
                 Sample.procs).1 in
  Psutil.pid <$> flat = [2; 1; 3]
  /\ flat ≡ₚ Sample.procs
  /\ filter (fun p => flt (3 # 2)%Q (Psutil.memory_percent p) = false
                      /\ flt (Psutil.memory_percent p) (3 # 2)%Q = false) flat
     = [Sample.proc 1 0 (3 # 2); Sample.proc 3 99 (3 # 2)].
Proof.
  destruct (@process_table_sorted_desc_stable Q QFloat
              Sample.process_cache0 100%Q 100%Q
              Sample.procs q_lt_asym q_lt_cotrans eq_refl)
    as (_ & Hperm & _ & Hstable).
  split; [vm_compute; reflexivity|]. split; [exact Hperm|].
  rewrite (Hstable (3 # 2)%Q). vm_compute. reflexivity.
Defined.

(** ** The aged caches *)




(** ** The process tree *)

Section tree_facts.
Context {F : Type}.
Import Psutil ProcessTree.
Implicit Types (ps : list (process F)) (m : gmap Z nat) (t : tree).

Lemma pid_map_snoc ps p :
  pid_map (ps ++ [p]) = <[pid p := length ps]> (pid_map ps).
Proof.
  unfold pid_map. rewrite imap_app, fold_left_app. simpl.
  by rewrite Nat.add_0_r.
Qed.

(** The map sends a pid to an object of that pid ... *)
Lemma pid_map_lookup_Some ps k j :
  pid_map ps !! k = Some j -> exists q, ps !! j = Some q /\ pid q = k.
Proof.
  induction ps as [|p ps IH] using rev_ind.
  - unfold pid_map. simpl. by rewrite lookup_empty.
  - rewrite pid_map_snoc. destruct (decide (pid p = k)) as [<-|Hne].
    + rewrite lookup_insert_eq. intros [= <-]. exists p. split; [|done].
      by rewrite lookup_app_r, Nat.sub_diag.
    + rewrite lookup_insert_ne by done. intros Hj.
      destruct (IH Hj) as (q & Hq & Hp). exists q. split; [|done].
      by apply lookup_app_l_Some.
Qed.

(** ... and knows exactly the pids of the list. *)
Lemma pid_map_lookup_None ps k :
  pid_map ps !! k = None <-> k ∉ pid <$> ps.
Proof.
  induction ps as [|p ps IH] using rev_ind.
  - unfold pid_map. simpl. rewrite lookup_empty, elem_of_nil. tauto.
  - rewrite pid_map_snoc, fmap_app, not_elem_of_app. simpl.
    rewrite list_elem_of_singleton.
    destruct (decide (pid p = k)) as [<-|Hne].
    + rewrite lookup_insert_eq. split; [done|]. intros [_ Hn]. by destruct Hn.
    + rewrite lookup_insert_ne by done. rewrite IH. split; [|tauto].
      intros Hn. split; [done|]. congruence.
Qed.

Lemma link_fold_roots m (l : list (nat * process F)) t :
  root_processes (fold_left (link m) l t)
  = root_processes t
    ++ (fst <$> filter (fun ip => m !! ppid_of ip.2 = None) l).
Proof.
  revert t. induction l as [|[i p] l IH]; intros t; simpl.
  - by rewrite app_nil_r.
  - rewrite IH, filter_cons. unfold link. cbn [snd fst].
    destruct (decide (m !! ppid_of p = None)) as [Hm|Hm].
    + rewrite Hm. cbn. by rewrite <- app_assoc.
    + destruct (m !! ppid_of p) as [parent|]; [done|]. by destruct Hm.
Qed.

Lemma link_fold_children m (l : list (nat * process F)) t j :
  children (fold_left (link m) l t) !! j
  = (fun c => c ++ (fst <$> filter (fun ip => m !! ppid_of ip.2 = Some j) l))
      <$> children t !! j.
Proof.
  revert t. induction l as [|[i p] l IH]; intros t; simpl.
  - destruct (children t !! j); simpl; [|done]. by rewrite app_nil_r.
  - rewrite IH, filter_cons. unfold link. cbn [snd fst].
    destruct (decide (m !! ppid_of p = Some j)) as [Hm|Hm].
    + rewrite Hm. cbn. rewrite list_lookup_alter_eq.
      destruct (children t !! j); cbn; [|done].
      by rewrite <- app_assoc.
    + destruct (m !! ppid_of p) as [parent|]; [|done]. cbn.
      rewrite list_lookup_alter_ne by congruence. done.
Qed.

(** Reading object names back as records. *)
Lemma imap_filter_records (P : process F -> Prop) `{!forall p, Decision (P p)}
    (pre l : list (process F)) :
  omap (fun i => (pre ++ l) !! i)
       (fst <$> filter (fun ip => P ip.2)
                       (imap (fun i p => (length pre + i, p)%nat) l))
  = filter P l.
Proof.
  revert pre. induction l as [|x l IH]; intros pre; [done|].
  rewrite imap_cons, !filter_cons. simpl.
  assert (Hrest :
    omap (fun i => (pre ++ x :: l) !! i)
         (fst <$> filter (fun ip => P ip.2)
            (imap ((fun i p => (length pre + i, p)%nat) ∘ S) l))
    = filter P l).
  { rewrite <- (IH (pre ++ [x])). rewrite <- app_assoc. simpl.
    f_equal. f_equal. f_equal. apply imap_ext. intros i y _. simpl.
    rewrite length_app. simpl. f_equal. lia. }
  destruct (decide (P x)); [|exact Hrest].
  rewrite <- Hrest, fmap_cons. simpl.
  by rewrite Nat.add_0_r, lookup_app_r, Nat.sub_diag by lia.
Qed.
End tree_facts.

(** C8: the roots are exactly the objects whose parent pid is no pid
    of the input (read as records: the input filtered by that test, in
    input order); every other object is in the ['children'] list of
    the object [pid_map] holds for its parent pid, a record whose pid
    is that parent pid; and on the specification's three-process input
    the roots are the first and the third record (pids 1 and 3) and the
    first record's children are the second (pid 2). *)
Theorem process_tree_roots_and_children {F : Type}
    (processes : list (Psutil.process F)) :
  let t := ProcessTree.build_process_tree processes in
  (forall i, i ∈ ProcessTree.root_processes t <->
     exists p, processes !! i = Some p
       /\ ProcessTree.ppid_of p ∉ Psutil.pid <$> processes)
  /\ omap (fun i => processes !! i) (ProcessTree.root_processes t)
     = filter (fun p => ProcessTree.ppid_of p ∉ Psutil.pid <$> processes)
              processes
  /\ (forall i p, processes !! i = Some p ->
        i ∉ ProcessTree.root_processes t ->
        exists j q c,
          ProcessTree.pid_map processes !! ProcessTree.ppid_of p = Some j
          /\ processes !! j = Some q
          /\ Psutil.pid q = ProcessTree.ppid_of p
          /\ ProcessTree.children t !! j = Some c
          /\ i ∈ c)
  /\ (forall p1 p2 p3,
        processes = [p1; p2; p3] ->
        Psutil.pid p1 = 1 -> Psutil.ppid p1 = Some 0 ->
        Psutil.pid p2 = 2 -> Psutil.ppid p2 = Some 1 ->
        Psutil.pid p3 = 3 -> Psutil.ppid p3 = Some 99 ->
        ProcessTree.root_processes t = [0; 2]%nat
        /\ ProcessTree.children t = [[1%nat]; []; []]).
Proof.
  intros t.
  assert (Hroots : ProcessTree.root_processes t
    = fst <$> filter (fun ip => ProcessTree.pid_map processes
                                  !! ProcessTree.ppid_of ip.2 = None)
                     (imap pair processes)).
  { unfold t, ProcessTree.build_process_tree. by rewrite link_fold_roots. }
  assert (Hiff : forall i, i ∈ ProcessTree.root_processes t <->
     exists p, processes !! i = Some p
       /\ ProcessTree.ppid_of p ∉ Psutil.pid <$> processes).
  { intros i. rewrite Hroots, list_elem_of_fmap. split.
    - intros ([i' p] & -> & Hin). apply list_elem_of_filter in Hin as [Hn Hin].
      apply elem_of_lookup_imap in Hin as (k & q & [= -> ->] & Hq).
      exists q. split; [done|]. by apply pid_map_lookup_None.
    - intros (p & Hp & Hn). exists (i, p). split; [done|].
      apply list_elem_of_filter. split; [by apply pid_map_lookup_None|].
      by apply (elem_of_lookup_imap_2 pair). }
  split; [exact Hiff|]. split; [|split].
  - rewrite Hroots.
    rewrite <- (imap_filter_records
      (fun p => ProcessTree.ppid_of p ∉ Psutil.pid <$> processes) [] processes).
    simpl. f_equal. f_equal. apply list_filter_iff.
    intros [i p]. simpl. apply pid_map_lookup_None.
  - intros i p Hp Hnot.
    destruct (ProcessTree.pid_map processes !! ProcessTree.ppid_of p)
      as [j|] eqn:Hm.
    + destruct (pid_map_lookup_Some _ _ _ Hm) as (q & Hq & Hpid).
      assert (Hj : (j < length processes)%nat) by (by eapply lookup_lt_Some).
      exists j, q.
      eexists. split; [done|]. split; [done|]. split; [done|].
      unfold t, ProcessTree.build_process_tree.
      rewrite link_fold_children. simpl.
      rewrite lookup_replicate_2 by done. simpl. split; [done|].
      apply list_elem_of_fmap. exists (i, p). split; [done|].
      apply list_elem_of_filter. split; [done|].
      by apply (elem_of_lookup_imap_2 pair).
    + exfalso. apply Hnot, Hiff. exists p. split; [done|].
      by apply pid_map_lookup_None.
  - intros [pid1 pp1 ? ? ? ?] [pid2 pp2 ? ? ? ?] [pid3 pp3 ? ? ? ?] Heq.
    simpl. intros -> -> -> -> -> ->. unfold t. rewrite Heq.
    vm_compute. done.
Qed.

(** The specification's three processes: roots pid 1 and pid 3, pid 2
    a child of pid 1. *)
Lemma process_tree_roots_and_children_run :
  let t := ProcessTree.build_process_tree Sample.procs in
  ProcessTree.pids_of Sample.procs (ProcessTree.root_processes t) = [1; 3]
  /\ ProcessTree.children t = [[1%nat]; []; []].
Proof.
  destruct (process_tree_roots_and_children Sample.procs)
    as (_ & _ & _ & Hex).
  destruct (Hex _ _ _ eq_refl eq_refl eq_refl eq_refl eq_refl eq_refl eq_refl)
    as [Hroots Hchildren].
  cbv zeta. rewrite Hroots, Hchildren. split; reflexivity.
Defined.

(** ** The size formatter *)

(** C9 at 1 EiB: every unit is tried, none fits, and the function
    falls off the end of its loop without a string. *)
Lemma get_size_none_at_exbibyte :
  Size.get_size (2 ^ 60) "B" = Size.NoneValue.
Proof. vm_compute. reflexivity. Qed.

(** Rounding to a double: ties go to the even significand. *)
Example rn53_tie_down : Size.rn53 (2 ^ 53 + 1) = 2 ^ 53.
Proof. vm_compute. reflexivity. Qed.

Example rn53_tie_up : Size.rn53 (2 ^ 53 + 3) = 2 ^ 53 + 4.
Proof. vm_compute. reflexivity. Qed.

Example rn53_carry : Size.rn53 (2 ^ 60 - 1) = 2 ^ 60.
Proof. vm_compute. reflexivity. Qed.

(** Below that the formatter answers as the specification says. *)
Example get_size_mebibytes : Size.get_size 1258291 "B" = Size.Str "1.20 MiB".
Proof. vm_compute. reflexivity. Qed.

Example get_size_bytes : Size.get_size 512 "B" = Size.Str "512.00 iB".
Proof. vm_compute. reflexivity. Qed.

Example get_size_largest : Size.get_size (2 ^ 60 - 65) "B" = Size.Str "1024.00 PiB".
Proof. vm_compute. reflexivity. Qed.

Section size_facts.
Import Size.

Lemma den_pow k : Z.pos (den k) = 1024 ^ Z.of_nat k.
Proof.
  induction k as [|k IH]; [done|].
  rewrite Nat2Z.inj_succ, Z.pow_succ_r by lia.
  simpl den. rewrite Pos2Z.inj_mul, IH. lia.
Qed.

Lemma rn53_exact n : 0 <= n < 2 ^ 53 -> rn53 n = n.
Proof.
  intros [Hn Hlt]. unfold rn53.
  destruct (Z.leb_spec (Z.log2 n + 1) 53) as [_|Hbits]; [done|].
  destruct (decide (n = 0)) as [->|Hne]; [done|].
  assert (Z.log2 n < 53) by (apply Z.log2_lt_pow2; lia). lia.
Qed.

(** The rendering depends on the number only, not on the fraction
    that stands for it. *)
Lemma hundredths_proper (a b : Q) : (a == b)%Q -> hundredths a = hundredths b.
Proof.
  intros Hab. unfold hundredths.
  assert (Hx : Qred (a * inject_Z 100) = Qred (b * inject_Z 100)).
  { apply Qred_complete. by rewrite Hab. }
  by rewrite Hx.
Qed.

Lemma Qle_bool_proper_r (c a b : Q) :
  (a == b)%Q -> Qle_bool c a = Qle_bool c b.
Proof.
  intros Hab. destruct (Qle_bool c a) eqn:Ha, (Qle_bool c b) eqn:Hb; try done.
  - apply Qle_bool_iff in Ha. rewrite Hab in Ha. apply Qle_bool_iff in Ha.
    congruence.
  - apply Qle_bool_iff in Hb. rewrite <- Hab in Hb. apply Qle_bool_iff in Hb.
    congruence.
Qed.

Lemma format_2f_float_proper (a b : Q) :
  (a == b)%Q -> format_2f_float a = format_2f_float b.
Proof.
  intros Hab. unfold format_2f_float.
  rewrite (hundredths_proper (Qabs a) (Qabs b)) by (by rewrite Hab).
  by rewrite (Qle_bool_proper_r 0 a b Hab).
Qed.

Lemma size_loop_proper us (a b : Q) suffix :
  (a == b)%Q ->
  size_loop us (PyFloatQ a) suffix = size_loop us (PyFloatQ b) suffix.
Proof.
  revert a b. induction us as [|u us IH]; intros a b Hab; [done|]. simpl.
  rewrite (Qle_bool_proper_r (inject_Z 1024) a b Hab).
  rewrite (format_2f_float_proper a b Hab).
  destruct (Qle_bool (inject_Z 1024) b); simpl; [|done].
  apply IH. rewrite !Qred_correct. by rewrite Hab.
Qed.

(** One round of the loop on the fraction [n / p]. *)
Lemma size_loop_fraction u us (n : Z) (p : positive) suffix :
  size_loop (u :: us) (PyFloatQ (n # p)) suffix
  = if n <? 1024 * Z.pos p
    then Str (format_2f_float (n # p) +:+ " " +:+ u +:+ "i" +:+ suffix)
    else size_loop us (PyFloatQ (n # (p * 1024))) suffix.
Proof.
  simpl.
  assert (Hcmp : Qle_bool (inject_Z 1024) (n # p) = negb (n <? 1024 * Z.pos p)).
  { destruct (Z.ltb_spec n (1024 * Z.pos p)) as [Hlt|Hge]; simpl.
    - destruct (Qle_bool _ _) eqn:Hq; [|done].
      apply Qle_bool_iff in Hq. unfold Qle in Hq. simpl in Hq. lia.
    - apply Qle_bool_iff. unfold Qle. simpl. lia. }
  rewrite Hcmp. destruct (n <? 1024 * Z.pos p); simpl; [done|].
  apply size_loop_proper. rewrite Qred_correct.
  unfold Qeq, Qdiv, Qmult, Qinv. simpl. lia.
Qed.

(** The loop stops at the unit under which the value is below 1024. *)
Lemma size_loop_scaled us (k : nat) (n : Z) suffix :
  Z.pos (den k) <= n < Z.pos (den (k + length us)) ->
  exists (j : nat) (u : string),
    us !! j = Some u
    /\ Z.pos (den (k + j)) <= n < Z.pos (den (S (k + j)))
    /\ size_loop us (PyFloatQ (n # den k)) suffix
       = Str (format_2f_float (n # den (k + j))
              +:+ " " +:+ u +:+ "i" +:+ suffix).
Proof.
  revert k. induction us as [|u us IH]; intros k [Hlo Hhi].
  - simpl in Hhi. rewrite Nat.add_0_r in Hhi. lia.
  - rewrite size_loop_fraction.
    destruct (Z.ltb_spec n (1024 * Z.pos (den k))) as [Hlt|Hge].
    + exists 0%nat, u. rewrite Nat.add_0_r. split; [done|]. split; [|done].
      simpl den. lia.
    + destruct (IH (S k)) as (j & u' & Hu & Hrange & Hloop).
      { simpl den. simpl length in Hhi.
        replace (k + S (length us))%nat with (S (k + length us)) in Hhi by lia.
        simpl den in Hhi. lia. }
      exists (S j), u'. split; [done|].
      replace (k + S j)%nat with (S k + j)%nat by lia.
      split; [exact Hrange|]. exact Hloop.
Qed.
End size_facts.

(** C9, where it holds: a count below [2^53] (8 PiB, the integers a
    double holds exactly) is rendered as the value divided by
    [1024^k], to two decimals, a space and the [k]-th unit followed by
    ["i"] and the suffix, where [k] is 0 below 1024 bytes and otherwise
    the power for which the scaled value lies in [1, 1024). *)
Theorem get_size_below_two_pow_53 (n : Z) (suffix : string) :
  0 <= n < 2 ^ 53 ->
  exists (k : nat) (u : string),
    Size.units !! k = Some u
    /\ (n < 1024 -> k = 0%nat)
    /\ (1024 <= n -> 1024 ^ Z.of_nat k <= n < 1024 ^ Z.of_nat (S k))
    /\ Size.get_size n suffix
       = Size.Str (Size.format_2f_float (n # Size.den k)
                   +:+ " " +:+ u +:+ "i" +:+ suffix)
    /\ Z.pos (Size.den k) = 1024 ^ Z.of_nat k.
Proof.
  intros [Hn Hlt]. unfold Size.get_size, Size.units.
  assert (H53 : 2 ^ 53 < 2 ^ 1024) by (apply Z.pow_lt_mono_r; lia).
  assert (H53' : 2 ^ 53 < 2 ^ 1034) by (apply Z.pow_lt_mono_r; lia).
  assert (Habs : Z.abs n = n) by lia.
  assert (Hsgn : Z.sgn n * n = n) by nia.
  simpl Size.size_loop. unfold Size.to_float.
  rewrite Habs, rn53_exact by lia. rewrite Hsgn.
  destruct (Z.ltb_spec n 1024) as [Hsmall|Hbig].
  - exists 0%nat, ""%string.
    destruct (Z.ltb_spec n (2 ^ 1024)) as [_|?]; [|lia]. simpl.
    repeat split; try done; lia.
  - destruct (Z.ltb_spec n (2 ^ 1034)) as [_|?]; [|lia].
    fold (Size.size_loop ["K"; "M"; "G"; "T"; "P"]%string
            (Size.PyFloatQ (Qred (inject_Z n / inject_Z 1024))) suffix).
    rewrite (size_loop_proper _ _ (n # Size.den 1)).
    2:{ rewrite Qred_correct. unfold Qeq, Qdiv, Qmult, Qinv. simpl. lia. }
    destruct (size_loop_scaled ["K"; "M"; "G"; "T"; "P"]%string 1 n suffix)
      as (j & u & Hu & Hrange & Hloop).
    { split; [simpl; lia|].
      assert (Hd : Z.pos (Size.den 6) = 2 ^ 60) by (vm_compute; reflexivity).
      simpl length. replace (1 + 5)%nat with 6%nat by done. rewrite Hd.
      assert (2 ^ 53 < 2 ^ 60) by (apply Z.pow_lt_mono_r; lia). lia. }
    exists (S j), u. split; [done|]. split; [lia|].
    rewrite <- !den_pow. split; [intros _; exact Hrange|].
    split; [exact Hloop | done].
Qed.

(** 1258291 bytes are below [2^53] and come out as a string. *)
Lemma get_size_below_two_pow_53_run :
  exists (k : nat) (u : string),
    Size.units !! k = Some u
    /\ Size.get_size 1258291 "B"
       = Size.Str (Size.format_2f_float (1258291 # Size.den k)
                   +:+ " " +:+ u +:+ "iB").
Proof.
  destruct (get_size_below_two_pow_53 1258291 "B")
    as (k & u & Hu & _ & _ & Hsize & _).
  { split; [lia | reflexivity]. }
  exists k, u. split; [exact Hu | exact Hsize].
Defined.

(** ** Listening ports *)

Section ports_facts.
Import Psutil Ports.
Implicit Types (lp : list (Z * list (string * option string))) (c : conn).

Lemma record_conn_keys pn lp c p :
  p ∈ Dict.keys (record_conn pn lp c) <->
  p ∈ Dict.keys lp
  \/ (status c = "LISTEN"%string /\ exists a, laddr c = Some (a, p)).
Proof.
  unfold record_conn.
  destruct (String.eqb_spec (status c) "LISTEN") as [Hs|Hs].
  - destruct (laddr c) as [[a q]|].
    + rewrite dict_keys_set. split.
      * intros [->|Hin]; [right; eauto | by left].
      * intros [Hin|(_ & a' & [= _ ->])]; [by right | by left].
    + split; [by left|]. intros [Hin|(_ & a & Ha)]; [done | discriminate].
  - split; [by left|]. intros [Hin|(Hs' & _)]; [done | contradiction].
Qed.

Lemma record_conn_NoDup pn lp c :
  NoDup (Dict.keys lp) -> NoDup (Dict.keys (record_conn pn lp c)).
Proof.
  intros Hnd. unfold record_conn.
  destruct (String.eqb (status c) "LISTEN"); [|done].
  destruct (laddr c) as [[a q]|]; [|done].
  by apply dict_keys_set_NoDup.
Qed.

Lemma listening_fold_keys pn conns lp p :
  p ∈ Dict.keys (fold_left (record_conn pn) conns lp) <->
  p ∈ Dict.keys lp \/ listens_on conns p.
Proof.
  revert lp. induction conns as [|c conns IH]; intros lp; simpl.
  - split; [by left|]. intros [Hin|(c & a & Hc & _)]; [done|].
    by apply elem_of_nil in Hc.
  - rewrite IH, record_conn_keys. unfold listens_on. split.
    + intros [[Hin|(Hs & a & Ha)]|(c' & a & Hc & Hs & Ha)].
      * by left.
      * right. exists c, a. split; [apply list_elem_of_here | done].
      * right. exists c', a. split; [by apply list_elem_of_further | done].
    + intros [Hin|(c' & a & Hc & Hs & Ha)]; [by left; left|].
      apply elem_of_cons in Hc as [->|Hc].
      * left. right. eauto.
      * right. exists c', a. done.
Qed.

Lemma listening_fold_NoDup pn conns lp :
  NoDup (Dict.keys lp) ->
  NoDup (Dict.keys (fold_left (record_conn pn) conns lp)).
Proof.
  revert lp. induction conns as [|c conns IH]; intros lp Hnd; simpl; [done|].
  by apply IH, record_conn_NoDup.
Qed.

Lemma ltb_asym (a b : Z) : (a <? b) = true -> (b <? a) = false.
Proof. intros Hab. apply Z.ltb_lt in Hab. apply Z.ltb_ge. lia. Qed.

Lemma ltb_cotrans (a b c : Z) :
  (a <? c) = true -> (a <? b) = true \/ (b <? c) = true.
Proof.
  intros Hac. apply Z.ltb_lt in Hac.
  destruct (Z.ltb_spec a b); [by left|]. right. apply Z.ltb_lt. lia.
Qed.

(** Distinct integers come out of [sorted] strictly ascending. *)
Lemma sorted_keys_strict (l : list Z) :
  NoDup l -> StronglySorted Z.lt (Sort.sorted Z.ltb l).
Proof.
  intros Hnd.
  assert (Hnd' : NoDup (Sort.sorted Z.ltb l)).
  { by rewrite (sort_sorted_perm Z.ltb l). }
  pose proof (sort_sorted_sorted Z.ltb ltb_asym ltb_cotrans l) as Hs.
  induction Hs as [|x s Hs IH Hall]; [constructor|].
  apply NoDup_cons in Hnd' as [Hx Hnd'].
  constructor; [by apply IH|].
  apply Forall_forall. intros y Hy.
  rewrite Forall_forall in Hall. specialize (Hall y Hy). simpl in Hall.
  apply Z.ltb_ge in Hall.
  assert (x <> y) by (intros ->; done). lia.
Qed.

(** Every listed port is found in the table, so none is dropped. *)
Lemma ports_of_entries lp (ports : list Z) :
  (forall p, p ∈ ports -> p ∈ Dict.keys lp) ->
  port <$> omap (fun p => port_info ← Dict.get p lp;
                          Some {| port := p; protocol := describe port_info |})
                ports
  = ports.
Proof.
  induction ports as [|p ports IH]; intros Hin; [done|]. simpl.
  destruct (dict_keys_get p lp) as [info Hinfo];
    [apply Hin, list_elem_of_here|].
  rewrite Hinfo. simpl. f_equal. apply IH.
  intros q Hq. by apply Hin, list_elem_of_further.
Qed.
End ports_facts.

(** C10: at most 20 entries, strictly ascending in the port number (so
    one per port), every reported port a listening one, any listening
    port left out larger than all twenty reported ones, and the empty
    list when [psutil.net_connections()] raises. *)
Theorem listening_ports_sorted_capped (net : option (list Psutil.conn))
    (process_name : option Z -> option string) :
  let result := Ports.get_listening_ports net process_name in
  let ports := Ports.port <$> result in
  (length result <= 20)%nat
  /\ StronglySorted Z.lt ports
  /\ (forall conns, net = Some conns ->
        (forall p, p ∈ ports -> Ports.listens_on conns p)
        /\ (forall p, Ports.listens_on conns p -> p ∉ ports ->
              length result = 20%nat /\ forall q, q ∈ ports -> q < p))
  /\ (net = None -> result = []).
Proof.
  intros result ports. destruct net as [conns|].
  2:{ repeat split; try done; try constructor. simpl. lia. }
  set (lp := Ports.listening_table process_name conns).
  set (all := Sort.sorted Z.ltb (Dict.keys lp)).
  assert (Hkeys : forall p, p ∈ Dict.keys lp <-> Ports.listens_on conns p).
  { intros p. unfold lp, Ports.listening_table.
    rewrite listening_fold_keys. simpl. rewrite elem_of_nil. tauto. }
  assert (Hnd : NoDup (Dict.keys lp)).
  { apply listening_fold_NoDup. constructor. }
  assert (Hall : forall p, p ∈ all <-> Ports.listens_on conns p).
  { intros p. unfold all. by rewrite (sort_sorted_perm Z.ltb (Dict.keys lp)). }
  assert (Hsorted : StronglySorted Z.lt all) by (by apply sorted_keys_strict).
  assert (Hports : ports = take 20 all).
  { unfold ports, result, Ports.get_listening_ports. fold lp. fold all.
    apply ports_of_entries. intros p Hp.
    apply Hkeys, Hall. apply elem_of_take in Hp as (i & Hi & _).
    by eapply list_elem_of_lookup_2. }
  assert (Hlen : length result = length (take 20 all)).
  { rewrite <- Hports. unfold ports. by rewrite length_fmap. }
  rewrite <- (take_drop 20 all) in Hsorted.
  split; [|split; [|split]].
  - rewrite Hlen, length_take. lia.
  - rewrite Hports. by eapply StronglySorted_app_1_l.
  - intros ? [= <-]. split.
    + intros p Hp. rewrite Hports in Hp. apply Hall.
      apply elem_of_take in Hp as (i & Hi & _).
      by eapply list_elem_of_lookup_2.
    + intros p Hp Hnot. rewrite Hports in Hnot |- *.
      apply Hall in Hp. rewrite <- (take_drop 20 all) in Hp.
      apply elem_of_app in Hp as [Hp|Hp]; [done|].
      split.
      * rewrite Hlen, length_take.
        destruct (decide (length all <= 20)%nat) as [Hle|Hgt]; [|lia].
        rewrite drop_ge in Hp by done. by apply elem_of_nil in Hp.
      * intros q Hq. by eapply (StronglySorted_app_1_elem_of Z.lt).
  - done.
Qed.

(** Ports 22 and 80 listen on the sample host. *)
Lemma listening_ports_sorted_capped_run :
  Ports.get_listening_ports (Some Sample.conns) Sample.process_name0
  = [ {| Ports.port := 22; Ports.protocol := "TCP:sshd" |};
      {| Ports.port := 80; Ports.protocol := "TCP:nginx" |} ]
  /\ Ports.get_listening_ports None Sample.process_name0 = []
  /\ Ports.listens_on Sample.conns 22.
Proof.
  destruct (listening_ports_sorted_capped (Some Sample.conns)
              Sample.process_name0) as (_ & _ & Hsome & _).
  destruct (listening_ports_sorted_capped None Sample.process_name0)
    as (_ & _ & _ & Hnone).
  split; [vm_compute; reflexivity|]. split; [exact (Hnone eq_refl)|].
  apply (proj1 (Hsome Sample.conns eq_refl)).
  vm_compute. apply list_elem_of_here.
Defined.

(** ** One tick of [collect_stats] *)

Section collect_facts.
Context {F : Type} `{PyFloat F}.
Import Collect.

Lemma record_temperatures_run (tk : tick F) (st : state F) :
  record_temperatures tk st
  = (Some tt,
     match temp_sample_of tk with
     | Some s =>
         set_cpu_temp_history
           (Deque.append Deque.maxlen (cpu_temp_history st) s) st
     | None => st
     end).
Proof. unfold record_temperatures. by destruct (temp_sample_of tk). Qed.

Lemma rapl_get_power_stats_run (tk : tick F) (st : state F) :
  rapl_get_power_stats tk st
  = let r := Rapl.get_power_stats (rapl_reader st) (powercap tk) (t_rapl tk) in
    (Some r.1, set_rapl_reader r.2 st).
Proof.
  unfold rapl_get_power_stats. by destruct (Rapl.get_power_stats _ _ _).
Qed.

Lemma get_connection_states_run (tk : tick F) (st : state F) :
  get_connection_states tk st
  = let r := Cache.get_connection_states (states_cache st) (t_states tk)
               (t_states' tk) (tcp_connections tk) in
    (Some r.1, set_states_cache r.2 st).
Proof.
  unfold get_connection_states.
  by destruct (Cache.get_connection_states _ _ _ _).
Qed.

Lemma get_ssh_stats_run (tk : tick F) (st : state F) :
  get_ssh_stats tk st
  = let r := Cache.get_ssh_stats (ssh_cache st) (t_ssh tk) (t_ssh' tk)
               (ssh_connections tk) (ssh_identify tk) (ssh_details tk) in
    (Some r.1, set_ssh_cache r.2 st).
Proof.
  unfold get_ssh_stats. by destruct (Cache.get_ssh_stats _ _ _ _ _ _).
Qed.

Lemma get_top_processes_run (tk : tick F) (st : state F) :
  get_top_processes tk st
  = let r := Cache.get_top_processes (process_cache st) (t_process tk)
               (t_process' tk) (processes tk) in
    (Some r.1, set_process_cache r.2 st).
Proof.
  unfold get_top_processes. by destruct (Cache.get_top_processes _ _ _ _).
Qed.

(** Refreshing the partitions leaves the histories and the reader
    alone. *)
Lemma refresh_partitions_frame (tk : tick F) (st : state F) :
  let st' := (refresh_partitions tk st).2 in
  cpu_temp_history st' = cpu_temp_history st
  /\ memory_history st' = memory_history st.
Proof.
  unfold refresh_partitions, mbind, stmt_bind, global, call, assign, mret,
    stmt_ret.
  destruct (fgt_int _ 60 || _); [|done].
  by destruct (disk_partitions tk).
Qed.

(** The histories after a call, and those of the snapshot. *)
Lemma histories_collect (st : state F) (tk : tick F) :
  let st' := (collect_stats tk st).2 in
  cpu_temp_history st'
  = match cpu_percent_total tk, cpu_percent_percpu tk,
          cpu_times_percent tk, temp_sample_of tk with
    | Some _, Some _, Some _, Some s =>
        Deque.append Deque.maxlen (cpu_temp_history st) s
    | _, _, _, _ => cpu_temp_history st
    end
  /\ memory_history st'
     = match cpu_percent_total tk, cpu_percent_percpu tk,
             cpu_times_percent tk, virtual_memory tk with
       | Some _, Some _, Some _, Some vm =>
           match memory_stats_of vm with
           | Some _ =>
               Deque.append Deque.maxlen (memory_history st)
                 (memory_sample_of tk vm)
           | None => memory_history st
           end
       | _, _, _, _ => memory_history st
       end
  /\ forall snap, (collect_stats tk st).1 = Some snap ->
       snap_temp_history snap = cpu_temp_history st'
       /\ snap_memory_history snap = memory_history st'.
Proof.
  unfold collect_stats, mbind, stmt_bind, call, global, assign, mret, stmt_ret.
  destruct (cpu_percent_total tk) as [c|]; [|done].
  destruct (cpu_percent_percpu tk) as [p|]; [|done].
  destruct (cpu_times_percent tk) as [t|]; [|done].
  rewrite record_temperatures_run, rapl_get_power_stats_run. cbv beta iota zeta.
  set (st1 := match temp_sample_of tk with Some s => _ | None => st end).
  assert (Ht1 : cpu_temp_history st1
                = match temp_sample_of tk with
                  | Some s => Deque.append Deque.maxlen (cpu_temp_history st) s
                  | None => cpu_temp_history st
                  end
                /\ memory_history st1 = memory_history st).
  { unfold st1. by destruct (temp_sample_of tk). }
  destruct Ht1 as [Ht1 Hm1]. rewrite <- Ht1, <- Hm1. clearbody st1.
  set (r := Rapl.get_power_stats _ _ _). clearbody r.
  destruct (virtual_memory tk) as [vm|]; [|done].
  destruct (memory_stats_of vm) as [ms|]; [|done].
  set (st2 := set_memory_history _ _).
  destruct (refresh_partitions_frame tk st2) as [Ht3 Hm3].
  destruct (refresh_partitions tk st2) as [[ps|] st3]; simpl in Ht3, Hm3;
    [|by simpl].
  destruct (net_io_counters tk) as [io|]; [|by simpl].
  rewrite get_connection_states_run. cbv beta iota zeta.
  set (cs := Cache.get_connection_states _ _ _ _). clearbody cs.
  destruct (network_stats_of tk io cs.1) as [ns|]; [|by simpl].
  destruct (boot_localtime tk) as [bt|]; [|by simpl].
  destruct (get_cpu_info tk) as [info|]; [|by simpl].
  rewrite get_ssh_stats_run. cbv beta iota zeta. rewrite get_top_processes_run. cbv beta iota zeta.
  simpl. split; [done|]. split; [done|].
  intros snap Hsnap. by injection Hsnap as <-.
Qed.


(** A call that returns a snapshot has got past every statement that
    can raise before the append to the memory history. *)
Lemma collect_stats_returned (st : state F) (tk : tick F) (snap : snapshot F) :
  (collect_stats tk st).1 = Some snap ->
  is_Some (cpu_percent_total tk) /\ is_Some (cpu_percent_percpu tk)
  /\ is_Some (cpu_times_percent tk)
  /\ exists vm, virtual_memory tk = Some vm /\ is_Some (memory_stats_of vm).
Proof.
  unfold collect_stats, mbind, stmt_bind, call, global, assign, mret, stmt_ret.
  destruct (cpu_percent_total tk) as [c|]; [|done].
  destruct (cpu_percent_percpu tk) as [p|]; [|done].
  destruct (cpu_times_percent tk) as [t|]; [|done].
  rewrite record_temperatures_run, rapl_get_power_stats_run.
  cbv beta iota zeta.
  destruct (virtual_memory tk) as [vm|]; [|done].
  destruct (memory_stats_of vm) as [ms|] eqn:Hms; [|done].
  intros _. split; [by eexists|]. split; [by eexists|].
  split; [by eexists|]. exists vm. split; [done|]. rewrite Hms. by eexists.
Qed.

(** The [power] section of a snapshot. *)
Lemma snap_power_collect (st : state F) (tk : tick F) (snap : snapshot F) :
  (collect_stats tk st).1 = Some snap ->
  snap_power snap
  = collect_power (sensors_battery tk)
      (Rapl.get_power_stats (rapl_reader st) (powercap tk) (t_rapl tk)).1
      (power_supply tk).
Proof.
  unfold collect_stats, mbind, stmt_bind, call, global, assign, mret, stmt_ret.
  destruct (cpu_percent_total tk) as [c|]; [|done].
  destruct (cpu_percent_percpu tk) as [p|]; [|done].
  destruct (cpu_times_percent tk) as [t|]; [|done].
  rewrite record_temperatures_run, rapl_get_power_stats_run.
  cbv beta iota zeta.
  set (st1 := match temp_sample_of tk with Some s => _ | None => st end).
  assert (Hr : rapl_reader st1 = rapl_reader st).
  { unfold st1. by destruct (temp_sample_of tk). }
  rewrite Hr. clearbody st1.
  set (r := Rapl.get_power_stats _ _ _). clearbody r.
  destruct (virtual_memory tk) as [vm|]; [|done].
  destruct (memory_stats_of vm) as [ms|]; [|done].
  destruct (refresh_partitions tk _) as [[ps|] st3]; [|done].
  destruct (net_io_counters tk) as [io|]; [|done].
  rewrite get_connection_states_run. cbv beta iota zeta.
  destruct (network_stats_of tk io _) as [ns|]; [|done].
  destruct (boot_localtime tk) as [bt|]; [|done].
  destruct (get_cpu_info tk) as [info|]; [|done].
  rewrite get_ssh_stats_run. cbv beta iota zeta.
  rewrite get_top_processes_run. cbv beta iota zeta.
  simpl. intros Hsnap. by injection Hsnap as <-.
Qed.

(** The power supply directory enters a call through [collect_power]
    alone. *)
Lemma collect_stats_power_supply (st : state F) (tk : tick F) supplies :
  let rapl_stats :=
    (Rapl.get_power_stats (rapl_reader st) (powercap tk) (t_rapl tk)).1 in
  collect_power (sensors_battery tk) rapl_stats supplies
  = collect_power (sensors_battery tk) rapl_stats (power_supply tk) ->
  collect_stats (with_power_supply tk supplies) st = collect_stats tk st.
Proof.
  intros rapl_stats Hpower.
  unfold collect_stats, mbind, stmt_bind, call, global, assign, mret, stmt_ret.
  change (cpu_percent_total (with_power_supply tk supplies))
    with (cpu_percent_total tk).
  change (cpu_percent_percpu (with_power_supply tk supplies))
    with (cpu_percent_percpu tk).
  change (cpu_times_percent (with_power_supply tk supplies))
    with (cpu_times_percent tk).
  change (record_temperatures (with_power_supply tk supplies))
    with (record_temperatures tk).
  change (rapl_get_power_stats (with_power_supply tk supplies))
    with (rapl_get_power_stats tk).
  change (sensors_battery (with_power_supply tk supplies))
    with (sensors_battery tk).
  change (power_supply (with_power_supply tk supplies)) with supplies.
  change (virtual_memory (with_power_supply tk supplies))
    with (virtual_memory tk).
  change (memory_sample_of (with_power_supply tk supplies))
    with (memory_sample_of tk).
  change (refresh_partitions (with_power_supply tk supplies))
    with (refresh_partitions tk).
  change (net_io_counters (with_power_supply tk supplies))
    with (net_io_counters tk).
  change (get_connection_states (with_power_supply tk supplies))
    with (get_connection_states tk).
  change (network_stats_of (with_power_supply tk supplies))
    with (network_stats_of tk).
  change (boot_localtime (with_power_supply tk supplies))
    with (boot_localtime tk).
  change (get_cpu_info (with_power_supply tk supplies))
    with (get_cpu_info tk).
  change (get_ssh_stats (with_power_supply tk supplies))
    with (get_ssh_stats tk).
  change (get_top_processes (with_power_supply tk supplies))
    with (get_top_processes tk).
  destruct (cpu_percent_total tk) as [c|]; [|done].
  destruct (cpu_percent_percpu tk) as [p|]; [|done].
  destruct (cpu_times_percent tk) as [t|]; [|done].
  rewrite record_temperatures_run, rapl_get_power_stats_run.
  cbv beta iota zeta.
  set (st1 := match temp_sample_of tk with Some s => _ | None => st end).
  assert (Hr : rapl_reader st1 = rapl_reader st).
  { unfold st1. by destruct (temp_sample_of tk). }
  rewrite Hr. fold rapl_stats. by rewrite Hpower.
Qed.

(** A positive package total fixes the whole [power] section, whatever
    the power-supply directory shows. *)
Lemma collect_power_package bat (rapl_stats : list (string * F)) supplies :
  let total :=
    py_sum (snd <$> filter (fun kv => Text.contains "Package" kv.1 = true)
                           rapl_stats) in
  fgt_int total 0 = true ->
  collect_power bat rapl_stats supplies
  = {| ps_battery := bat; ps_rapl := Some rapl_stats;
       consumption_watts := Some total |}.
Proof.
  intros total Hpos. unfold collect_power.
  destruct rapl_stats as [|kv rest].
  - unfold total in Hpos. simpl in Hpos.
    rewrite sum_nil_not_positive in Hpos. discriminate.
  - fold total. by rewrite Hpos.
Qed.

Lemma collect_power_fallback bat (rapl_stats : list (string * F)) supplies :
  let total :=
    py_sum (snd <$> filter (fun kv => Text.contains "Package" kv.1 = true)
                           rapl_stats) in
  fgt_int total 0 = false ->
  consumption_watts (collect_power bat rapl_stats supplies)
  = if fgt_int (sysfs_power supplies) 0
    then Some (py_round (sysfs_power supplies) 4) else None.
Proof.
  intros total Hnot. unfold collect_power.
  destruct rapl_stats as [|kv rest]; simpl.
  - by destruct (fgt_int (sysfs_power supplies) 0).
  - fold total. rewrite Hnot. simpl.
    by destruct (fgt_int (sysfs_power supplies) 0).
Qed.
End collect_facts.

(** ** The [in] test *)

Lemma prefix_spec (needle hay : string) :
  String.prefix needle hay = true <-> exists post, hay = needle +:+ post.
Proof.
  revert hay. induction needle as [|c needle IH]; intros hay.
  - split; [intros _; by exists hay | intros _; by destruct hay].
  - destruct hay as [|c' hay]; simpl.
    + split; [done | intros [post Hpost]; discriminate].
    + destruct (Ascii.ascii_dec c c') as [->|Hne].
      * rewrite IH. split; intros [post Hpost]; exists post.
        -- by rewrite Hpost.
        -- by injection Hpost.
      * split; [done|]. intros [post Hpost]. by injection Hpost.
Qed.

(** [Text.contains needle hay] holds exactly when [needle] is a
    substring of [hay]. *)
Lemma contains_spec (needle hay : string) :
  Text.contains needle hay = true
  <-> exists pre post, hay = pre +:+ needle +:+ post.
Proof.
  induction hay as [|c hay IH].
  - cbn [Text.contains]. rewrite orb_false_r, prefix_spec. split.
    + intros [post Hpost]. by exists EmptyString, post.
    + intros (pre & post & Hpost). destruct pre as [|c pre]; [|done].
      by exists post.
  - cbn [Text.contains]. rewrite orb_true_iff, prefix_spec, IH. split.
    + intros [[post Hpost] | (pre & post & Hpost)].
      * by exists EmptyString, post.
      * exists (String c pre), post. simpl. by rewrite Hpost.
    + intros (pre & post & Hpost). destruct pre as [|c' pre].
      * left. by exists post.
      * right. exists pre, post. simpl in Hpost. by injection Hpost.
Qed.

(** C2: in the snapshot of a call, with [total] the sum of the RAPL
    wattages reported under a name that contains "Package": when
    [total > 0], [consumption_watts] is [total] and the call, snapshot
    and globals alike, is the same whatever [/sys/class/power_supply]
    holds; otherwise [consumption_watts] is what the fallback
    computes: the total of the power supplies rounded to 4 places when
    that is positive, no entry otherwise. *)
Theorem rapl_package_total_wins {F : Type} `{PyFloat F}
    (st : Collect.state F) (tk : Collect.tick F) (snap : Collect.snapshot F) :
  (Collect.collect_stats tk st).1 = Some snap ->
  let rapl_stats :=
    (Rapl.get_power_stats (Collect.rapl_reader st) (Collect.powercap tk)
       (Collect.t_rapl tk)).1 in
  let total :=
    py_sum (snd <$> filter (fun kv => Text.contains "Package" kv.1 = true)
                           rapl_stats) in
  let fallback := Collect.sysfs_power (Collect.power_supply tk) in
  (fgt_int total 0 = true ->
     Collect.consumption_watts (Collect.snap_power snap) = Some total
     /\ Collect.ps_rapl (Collect.snap_power snap) = Some rapl_stats
     /\ forall supplies,
          Collect.collect_stats (Collect.with_power_supply tk supplies) st
          = Collect.collect_stats tk st)
  /\ (fgt_int total 0 = false ->
        Collect.consumption_watts (Collect.snap_power snap)
        = if fgt_int fallback 0 then Some (py_round fallback 4) else None).
Proof.
  intros Hsnap rapl_stats total fallback.
  rewrite (snap_power_collect st tk snap Hsnap). fold rapl_stats. split.
  - intros Hpos.
    rewrite (collect_power_package _ rapl_stats _ Hpos).
    split; [done|]. split; [done|].
    intros supplies. apply collect_stats_power_supply. fold rapl_stats.
    by rewrite !(collect_power_package _ rapl_stats _ Hpos).
  - intros Hnot. by apply collect_power_fallback.
Qed.

(** On the sample host RAPL reports 2 W for [Package-0] and 1 W for
    [core]: the consumption is the 2 W of the package alone, and the
    7.5 W of the power supply are not used. *)
Lemma rapl_package_total_wins_run :
  match (Collect.collect_stats Sample.tick_both Sample.state_both).1 with
  | Some snap =>
      Collect.ps_rapl (Collect.snap_power snap)
      = Some [("Package-0"%string, 2%Q); ("core"%string, 1%Q)]
      /\ Collect.consumption_watts (Collect.snap_power snap) = Some 2%Q
      /\ Collect.sysfs_power (Collect.power_supply Sample.tick_both)
         = (15 # 2)%Q
      /\ Collect.collect_stats
           (Collect.with_power_supply Sample.tick_both None) Sample.state_both
         = Collect.collect_stats Sample.tick_both Sample.state_both
  | None => False
  end.
Proof.
  destruct (Collect.collect_stats Sample.tick_both Sample.state_both).1
    as [snap|] eqn:Hsnap; [|vm_compute in Hsnap; discriminate].
  destruct (@rapl_package_total_wins Q QFloat Sample.state_both
              Sample.tick_both snap Hsnap) as [Hpos _].
  destruct (Hpos eq_refl) as (Hwatts & Hrapl & Hskip).
  split; [|split; [|split]].
  - refine (eq_trans Hrapl _). vm_compute. reflexivity.
  - refine (eq_trans Hwatts _). vm_compute. reflexivity.
  - vm_compute. reflexivity.
  - apply Hskip.
Defined.

(** Two calls that do not append to both histories.  On the host
    without temperature sensors the call returns its snapshot and the
    memory history receives its sample, the temperature history
    none.  On the host with a core temperature sensor where
    [psutil.virtual_memory] raises there is no snapshot, and the
    temperature history has received its sample, the memory history
    none. *)
Lemma temp_history_not_appended :
  (is_Some (Collect.collect_stats Sample.tick0 Sample.state0).1
   /\ Collect.cpu_temp_history
        (Collect.collect_stats Sample.tick0 Sample.state0).2 = []
   /\ length (Collect.memory_history
                (Collect.collect_stats Sample.tick0 Sample.state0).2) = 1%nat)
  /\ ((Collect.collect_stats Sample.tick_memory_raises Sample.state0).1 = None
      /\ length (Collect.cpu_temp_history
                   (Collect.collect_stats Sample.tick_memory_raises
                      Sample.state0).2) = 1%nat
      /\ Collect.memory_history
           (Collect.collect_stats Sample.tick_memory_raises Sample.state0).2
         = []).
Proof.
  split; (split; [|split]); try (vm_compute; reflexivity).
  vm_compute. by eexists.
Qed.

(** C6, as the code has it.  A call gets as far as the two appends
    when the statements before them, which are outside a [try], do not
    raise: the three CPU readings of lines 630-634 for both, and for
    the memory history also [psutil.virtual_memory] and the sizes of
    [memory_stats].  A call that gets that far appends exactly one
    sample to the memory history, whatever the caches do, and one that
    raises before appends none.  The temperature history receives one
    sample exactly when the CPU readings return, the sensors are read
    and at least one core temperature is among them, and is left as it
    is otherwise.  A call that returns a snapshot has appended to the
    memory history, and the snapshot carries both histories as they
    are after the call. *)
Theorem histories_per_tick {F : Type} `{PyFloat F}
    (st : Collect.state F) (tk : Collect.tick F) :
  let st' := (Collect.collect_stats tk st).2 in
  let cpu_read :=
    is_Some (Collect.cpu_percent_total tk)
    /\ is_Some (Collect.cpu_percent_percpu tk)
    /\ is_Some (Collect.cpu_times_percent tk) in
  let memory_sample vm :=
    {| Collect.ms_time := Collect.t_memory tk;
       Collect.ms_percent := Collect.vm_percent vm;
       Collect.ms_used := Collect.vm_used vm;
       Collect.ms_available := Collect.vm_available vm |} in
  (forall vm,
     cpu_read -> Collect.virtual_memory tk = Some vm ->
     is_Some (Collect.memory_stats_of vm) ->
     Collect.memory_history st'
     = Deque.append Deque.maxlen (Collect.memory_history st)
         (memory_sample vm))
  /\ (~ cpu_read \/ Collect.virtual_memory tk = None
      \/ (exists vm, Collect.virtual_memory tk = Some vm
                     /\ Collect.memory_stats_of vm = None) ->
      Collect.memory_history st' = Collect.memory_history st)
  /\ (forall ts,
        cpu_read -> Collect.temps tk = Some ts ->
        Collect.core_temps_of ts <> [] ->
        exists s,
          Collect.cpu_temp_history st'
          = Deque.append Deque.maxlen (Collect.cpu_temp_history st) s
          /\ Collect.ts_time s = Collect.t_temp tk
          /\ Collect.ts_avg s
             = py_round (fdiv (py_sum (Collect.core_temps_of ts))
                           (float_of_len (length (Collect.core_temps_of ts))))
                 1
          /\ Collect.ts_cores s = Collect.core_temps_of ts)
  /\ (~ cpu_read \/ Collect.temps tk = None
      \/ (exists ts, Collect.temps tk = Some ts
                     /\ Collect.core_temps_of ts = []) ->
      Collect.cpu_temp_history st' = Collect.cpu_temp_history st)
  /\ (forall snap,
        (Collect.collect_stats tk st).1 = Some snap ->
        Collect.snap_temp_history snap = Collect.cpu_temp_history st'
        /\ Collect.snap_memory_history snap = Collect.memory_history st'
        /\ exists vm,
             Collect.virtual_memory tk = Some vm
             /\ Collect.memory_history st'
                = Deque.append Deque.maxlen (Collect.memory_history st)
                    (memory_sample vm)).
Proof.
  intros st' cpu_read memory_sample.
  destruct (histories_collect st tk) as (Htemp & Hmem & Hsnap).
  fold st' in Htemp, Hmem, Hsnap.
  assert (Hmem_ok : forall vm,
            cpu_read -> Collect.virtual_memory tk = Some vm ->
            is_Some (Collect.memory_stats_of vm) ->
            Collect.memory_history st'
            = Deque.append Deque.maxlen (Collect.memory_history st)
                (memory_sample vm)).
  { intros vm ([c Hc] & [p Hp] & [t Ht]) Hvm [ms Hms].
    by rewrite Hmem, Hc, Hp, Ht, Hvm, Hms. }
  split; [exact Hmem_ok|]. split; [|split; [|split]].
  - intros Hnot. rewrite Hmem.
    destruct (Collect.cpu_percent_total tk) as [c|]; [|done].
    destruct (Collect.cpu_percent_percpu tk) as [p|]; [|done].
    destruct (Collect.cpu_times_percent tk) as [t|]; [|done].
    destruct Hnot as [Hcpu | [-> | (vm & -> & ->)]]; [|done|done].
    destruct Hcpu. unfold cpu_read. repeat split; by eexists.
  - intros ts ([c Hc] & [p Hp] & [t Ht]) Hts Hcores.
    rewrite Htemp, Hc, Hp, Ht. unfold Collect.temp_sample_of. rewrite Hts.
    destruct (Collect.core_temps_of ts) as [|x xs] eqn:Hc'; [done|].
    eexists. split; [reflexivity|]. by repeat split.
  - intros Hnot. rewrite Htemp.
    destruct (Collect.cpu_percent_total tk) as [c|]; [|done].
    destruct (Collect.cpu_percent_percpu tk) as [p|]; [|done].
    destruct (Collect.cpu_times_percent tk) as [t|]; [|done].
    unfold Collect.temp_sample_of.
    destruct Hnot as [Hcpu | [-> | (ts & -> & ->)]]; [|done|done].
    destruct Hcpu. unfold cpu_read. repeat split; by eexists.
  - intros snap Hs. destruct (Hsnap snap Hs) as [Hs1 Hs2].
    split; [done|]. split; [done|].
    destruct (collect_stats_returned st tk snap Hs)
      as (Hc & Hp & Ht & vm & Hvm & Hms).
    exists vm. split; [done|]. by apply Hmem_ok.
Qed.

(** With a core temperature sensor both histories grow by one sample;
    the temperature sample holds the two core readings.  Where
    [psutil.cpu_percent] raises neither history is touched. *)
Lemma histories_per_tick_run :
  (length (Collect.memory_history
             (Collect.collect_stats Sample.tick1 Sample.state0).2) = 1%nat
   /\ exists s,
        Collect.cpu_temp_history
          (Collect.collect_stats Sample.tick1 Sample.state0).2 = [s]
        /\ Collect.ts_cores s = [48%Q; 51%Q])
  /\ Collect.memory_history
       (Collect.collect_stats Sample.tick_cpu_raises Sample.state0).2 = []
  /\ Collect.cpu_temp_history
       (Collect.collect_stats Sample.tick_cpu_raises Sample.state0).2 = [].
Proof.
  destruct (@histories_per_tick Q QFloat Sample.state0 Sample.tick1)
    as (Hmem & _ & Htemp & _).
  destruct (@histories_per_tick Q QFloat Sample.state0 Sample.tick_cpu_raises)
    as (_ & Hmem' & _ & Htemp' & _).
  split; [split|split].
  - rewrite (Hmem Sample.svmem0); [done | | done | ].
    + repeat split; by eexists.
    + vm_compute. by eexists.
  - destruct (Htemp Sample.core_temps0) as (s & Hs & _ & _ & Hcores);
      [repeat split; by eexists | done | vm_compute; discriminate |].
    exists s. split; [exact Hs|]. rewrite Hcores. vm_compute. reflexivity.
  - refine (eq_trans (Hmem' _) _); [|done].
    left. intros ([c Hc] & _). discriminate.
  - refine (eq_trans (Htemp' _) _); [|done].
    left. intros ([c Hc] & _). discriminate.
Defined.

(** * Further properties of the collector *)

(** ** Discovering the domains *)

Section init_facts.
Import RaplInit.

Lemma join_inj (a b1 b2 : string) : join a b1 = join a b2 -> b1 = b2.
Proof.
  unfold join. induction a as [|c a IH]; cbn.
  - intros Heq. by injection Heq.
  - intros [= Heq]. by apply IH.
Qed.

Lemma init_domain_Some env p d :
  init_domain env p = Some d ->
  Rapl.path d = p /\ Rapl.energy_file d = join p "energy_uj".
Proof.
  unfold init_domain.
  destruct (Rapl.file_exists (files env) (join p "name")); [|done].
  destruct (read_text env (join p "name")) as [raw|]; [|done]. simpl.
  destruct (if Rapl.file_exists (files env) (join p "max_energy_range_uj")
            then _ else _) as [m|]; [|done].
  simpl. by intros [= <-].
Qed.

Lemma omap_init_elem env (l : list string) d :
  d ∈ omap (init_domain env) l ->
  Rapl.path d ∈ l /\ init_domain env (Rapl.path d) = Some d.
Proof.
  intros Hin. apply list_elem_of_omap in Hin as (p & Hp & Hd).
  destruct (init_domain_Some _ _ _ Hd) as [<- _]. done.
Qed.

Lemma omap_init_NoDup env (l : list string) :
  NoDup l -> NoDup (Rapl.path <$> omap (init_domain env) l).
Proof.
  induction 1 as [|p l Hp Hnd IH]; simpl; [constructor|].
  destruct (init_domain env p) as [d|] eqn:Hd; [|done].
  rewrite fmap_cons. apply NoDup_cons. split; [|done].
  destruct (init_domain_Some _ _ _ Hd) as [-> _].
  intros Hin. apply list_elem_of_fmap in Hin as (d' & Hpath & Hd').
  apply omap_init_elem in Hd' as [Hl _]. by rewrite <- Hpath in Hl.
Qed.

Lemma init_domains_elem env d :
  d ∈ init_domains env ->
  exists entries e,
    listdir env = Some entries /\ e ∈ entries /\ is_rapl_dir e = true
    /\ Rapl.path d = join base_path e
    /\ init_domain env (Rapl.path d) = Some d.
Proof.
  unfold init_domains. destruct (base_exists env).
  2:{ intros Hin. by apply elem_of_nil in Hin. }
  destruct (listdir env) as [entries|].
  2:{ intros Hin. by apply elem_of_nil in Hin. }
  intros Hin. apply omap_init_elem in Hin as [Hp Hd].
  apply list_elem_of_fmap in Hp as (e & He & Hin).
  apply list_elem_of_filter in Hin as [Hrapl Hin].
  exists entries, e. done.
Qed.
Lemma init_domains_NoDup env entries :
  listdir env = Some entries -> NoDup entries ->
  NoDup (Rapl.path <$> init_domains env).
Proof.
  intros Hl Hnd. unfold init_domains. rewrite Hl.
  destruct (base_exists env); [|constructor].
  apply omap_init_NoDup. apply NoDup_fmap_2_strong.
  - intros x y _ _ Hxy. by apply join_inj in Hxy.
  - by apply NoDup_filter.
Qed.
End init_facts.

(** X2: [_init_domains] yields nothing when the powercap directory is
    missing or cannot be listed; every domain it yields sits in a
    listed directory whose name contains ["intel-rapl"] and a colon,
    with its energy register at [<path>/energy_uj]; and the paths are
    pairwise distinct when the listing is. *)
Theorem init_domains_paths (env : RaplInit.powercap) :
  (RaplInit.base_exists env = false \/ RaplInit.listdir env = None ->
     RaplInit.init_domains env = [])
  /\ (forall d, d ∈ RaplInit.init_domains env ->
        exists entries e,
          RaplInit.listdir env = Some entries /\ e ∈ entries
          /\ Text.contains "intel-rapl" e = true
          /\ Text.contains ":" e = true
          /\ Rapl.path d = RaplInit.join RaplInit.base_path e
          /\ Rapl.energy_file d = RaplInit.join (Rapl.path d) "energy_uj")
  /\ (forall entries, RaplInit.listdir env = Some entries ->
        NoDup entries ->
        NoDup (Rapl.path <$> RaplInit.init_domains env)).
Proof.
  split; [|split].
  - unfold RaplInit.init_domains. intros [-> | ->]; [done|].
    by destruct (RaplInit.base_exists env).
  - intros d Hd.
    destruct (init_domains_elem env d Hd) as (entries & e & Hl & He & Hr & Hp & Hi).
    exists entries, e. unfold RaplInit.is_rapl_dir in Hr.
    apply andb_true_iff in Hr as [Hr1 Hr2].
    destruct (init_domain_Some _ _ _ Hi) as [_ Hfile]. done.
  - intros entries Hl Hnd. by eapply init_domains_NoDup.
Qed.

Lemma init_domains_paths_run :
  NoDup (Rapl.path <$> RaplInit.init_domains Sample.powercap_dir)
  /\ RaplInit.init_domains Sample.powercap_dir = [Sample.pkg0; Sample.core0].
Proof.
  destruct (init_domains_paths Sample.powercap_dir) as (_ & _ & Hnd).
  split; [|vm_compute; reflexivity].
  apply (Hnd _ eq_refl).
  apply NoDup_cons. split.
  { rewrite !elem_of_cons, elem_of_nil. intros [?|[?|[]]]; discriminate. }
  apply NoDup_cons. split; [|apply NoDup_singleton].
  rewrite list_elem_of_singleton. discriminate.
Defined.

(** X3: a domain whose name file mentions ["package"] is listed as
    ["Package-"] followed by what stands after the last colon of its
    path, a name that passes the ["Package" in k] test of
    [collect_stats]; any other domain keeps the name it reads. *)
Theorem init_domains_package_name (env : RaplInit.powercap)
    (d : Rapl.domain) (raw : string) :
  d ∈ RaplInit.init_domains env ->
  RaplInit.read_text env (RaplInit.join (Rapl.path d) "name") = Some raw ->
  (Text.contains "package" raw = true ->
     Rapl.name d = "Package-" +:+ RaplInit.last_segment (Rapl.path d)
     /\ Text.contains "Package" (Rapl.name d) = true)
  /\ (Text.contains "package" raw = false -> Rapl.name d = raw).
Proof.
  intros Hd Hraw.
  destruct (init_domains_elem env d Hd) as (_ & _ & _ & _ & _ & _ & Hi).
  unfold RaplInit.init_domain in Hi. rewrite Hraw in Hi.
  destruct (Rapl.file_exists _ (RaplInit.join (Rapl.path d) "name")); [|done].
  simpl in Hi.
  destruct (if Rapl.file_exists _ (RaplInit.join (Rapl.path d)
                                     "max_energy_range_uj")
            then _ else _) as [m|]; [|done].
  simpl in Hi. injection Hi as Hi. split.
  - intros Hpkg. rewrite Hpkg in Hi. rewrite <- Hi. simpl. done.
  - intros Hpkg. rewrite Hpkg in Hi. by rewrite <- Hi.
Qed.

Lemma init_domains_package_name_run :
  Rapl.name Sample.pkg0 = "Package-0"%string
  /\ Text.contains "Package" (Rapl.name Sample.pkg0) = true.
Proof.
  destruct (init_domains_package_name Sample.powercap_dir Sample.pkg0
              "package-0") as [Hpkg _].
  - vm_compute. apply list_elem_of_here.
  - reflexivity.
  - destruct (Hpkg eq_refl) as [Hname Hin]. split; [|exact Hin].
    rewrite Hname. reflexivity.
Defined.

(** ** More on the RAPL reader *)

Section rapl_more.
Context {F : Type} `{PyFloat F}.
Import Rapl.
Implicit Types (st : list (string * F) * gmap string (F * Z)).

(** A register that cannot be read leaves the round without effect. *)
Lemma sample_domain_unreadable fs now d st :
  file_exists fs (energy_file d) = false
  \/ read_int fs (energy_file d) = None ->
  default st (sample_domain fs now d st) = st.
Proof.
  intros Hbad. destruct st as [stats readings]. unfold sample_domain.
  destruct (file_exists fs (energy_file d)); [|done].
  destruct Hbad as [?| ->]; done.
Qed.

(** A round adds at most its own name to [stats] ... *)
Lemma sample_domain_keys fs now d st n :
  n ∈ Dict.keys (default st (sample_domain fs now d st)).1 ->
  n = name d \/ n ∈ Dict.keys st.1.
Proof.
  destruct st as [stats readings]. unfold sample_domain.
  destruct (file_exists fs (energy_file d)); [|by right].
  destruct (read_int fs (energy_file d)) as [e|]; [|by right]. simpl.
  destruct (readings !! path d) as [[t0 e0]|]; simpl; [|by right].
  destruct (fgt_int (fsub now t0) 0 && _); simpl; [|by right].
  destruct (float_of_int _); simpl; [|by right].
  intros Hin. by apply dict_keys_set in Hin.
Qed.

Lemma sample_loop_keys fs now ds st n :
  n ∈ Dict.keys (sample_loop fs now ds st).1 ->
  n ∈ name <$> ds \/ n ∈ Dict.keys st.1.
Proof.
  revert st. induction ds as [|d ds IH]; intros st; [by right|].
  rewrite sample_loop_cons. intros Hin.
  destruct (IH _ Hin) as [Hds|Hst].
  - left. rewrite fmap_cons. by apply list_elem_of_further.
  - destruct (sample_domain_keys _ _ _ _ _ Hst) as [->|?]; [|by right].
    left. rewrite fmap_cons. apply list_elem_of_here.
Qed.

Lemma sample_loop_no_prior fs now ds st :
  NoDup (path <$> ds) ->
  (forall p, p ∈ path <$> ds -> st.2 !! p = None) ->
  (sample_loop fs now ds st).1 = st.1.
Proof.
  revert st. induction ds as [|d ds IH]; intros st Hnd Hnone; [done|].
  rewrite sample_loop_cons. rewrite fmap_cons in Hnd, Hnone.
  apply NoDup_cons in Hnd as [Hd Hnd].
  rewrite IH; [|done|].
  - apply sample_domain_no_prior, Hnone, list_elem_of_here.
  - intros p Hp. rewrite sample_domain_readings_other.
    + apply Hnone. by apply list_elem_of_further.
    + intros ->. done.
Qed.

(** Where a stored reading comes from. *)
Lemma sample_domain_origin fs now d st p t e :
  (default st (sample_domain fs now d st)).2 !! p = Some (t, e) ->
  (t = now /\ p = path d) \/ st.2 !! p = Some (t, e).
Proof.
  destruct (decide (p = path d)) as [->|Hne].
  2:{ rewrite sample_domain_readings_other by done. by right. }
  destruct st as [stats readings]. unfold sample_domain.
  destruct (file_exists fs (energy_file d)); [|by right].
  destruct (read_int fs (energy_file d)) as [v|]; [|by right]. simpl.
  destruct (match readings !! path d with Some _ => _ | None => _ end)
    as [stats'|]; simpl; [|by right].
  rewrite lookup_insert_eq. intros [= <- <-]. by left.
Qed.

Lemma sample_loop_origin fs now ds st p t e :
  (sample_loop fs now ds st).2 !! p = Some (t, e) ->
  (t = now /\ p ∈ path <$> ds) \/ st.2 !! p = Some (t, e).
Proof.
  revert st. induction ds as [|d ds IH]; intros st; [by right|].
  rewrite sample_loop_cons, fmap_cons. intros Hl.
  destruct (IH _ Hl) as [[-> Hin]|Hst].
  - left. split; [done|]. by apply list_elem_of_further.
  - destruct (sample_domain_origin _ _ _ _ _ _ _ Hst) as [[-> ->]|?];
      [|by right].
    left. split; [done|]. apply list_elem_of_here.
Qed.

Lemma cleanup_lookup (r : reader F) now p x :
  last_readings (cleanup r now) !! p = Some x ->
  last_readings r !! p = Some x
  /\ (cleanup_counter r = 300 -> fgt_int (fsub now x.1) 60 = false).
Proof.
  unfold cleanup.
  destruct (Z.ltb_spec 300 (cleanup_counter r + 1)) as [Hlt|Hge]; simpl.
  - intros Hl. apply map_lookup_filter_Some in Hl as [Hl Hok]. done.
  - intros Hl. split; [done|]. lia.
Qed.

Lemma cleanup_counter_range (r : reader F) now :
  0 <= cleanup_counter r <= 300 ->
  0 <= cleanup_counter (cleanup r now) <= 300.
Proof.
  intros Hc. unfold cleanup.
  destruct (Z.ltb_spec 300 (cleanup_counter r + 1)); simpl; lia.
Qed.

Lemma cleanup_congr (r r' : reader F) now :
  last_readings r' = last_readings r ->
  cleanup_counter r' = cleanup_counter r ->
  last_readings (cleanup r' now) = last_readings (cleanup r now).
Proof.
  intros Hl Hc. unfold cleanup. rewrite Hl, Hc.
  by destruct (300 <? cleanup_counter r + 1).
Qed.
End rapl_more.

(** X4: a domain whose energy register is missing or unreadable is
    skipped without a trace: the wattages and the stored readings are
    those of the same call on a reader that does not know the domain. *)
Theorem rapl_unreadable_domain_skipped {F : Type} `{PyFloat F}
    (r r' : Rapl.reader F) (fs : Rapl.sysfs) (now : F)
    (pre post : list Rapl.domain) (d : Rapl.domain) :
  Rapl.domains r = pre ++ d :: post ->
  Rapl.domains r' = pre ++ post ->
  Rapl.last_readings r' = Rapl.last_readings r ->
  Rapl.cleanup_counter r' = Rapl.cleanup_counter r ->
  Rapl.file_exists fs (Rapl.energy_file d) = false
  \/ Rapl.read_int fs (Rapl.energy_file d) = None ->
  (Rapl.get_power_stats r fs now).1 = (Rapl.get_power_stats r' fs now).1
  /\ Rapl.last_readings (Rapl.get_power_stats r fs now).2
     = Rapl.last_readings (Rapl.get_power_stats r' fs now).2.
Proof.
  intros Hd Hd' Hl Hc Hbad. rewrite !get_power_stats_loop. simpl.
  rewrite Hd, Hd', (cleanup_congr r r' now Hl Hc).
  rewrite !sample_loop_app, sample_loop_cons.
  by rewrite (sample_domain_unreadable _ _ _ _ Hbad).
Qed.

(** X5: wattages are reported under domain names only, and the first
    call of a reader (no reading stored yet, distinct domain paths)
    reports none: a rate needs two readings. *)
Theorem rapl_first_call_emits_nothing {F : Type} `{PyFloat F}
    (r : Rapl.reader F) (fs : Rapl.sysfs) (now : F) :
  (forall n, n ∈ Dict.keys (Rapl.get_power_stats r fs now).1 ->
     n ∈ Rapl.name <$> Rapl.domains r)
  /\ (Rapl.last_readings r = ∅ ->
      NoDup (Rapl.path <$> Rapl.domains r) ->
      (Rapl.get_power_stats r fs now).1 = []).
Proof.
  rewrite get_power_stats_loop. simpl. split.
  - intros n Hn. apply sample_loop_keys in Hn as [?|Hn]; [done|].
    by apply elem_of_nil in Hn.
  - intros Hempty Hnd. rewrite sample_loop_no_prior; [done|done|].
    intros p _. simpl.
    destruct (Rapl.last_readings (Rapl.cleanup r now) !! p) as [x|] eqn:Hp;
      [|done].
    apply cleanup_lookup in Hp as [Hp _]. by rewrite Hempty in Hp.
Qed.

(** X6: the call keeps the cleanup counter within 0..300 and the
    domains as they are; a reading stored afterwards was either taken
    in this call, for one of the domains, or was stored before; and on
    the call that runs the cleanup (counter at 300) a reading kept from
    before is not older than 60 seconds. *)
Theorem rapl_readings_bounded {F : Type} `{PyFloat F}
    (r : Rapl.reader F) (fs : Rapl.sysfs) (now : F) :
  let r' := (Rapl.get_power_stats r fs now).2 in
  (0 <= Rapl.cleanup_counter r <= 300 ->
     0 <= Rapl.cleanup_counter r' <= 300)
  /\ Rapl.domains r' = Rapl.domains r
  /\ (forall p t e, Rapl.last_readings r' !! p = Some (t, e) ->
        (t = now /\ p ∈ Rapl.path <$> Rapl.domains r)
        \/ (Rapl.last_readings r !! p = Some (t, e)
            /\ (Rapl.cleanup_counter r = 300 ->
                  fgt_int (fsub now t) 60 = false))).
Proof.
  intros r'. unfold r'. rewrite get_power_stats_loop. simpl.
  split; [apply cleanup_counter_range|]. split; [done|].
  intros p t e Hl. apply sample_loop_origin in Hl as [?|Hl]; [by left|].
  right. simpl in Hl. by apply cleanup_lookup in Hl.
Qed.

Lemma rapl_unreadable_domain_skipped_run :
  (Rapl.get_power_stats Sample.reader0 Sample.powercap_core_missing 12%Q).1
  = (Rapl.get_power_stats Sample.reader_pkg_only
       Sample.powercap_core_missing 12%Q).1.
Proof.
  apply (rapl_unreadable_domain_skipped Sample.reader0 Sample.reader_pkg_only
           Sample.powercap_core_missing 12%Q [Sample.pkg0] [] Sample.core0
           eq_refl eq_refl eq_refl eq_refl).
  left. reflexivity.
Defined.

(** A reader made by [RaplReader()] reports nothing on its first call. *)
Lemma rapl_first_call_emits_nothing_run :
  (Rapl.get_power_stats (RaplInit.new_reader Sample.powercap_dir)
     Sample.powercap0 12%Q).1 = [].
Proof.
  apply (proj2 (@rapl_first_call_emits_nothing Q QFloat
                  (RaplInit.new_reader Sample.powercap_dir)
                  Sample.powercap0 12%Q)); [reflexivity|].
  apply (init_domains_NoDup Sample.powercap_dir _ eq_refl).
  apply NoDup_cons. split.
  { rewrite !elem_of_cons, elem_of_nil. intros [?|[?|[]]]; discriminate. }
  apply NoDup_cons. split; [|apply NoDup_singleton].
  rewrite list_elem_of_singleton. discriminate.
Defined.

(** On the sample reader the stored package reading is replaced by the
    one taken at time 12. *)
Lemma rapl_readings_bounded_run :
  0 <= Rapl.cleanup_counter
         (Rapl.get_power_stats Sample.reader0 Sample.powercap0 12%Q).2 <= 300.
Proof.
  apply (proj1 (@rapl_readings_bounded Q QFloat Sample.reader0
                  Sample.powercap0 12%Q)).
  simpl. lia.
Defined.

(** ** More on the aged caches *)

Section cache_more.
Context {F : Type} `{PyFloat F}.
Import Psutil Cache.

Lemma count_state_keys (states : list (string * Z)) c :
  Dict.keys (count_state states c) = Dict.keys states.
Proof.
  unfold count_state. destruct (Dict.get (status c) states) as [n|] eqn:Hg;
    [|done].
  apply dict_get_Some_keys in Hg. revert Hg. generalize (status c) as k.
  unfold Dict.keys. induction states as [|[k0 v0] states IH]; intros k Hin.
  - by apply elem_of_nil in Hin.
  - simpl. destruct (decide (k = k0)) as [->|Hne]; [done|]. simpl. f_equal.
    apply IH. simpl in Hin. apply elem_of_cons in Hin as [?|?]; done.
Qed.

Lemma count_state_get (states : list (string * Z)) c s :
  Dict.get s (count_state states c)
  = (fun n => if decide (status c = s) then n + 1 else n)
      <$> Dict.get s states.
Proof.
  unfold count_state. destruct (decide (status c = s)) as [<-|Hne].
  - destruct (Dict.get (status c) states) as [n|] eqn:Hg; simpl.
    + by rewrite dict_get_set_eq.
    + by rewrite Hg.
  - destruct (Dict.get (status c) states) as [n|] eqn:Hg.
    + rewrite dict_get_set_ne by done. by destruct (Dict.get s states).
    + by destruct (Dict.get s states).
Qed.

Lemma count_fold_keys conns (states : list (string * Z)) :
  Dict.keys (fold_left count_state conns states) = Dict.keys states.
Proof.
  revert states. induction conns as [|c conns IH]; intros states; [done|].
  simpl. by rewrite IH, count_state_keys.
Qed.

Lemma count_fold_get conns (states : list (string * Z)) s :
  Dict.get s (fold_left count_state conns states)
  = (fun n => n + Z.of_nat (length (filter (fun c => status c = s) conns)))
      <$> Dict.get s states.
Proof.
  revert states. induction conns as [|c conns IH]; intros states; simpl.
  - destruct (Dict.get s states); simpl; [|done]. f_equal. lia.
  - rewrite IH, count_state_get, filter_cons.
    destruct (Dict.get s states) as [n|]; simpl; [|done]. f_equal.
    destruct (decide (status c = s)); simpl; lia.
Qed.

(** The fresh SSH record: its counters follow the connections seen. *)
Lemma ssh_conn_loop_spec identify (cs : list conn) (s s' : ssh_stats F) :
  ssh_conn_loop identify s cs = Some s' ->
  Forall (fun c => is_Some (laddr c)) cs
  /\ connections s' - Z.of_nat (length (sessions s'))
     = connections s - Z.of_nat (length (sessions s))
  /\ length (sessions s')
     = Nat.add (length (sessions s))
         (length (filter (fun c => snd <$> laddr c = Some 22
                                   /\ status c = "ESTABLISHED"%string) cs))
  /\ port s' = port s
  /\ (ssh_status s' = "Running"%string <->
      ssh_status s = "Running"%string
      \/ exists c, c ∈ cs /\ snd <$> laddr c = Some 22
                   /\ status c = "LISTEN"%string).
Proof.
  revert s. induction cs as [|c cs IH]; intros s; simpl.
  - intros [= <-]. split; [constructor|]. split; [done|]. split; [lia|].
    split; [done|]. split; [by left|]. intros [?|(c & Hc & _)]; [done|].
    by apply elem_of_nil in Hc.
  - unfold ssh_conn_step.
    destruct (laddr c) as [[a lport]|] eqn:Hl; simpl; [|done].
    rewrite filter_cons, Hl. simpl.
    assert (Hlater : forall P : conn -> Prop,
              (exists c', c' ∈ cs /\ P c') -> exists c', c' ∈ c :: cs /\ P c').
    { intros P (c' & Hc' & HP). exists c'.
      split; [by apply list_elem_of_further|done]. }
    assert (Hcase : forall s0 : ssh_stats F,
      ssh_conn_loop identify s0 cs = Some s' ->
      length (sessions s0) = length (sessions s) ->
      connections s0 = connections s -> port s0 = port s ->
      (ssh_status s0 = "Running"%string <-> ssh_status s = "Running"%string) ->
      ~ (Some lport = Some 22 /\ status c = "ESTABLISHED"%string) ->
      ~ (Some lport = Some 22 /\ status c = "LISTEN"%string) ->
      Forall (fun c => is_Some (laddr c)) (c :: cs)
      /\ connections s' - Z.of_nat (length (sessions s'))
         = connections s - Z.of_nat (length (sessions s))
      /\ length (sessions s')
         = Nat.add (length (sessions s))
             (length (if decide (Some lport = Some 22
                                 /\ status c = "ESTABLISHED"%string)
                      then c :: filter (fun c => snd <$> laddr c = Some 22
                                   /\ status c = "ESTABLISHED"%string) cs
                      else filter (fun c => snd <$> laddr c = Some 22
                                   /\ status c = "ESTABLISHED"%string) cs))
      /\ port s' = port s
      /\ (ssh_status s' = "Running"%string <->
          ssh_status s = "Running"%string
          \/ exists c0, c0 ∈ c :: cs /\ snd <$> laddr c0 = Some 22
                        /\ status c0 = "LISTEN"%string)).
    { intros s0 Hloop Hlen Hconn Hport Hrun Hne Hnl.
      destruct (IH _ Hloop) as (Hall & Hc & Hn & Hp & Hst).
      split; [constructor; [rewrite Hl; eauto | done]|].
      split; [lia|]. rewrite decide_False by done.
      split; [lia|]. split; [congruence|]. rewrite Hst, Hrun. split.
      - intros [?|Hex]; [by left|]. right. by apply Hlater.
      - intros [?|(c' & Hc' & Ha' & Hs')]; [by left|].
        apply elem_of_cons in Hc' as [->|Hc'].
        + rewrite Hl in Ha'. simpl in Ha'. by destruct Hnl.
        + right. exists c'. done. }
    destruct (Z.eqb_spec lport 22) as [->|Hport].
    + destruct (String.eqb_spec (status c) "LISTEN") as [Hs|Hs].
      * intros Hloop. destruct (IH _ Hloop) as (Hall & Hc & Hn & Hp & Hst).
        simpl in *. split; [constructor; [rewrite Hl; eauto | done]|].
        split; [done|].
        rewrite decide_False.
        2:{ intros [_ Hs']. rewrite Hs in Hs'. discriminate. }
        split; [done|]. split; [done|]. rewrite Hst. split.
        -- intros _. right. exists c.
           split; [apply list_elem_of_here|]. by rewrite Hl.
        -- intros _. by left.
      * destruct (String.eqb_spec (status c) "ESTABLISHED") as [Hs'|Hs'].
        -- destruct (identify c) as [user_name start].
           intros Hloop. destruct (IH _ Hloop) as (Hall & Hc & Hn & Hp & Hst).
           simpl in *. split; [constructor; [rewrite Hl; eauto | done]|].
           rewrite length_app in Hc, Hn. simpl in Hc, Hn.
           split; [lia|].
           rewrite decide_True by done. simpl.
           split; [lia|]. split; [done|]. rewrite Hst. split.
           ++ intros [?|Hex]; [by left|]. right. by apply Hlater.
           ++ intros [?|(c' & Hc' & Ha' & Hs'')]; [by left|].
              apply elem_of_cons in Hc' as [->|Hc']; [congruence|].
              right. exists c'. done.
        -- intros Hloop. apply (Hcase s); try done; by intros [_ ?].
    + intros Hloop. apply (Hcase s); try done; intros [[= ?] _]; done.
Qed.

Lemma ssh_conn_loop_total identify (cs : list conn) (s : ssh_stats F) :
  Forall (fun c => is_Some (laddr c)) cs ->
  is_Some (ssh_conn_loop identify s cs).
Proof.
  intros Hall. revert s. induction Hall as [|c cs [[a lport] Hl] Hall IH];
    intros s; simpl; [eauto|].
  unfold ssh_conn_step. rewrite Hl. simpl.
  destruct (lport =? 22); [|apply IH].
  destruct (String.eqb (status c) "LISTEN"); [apply IH|].
  destruct (String.eqb (status c) "ESTABLISHED"); [|apply IH].
  destruct (identify c). apply IH.
Qed.
End cache_more.

Section cache_status.
Context {F : Type} `{PyFloat F}.
Import Psutil Cache.

Lemma ssh_conn_loop_status identify (cs : list conn) (s s' : ssh_stats F) :
  ssh_conn_loop identify s cs = Some s' ->
  ssh_status s' = ssh_status s \/ ssh_status s' = "Running"%string.
Proof.
  revert s. induction cs as [|c cs IH]; intros s; simpl.
  - intros [= <-]. by left.
  - unfold ssh_conn_step. destruct (laddr c) as [[a lport]|]; simpl; [|done].
    destruct (lport =? 22); [|apply IH].
    destruct (String.eqb (status c) "LISTEN").
    { intros Hloop. destruct (IH _ Hloop) as [->|?]; by right. }
    destruct (String.eqb (status c) "ESTABLISHED"); [|apply IH].
    destruct (identify c). intros Hloop.
    destruct (IH _ Hloop) as [->|?]; [by left | by right].
Qed.
End cache_status.

(** X7: whatever a call did, the next call that comes within the
    staleness window of the stored timestamp returns the same value and
    changes nothing, whatever the host shows by then: the collectors
    recompute at most once per window.  [get_gpu_info] moreover never
    returns [None]. *)
Theorem cache_served_within_window {F : Type} `{PyFloat F} :
  (forall (st : Cache.gpu_cache F) now now' cards t t' cards',
     let r := Cache.get_gpu_info st now now' cards in
     is_Some r.1
     /\ (fgt_int (fsub t (Cache.last_gpu_info_time r.2)) 60 = false ->
         Cache.get_gpu_info r.2 t t' cards' = r))
  /\ (forall (st : Cache.states_cache F) now now' tcp t t' tcp',
        let r := Cache.get_connection_states st now now' tcp in
        fgt_int (fsub t (Cache.last_connection_states_time r.2)) 10 = false ->
        Cache.get_connection_states r.2 t t' tcp' = r)
  /\ (forall (st : Cache.ssh_cache F) now now' tcp identify d
             t t' tcp' identify' d',
        let r := Cache.get_ssh_stats st now now' tcp identify d in
        fgt_int (fsub t (Cache.last_ssh_time r.2)) 10 = false ->
        Cache.get_ssh_stats r.2 t t' tcp' identify' d' = r)
  /\ (forall (st : Cache.process_cache F) now now' processes t t' processes',
        let r := Cache.get_top_processes st now now' processes in
        fgt_int (fsub t (Cache.last_process_time r.2)) 5 = false ->
        Cache.get_top_processes r.2 t t' processes' = r).
Proof.
  repeat apply conj.
  - intros st now now' cards t t' cards' r.
    assert (Hr : r.1 = Cache.gpu_info_cache r.2 /\ is_Some r.1).
    { unfold r, Cache.get_gpu_info.
      destruct (fgt_int (fsub now (Cache.last_gpu_info_time st)) 60); simpl.
      - destruct (Cache.scan_cards cards); simpl; eauto.
      - destruct (Cache.gpu_info_cache st) as [v|] eqn:Hc; simpl.
        + rewrite Hc. eauto.
        + destruct (Cache.scan_cards cards); simpl; eauto. }
    destruct Hr as [Heq Hsome]. split; [done|]. intros Hfresh.
    unfold Cache.get_gpu_info at 1. rewrite Hfresh. simpl.
    rewrite <- Heq. rewrite bool_decide_eq_false_2.
    + by destruct r.
    + intros Hn. rewrite Hn in Hsome. by destruct Hsome.
  - intros st now now' tcp t t' tcp' r Hfresh.
    assert (Heq : r.1 = Cache.connection_states_cache r.2).
    { unfold r, Cache.get_connection_states.
      by destruct (fgt_int (fsub now _) 10). }
    unfold Cache.get_connection_states at 1. rewrite Hfresh, <- Heq.
    by destruct r.
  - intros st now now' tcp identify d t t' tcp' identify' d' r Hfresh.
    assert (Heq : r.1 = Cache.ssh_stats_cache r.2).
    { unfold r, Cache.get_ssh_stats. by destruct (fgt_int (fsub now _) 10). }
    unfold Cache.get_ssh_stats at 1. rewrite Hfresh, <- Heq. by destruct r.
  - intros st now now' processes t t' processes' r Hfresh.
    assert (Heq : r.1 = Cache.process_cache_list r.2).
    { unfold r, Cache.get_top_processes. by destruct (fgt_int (fsub now _) 5). }
    unfold Cache.get_top_processes at 1. rewrite Hfresh, <- Heq. by destruct r.
Qed.

(** The sample GPU cache, refreshed at time 100 and asked again at
    time 130 on a host where the scan would now fail. *)
Lemma cache_served_within_window_run :
  Cache.get_gpu_info
    (Cache.get_gpu_info Sample.gpu_cache0 100%Q 100%Q []).2
    130%Q 130%Q [Sample.unreadable_card]
  = Cache.get_gpu_info Sample.gpu_cache0 100%Q 100%Q [].
Proof.
  destruct (@cache_served_within_window Q QFloat) as (Hgpu & _).
  apply (Hgpu Sample.gpu_cache0 100%Q 100%Q [] 130%Q 130%Q
           [Sample.unreadable_card]).
  reflexivity.
Defined.

(** X8: a refreshed state histogram has the eleven TCP states as its
    keys, in their fixed order, and under each the number of
    connections in that state; connections in any other state are not
    counted. *)
Theorem connection_states_count {F : Type} `{PyFloat F}
    (st : Cache.states_cache F) (now now' : F) (conns : list Psutil.conn) :
  fgt_int (fsub now (Cache.last_connection_states_time st)) 10 = true ->
  let states := (Cache.get_connection_states st now now' (Some conns)).1 in
  Dict.keys states = Dict.keys Cache.zero_states
  /\ forall s, s ∈ Dict.keys Cache.zero_states ->
       Dict.get s states
       = Some (Z.of_nat
                 (length (filter (fun c => Psutil.status c = s) conns))).
Proof.
  intros Hstale states. unfold states, Cache.get_connection_states.
  rewrite Hstale. cbn [fst]. split; [apply count_fold_keys|].
  intros s Hs. rewrite count_fold_get.
  destruct (dict_keys_get s Cache.zero_states Hs) as [n Hn]. rewrite Hn.
  assert (n = 0); [|by subst].
  revert Hn. unfold Cache.zero_states. simpl.
  repeat (destruct (decide _); [by intros [= <-]|]). done.
Qed.

Lemma connection_states_count_run :
  Dict.get "LISTEN"%string
    (Cache.get_connection_states Sample.states_cache0 100%Q 100%Q
       (Some Sample.conns)).1 = Some 2
  /\ Dict.get "ESTABLISHED"%string
       (Cache.get_connection_states Sample.states_cache0 100%Q 100%Q
          (Some Sample.conns)).1 = Some 1.
Proof.
  destruct (@connection_states_count Q QFloat Sample.states_cache0
              100%Q 100%Q Sample.conns eq_refl) as [_ Hget].
  split.
  - rewrite Hget; [reflexivity|]. vm_compute. set_solver.
  - rewrite Hget; [reflexivity|]. vm_compute. set_solver.
Defined.

(** X9: the fresh SSH record exists exactly when the connection scan
    succeeds and every connection has a local address.  It then has
    port 22, as many sessions as there are established connections on
    local port 22, [connections] equal to that number, and status
    ["Running"] when some connection listens on port 22, ["Stopped"]
    otherwise. *)
Theorem ssh_stats_counts {F : Type} `{PyFloat F}
    (tcp : option (list Psutil.conn))
    (identify : Psutil.conn -> string * string) (d : Cache.ssh_details F) :
  (is_Some (Cache.compute_ssh_stats tcp identify d) <->
     exists conns, tcp = Some conns
       /\ Forall (fun c => is_Some (Psutil.laddr c)) conns)
  /\ (forall conns s,
        tcp = Some conns ->
        Cache.compute_ssh_stats tcp identify d = Some s ->
        Cache.port s = 22
        /\ Cache.connections s = Z.of_nat (length (Cache.sessions s))
        /\ length (Cache.sessions s)
           = length (filter (fun c => snd <$> Psutil.laddr c = Some 22
                               /\ Psutil.status c = "ESTABLISHED"%string)
                            conns)
        /\ ((exists c, c ∈ conns /\ snd <$> Psutil.laddr c = Some 22
                       /\ Psutil.status c = "LISTEN"%string) ->
            Cache.ssh_status s = "Running"%string)
        /\ (~ (exists c, c ∈ conns /\ snd <$> Psutil.laddr c = Some 22
                         /\ Psutil.status c = "LISTEN"%string) ->
            Cache.ssh_status s = "Stopped"%string)).
Proof.
  split.
  - unfold Cache.compute_ssh_stats. destruct tcp as [conns|]; simpl.
    + split.
      * intros [s Hs]. exists conns. split; [done|].
        by apply ssh_conn_loop_spec in Hs as [Hall _].
      * intros (conns' & [= <-] & Hall). by apply ssh_conn_loop_total.
    + split; [by intros [? ?]|]. by intros (? & ? & _).
  - intros conns s -> Hs. unfold Cache.compute_ssh_stats in Hs. simpl in Hs.
    pose proof (ssh_conn_loop_status _ _ _ _ Hs) as Hstat.
    apply ssh_conn_loop_spec in Hs as (_ & Hc & Hn & Hp & Hst).
    simpl in *. split; [done|]. split; [lia|]. split; [done|]. split.
    + intros Hex. apply Hst. by right.
    + intros Hno. destruct Hstat as [?|Hrun]; [done|].
      apply Hst in Hrun as [?|?]; done.
Qed.

Lemma ssh_stats_counts_run :
  exists s,
    Cache.compute_ssh_stats (Some Sample.conns) Sample.identify0
      Sample.ssh_details0 = Some s
    /\ Cache.connections s = 1
    /\ Cache.ssh_status s = "Running"%string.
Proof.
  destruct (@ssh_stats_counts Q QFloat (Some Sample.conns) Sample.identify0
              Sample.ssh_details0) as [Hsome Hfacts].
  destruct (proj2 Hsome) as [s Hs].
  { exists Sample.conns. split; [done|]. repeat constructor; simpl; eauto. }
  exists s. split; [exact Hs|].
  destruct (Hfacts Sample.conns s eq_refl Hs) as (_ & Hc & Hn & Hrun & _).
  split.
  - rewrite Hc, Hn. reflexivity.
  - apply Hrun. eexists. split; [do 2 right; left|]. done.
Defined.

(** ** More on the process tree *)

Section tree_more.
Context {F : Type}.
Import Psutil ProcessTree.
Implicit Types (ps : list (process F)) (m : gmap Z nat) (t : tree).

Lemma concat_alter_snoc (cs : list (list nat)) (j i : nat) :
  (j < length cs)%nat ->
  concat (alter (fun c => c ++ [i]) j cs) ≡ₚ i :: concat cs.
Proof.
  revert j. induction cs as [|c cs IH]; intros j Hj; simpl in Hj; [lia|].
  destruct j as [|j].
  - cbn. rewrite <- app_assoc. simpl. by rewrite <- Permutation_middle.
  - change (concat (alter (fun c => c ++ [i]) (S j) (c :: cs)))
      with (c ++ concat (alter (fun c => c ++ [i]) j cs)).
    rewrite IH by lia. simpl. by rewrite <- Permutation_middle.
Qed.

Lemma link_length m t (ip : nat * process F) :
  length (children (link m t ip)) = length (children t).
Proof.
  unfold link. destruct ip as [i p].
  destruct (m !! ppid_of p); simpl; [|done]. apply length_alter.
Qed.

(** Each round files its object once, under the roots or under one
    parent. *)
Lemma link_fold_perm m (l : list (nat * process F)) t :
  (forall k j, m !! k = Some j -> (j < length (children t))%nat) ->
  root_processes (fold_left (link m) l t)
    ++ concat (children (fold_left (link m) l t))
  ≡ₚ (root_processes t ++ concat (children t)) ++ (fst <$> l).
Proof.
  revert t. induction l as [|[i p] l IH]; intros t Hm.
  - simpl. by rewrite app_nil_r.
  - change (fold_left (link m) ((i, p) :: l) t)
      with (fold_left (link m) l (link m t (i, p))).
    rewrite IH.
    2:{ intros k j Hk. rewrite link_length. by eapply Hm. }
    rewrite fmap_cons.
    unfold link. destruct (m !! ppid_of p) as [parent|] eqn:Hp; simpl.
    + rewrite concat_alter_snoc by (by eapply Hm).
      by rewrite <- !Permutation_middle.
    + rewrite <- !app_assoc. simpl. by rewrite <- !Permutation_middle.
Qed.

Lemma link_fold_length m (l : list (nat * process F)) t :
  length (children (fold_left (link m) l t)) = length (children t).
Proof.
  revert t. induction l as [|ip l IH]; intros t; [done|].
  change (fold_left (link m) (ip :: l) t)
    with (fold_left (link m) l (link m t ip)).
  by rewrite IH, link_length.
Qed.

Lemma imap_pair_fst (k : nat) ps :
  fst <$> imap (fun i p => ((k + i)%nat, p)) ps = seq k (length ps).
Proof.
  revert k. induction ps as [|p ps IH]; intros k; [done|].
  rewrite imap_cons. simpl. rewrite Nat.add_0_r. f_equal.
  rewrite <- (IH (S k)). f_equal. apply imap_ext. intros i x _. simpl.
  f_equal. lia.
Qed.

(** With distinct pids the map finds every record by its pid. *)
Lemma pid_map_lookup_NoDup ps i p :
  NoDup (pid <$> ps) -> ps !! i = Some p -> pid_map ps !! pid p = Some i.
Proof.
  intros Hnd Hp.
  destruct (pid_map ps !! pid p) as [j|] eqn:Hm.
  - destruct (pid_map_lookup_Some _ _ _ Hm) as (q & Hq & Hpid).
    f_equal. eapply NoDup_lookup; [exact Hnd| |].
    + by rewrite list_lookup_fmap, Hq.
    + rewrite list_lookup_fmap, Hp. simpl. by rewrite Hpid.
  - apply pid_map_lookup_None in Hm. destruct Hm.
    apply list_elem_of_fmap. exists p. split; [done|].
    by eapply list_elem_of_lookup_2.
Qed.
End tree_more.

(** X10: the tree files every process exactly once: the roots together
    with all ['children'] lists are a rearrangement of the input, and
    there is one ['children'] list per process. *)
Theorem process_tree_partition {F : Type}
    (processes : list (Psutil.process F)) :
  let t := ProcessTree.build_process_tree processes in
  length (ProcessTree.children t) = length processes
  /\ ProcessTree.root_processes t ++ concat (ProcessTree.children t)
     ≡ₚ seq 0 (length processes)
  /\ NoDup (ProcessTree.root_processes t ++ concat (ProcessTree.children t)).
Proof.
  intros t.
  assert (Hperm : ProcessTree.root_processes t
                    ++ concat (ProcessTree.children t)
                  ≡ₚ seq 0 (length processes)).
  { unfold t, ProcessTree.build_process_tree. rewrite link_fold_perm.
    - simpl. rewrite <- (imap_pair_fst 0 processes).
      assert (Hnil : concat (replicate (length processes) (@nil nat)) = []).
      { induction (length processes); simpl; auto. }
      by rewrite Hnil.
    - intros k j Hk. simpl. rewrite length_replicate.
      destruct (pid_map_lookup_Some _ _ _ Hk) as (q & Hq & _).
      by eapply lookup_lt_Some. }
  split; [|split; [exact Hperm|]].
  - unfold t, ProcessTree.build_process_tree.
    rewrite link_fold_length. simpl. apply length_replicate.
  - rewrite Hperm. apply NoDup_seq.
Qed.

(** X11: with distinct pids, the ['children'] list of a record holds
    exactly the processes whose parent pid is the record's pid.  A
    process that names itself as parent is therefore its own child and
    no root: the result is then cyclic. *)
Theorem process_tree_children_by_ppid {F : Type}
    (processes : list (Psutil.process F)) (j : nat) (q : Psutil.process F) :
  NoDup (Psutil.pid <$> processes) ->
  processes !! j = Some q ->
  let t := ProcessTree.build_process_tree processes in
  exists c,
    ProcessTree.children t !! j = Some c
    /\ (forall i, i ∈ c <->
          exists p, processes !! i = Some p
            /\ ProcessTree.ppid_of p = Psutil.pid q)
    /\ (ProcessTree.ppid_of q = Psutil.pid q ->
        j ∈ c /\ j ∉ ProcessTree.root_processes t).
Proof.
  intros Hnd Hq t.
  assert (Hj : (j < length processes)%nat) by (by eapply lookup_lt_Some).
  assert (Hc : ProcessTree.children t !! j
    = Some (fst <$> filter (fun ip => ProcessTree.pid_map processes
                                        !! ProcessTree.ppid_of ip.2 = Some j)
                           (imap pair processes))).
  { unfold t, ProcessTree.build_process_tree. rewrite link_fold_children.
    simpl. by rewrite lookup_replicate_2. }
  assert (Hmem : forall i,
    i ∈ fst <$> filter (fun ip => ProcessTree.pid_map processes
                                    !! ProcessTree.ppid_of ip.2 = Some j)
                       (imap pair processes)
    <-> exists p, processes !! i = Some p
          /\ ProcessTree.ppid_of p = Psutil.pid q).
  { intros i. rewrite list_elem_of_fmap. split.
    - intros ([i' p] & -> & Hin). apply list_elem_of_filter in Hin as [Hm Hin].
      apply elem_of_lookup_imap in Hin as (k & p' & [= -> ->] & Hp).
      exists p'. split; [done|]. simpl in Hm.
      destruct (pid_map_lookup_Some _ _ _ Hm) as (q' & Hq' & Hpid).
      rewrite Hq in Hq'. by injection Hq' as <-.
    - intros (p & Hp & Hpp). exists (i, p). split; [done|].
      apply list_elem_of_filter. split.
      + simpl. rewrite Hpp. by apply pid_map_lookup_NoDup.
      + by apply (elem_of_lookup_imap_2 pair). }
  eexists. split; [exact Hc|]. split; [exact Hmem|].
  intros Hself. split; [apply Hmem; eauto|].
  unfold t, ProcessTree.build_process_tree. rewrite link_fold_roots. simpl.
  rewrite list_elem_of_fmap. intros ([i' p] & -> & Hin).
  apply list_elem_of_filter in Hin as [Hm Hin].
  apply elem_of_lookup_imap in Hin as (k & p' & [= -> ->] & Hp).
  simpl in *. rewrite Hq in Hp. injection Hp as <-.
  rewrite Hself in Hm. by rewrite (pid_map_lookup_NoDup _ _ _ Hnd Hq) in Hm.
Qed.

(** In the sample list pid 2 is the one child of pid 1. *)
Lemma process_tree_children_by_ppid_run :
  exists c,
    ProcessTree.children (ProcessTree.build_process_tree Sample.procs)
      !! 0%nat = Some c
    /\ 1%nat ∈ c.
Proof.
  destruct (process_tree_children_by_ppid Sample.procs 0
              (Sample.proc 1 0 (3 # 2))) as (c & Hc & Hmem & _).
  - simpl. apply NoDup_cons. split.
    { rewrite !elem_of_cons, elem_of_nil. intros [?|[?|[]]]; discriminate. }
    apply NoDup_cons. split; [|apply NoDup_singleton].
    rewrite list_elem_of_singleton. discriminate.
  - reflexivity.
  - exists c. split; [exact Hc|]. apply Hmem.
    exists (Sample.proc 2 1 3%Q). split; reflexivity.
Defined.

(** ** More on the listening ports *)

Section ports_more.
Import Psutil Ports.

Lemma record_conn_ignored pn lp (c : conn) :
  ~ (status c = "LISTEN"%string /\ is_Some (laddr c)) ->
  record_conn pn lp c = lp.
Proof.
  intros Hno. unfold record_conn.
  destruct (String.eqb_spec (status c) "LISTEN") as [Hs|Hs]; [|done].
  destruct (laddr c) as [[a q]|]; [|done]. destruct Hno. eauto.
Qed.

Lemma listening_fold_filter pn (conns : list conn) lp :
  fold_left (record_conn pn)
    (filter (fun c => status c = "LISTEN"%string /\ is_Some (laddr c)) conns)
    lp
  = fold_left (record_conn pn) conns lp.
Proof.
  revert lp. induction conns as [|c conns IH]; intros lp; [done|].
  rewrite filter_cons. destruct (decide _) as [Hyes|Hno]; simpl.
  - apply IH.
  - by rewrite IH, (record_conn_ignored pn lp c Hno).
Qed.
End ports_more.

(** X12: only connections in state [LISTEN] with a local address
    matter: the result is that of the same call on those connections
    alone. *)
Theorem listening_ports_ignore_others (conns : list Psutil.conn)
    (process_name : option Z -> option string) :
  Ports.get_listening_ports (Some conns) process_name
  = Ports.get_listening_ports
      (Some (filter (fun c => Psutil.status c = "LISTEN"%string
                              /\ is_Some (Psutil.laddr c)) conns))
      process_name.
Proof.
  unfold Ports.get_listening_ports, Ports.listening_table.
  by rewrite listening_fold_filter.
Qed.

(** ** More on the histories *)

Section history_more.
Context {A : Type}.

Lemma deque_append_bounded (cap : nat) (d : list A) (x : A) :
  (length d <= cap)%nat ->
  (length (Deque.append cap d x) <= cap)%nat
  /\ ((length d < cap)%nat -> Deque.append cap d x = d ++ [x])
  /\ (length d = cap -> (0 < cap)%nat ->
      Deque.append cap d x = tail d ++ [x]).
Proof.
  intros Hd. unfold Deque.append. rewrite length_app. simpl.
  destruct (Nat.ltb_spec cap (length d + 1)) as [Hfull|Hroom].
  - split; [|split; [lia|]].
    + destruct d as [|y d]; simpl in *; [lia|]. rewrite length_app. simpl. lia.
    + intros _ Hcap. destruct d as [|y d]; simpl in *; [lia|done].
  - split; [rewrite length_app; simpl; lia|]. split; [done|]. lia.
Qed.
End history_more.

(** X13: a call keeps both histories within 60 items, whether it
    returns a snapshot or raises, and a snapshot holds at most 60
    items of each.  A call that gets as far as the append to the
    memory history (the CPU readings and [psutil.virtual_memory]
    return, the sizes of [memory_stats] format), and so every call
    that returns a snapshot, leaves the memory history as the old one
    plus the tick's sample at its end, without its oldest item when it
    was full. *)
Theorem histories_stay_bounded {F : Type} `{PyFloat F}
    (st : Collect.state F) (tk : Collect.tick F) :
  (length (Collect.cpu_temp_history st) <= 60)%nat ->
  (length (Collect.memory_history st) <= 60)%nat ->
  let st' := (Collect.collect_stats tk st).2 in
  let grown vm :=
    let sample :=
      {| Collect.ms_time := Collect.t_memory tk;
         Collect.ms_percent := Collect.vm_percent vm;
         Collect.ms_used := Collect.vm_used vm;
         Collect.ms_available := Collect.vm_available vm |} in
    ((length (Collect.memory_history st) < 60)%nat ->
     Collect.memory_history st' = Collect.memory_history st ++ [sample])
    /\ (length (Collect.memory_history st) = 60%nat ->
        Collect.memory_history st'
        = tail (Collect.memory_history st) ++ [sample]) in
  (length (Collect.cpu_temp_history st') <= 60)%nat
  /\ (length (Collect.memory_history st') <= 60)%nat
  /\ (forall vm,
        is_Some (Collect.cpu_percent_total tk) ->
        is_Some (Collect.cpu_percent_percpu tk) ->
        is_Some (Collect.cpu_times_percent tk) ->
        Collect.virtual_memory tk = Some vm ->
        is_Some (Collect.memory_stats_of vm) ->
        grown vm)
  /\ (forall snap,
        (Collect.collect_stats tk st).1 = Some snap ->
        (length (Collect.snap_temp_history snap) <= 60)%nat
        /\ (length (Collect.snap_memory_history snap) <= 60)%nat
        /\ exists vm, Collect.virtual_memory tk = Some vm /\ grown vm).
Proof.
  intros Htemp Hmem st' grown.
  destruct (histories_collect st tk) as (Ht & Hm & Hsnap).
  fold st' in Ht, Hm, Hsnap.
  assert (Htemp' : (length (Collect.cpu_temp_history st') <= 60)%nat).
  { rewrite Ht.
    destruct (Collect.cpu_percent_total tk) as [c|]; [|done].
    destruct (Collect.cpu_percent_percpu tk) as [p|]; [|done].
    destruct (Collect.cpu_times_percent tk) as [t|]; [|done].
    destruct (Collect.temp_sample_of tk) as [s|]; [|done].
    by apply (deque_append_bounded Deque.maxlen). }
  assert (Hmem' : (length (Collect.memory_history st') <= 60)%nat).
  { rewrite Hm.
    destruct (Collect.cpu_percent_total tk) as [c|]; [|done].
    destruct (Collect.cpu_percent_percpu tk) as [p|]; [|done].
    destruct (Collect.cpu_times_percent tk) as [t|]; [|done].
    destruct (Collect.virtual_memory tk) as [vm|]; [|done].
    destruct (Collect.memory_stats_of vm) as [ms|]; [|done].
    by apply (deque_append_bounded Deque.maxlen). }
  assert (Hgrown : forall vm,
            is_Some (Collect.cpu_percent_total tk) ->
            is_Some (Collect.cpu_percent_percpu tk) ->
            is_Some (Collect.cpu_times_percent tk) ->
            Collect.virtual_memory tk = Some vm ->
            is_Some (Collect.memory_stats_of vm) ->
            grown vm).
  { intros vm [c Hc] [p Hp] [t Hq] Hvm [ms Hms]. unfold grown.
    rewrite Hm, Hc, Hp, Hq, Hvm, Hms.
    destruct (deque_append_bounded Deque.maxlen (Collect.memory_history st)
                (Collect.memory_sample_of tk vm) Hmem)
      as (_ & Hroom & Hfull).
    split; [exact Hroom|]. intros Hsixty. apply Hfull; [done|].
    unfold Deque.maxlen. lia. }
  split; [done|]. split; [done|]. split; [exact Hgrown|].
  intros snap Hs. destruct (Hsnap snap Hs) as [-> ->].
  split; [done|]. split; [done|].
  destruct (collect_stats_returned st tk snap Hs)
    as (Hc & Hp & Hq & vm & Hvm & Hms).
  exists vm. split; [done|]. by apply Hgrown.
Qed.

(** On the sample host the call returns and the memory history holds
    the tick's sample; where [psutil.virtual_memory] raises it stays
    empty. *)
Lemma histories_stay_bounded_run :
  (exists s,
     Collect.memory_history
       (Collect.collect_stats Sample.tick0 Sample.state0).2 = [s]
     /\ Collect.ms_used s = 3400000000)
  /\ (length (Collect.memory_history
                (Collect.collect_stats Sample.tick_memory_raises
                   Sample.state0).2) <= 60)%nat.
Proof.
  destruct (@histories_stay_bounded Q QFloat Sample.state0 Sample.tick0)
    as (_ & _ & Hgrown & _); [simpl; lia | simpl; lia |].
  destruct (@histories_stay_bounded Q QFloat Sample.state0
              Sample.tick_memory_raises)
    as (_ & Hmem & _); [simpl; lia | simpl; lia |].
  split; [|exact Hmem].
  assert (Hsizes : is_Some (Collect.memory_stats_of Sample.svmem0))
    by (vm_compute; by eexists).
  destruct (Hgrown Sample.svmem0 ltac:(by eexists) ltac:(by eexists)
              ltac:(by eexists) eq_refl Hsizes) as [Hroom _].
  eexists. split; [apply Hroom; simpl; lia|]. reflexivity.
Defined.

(** ** The push interval *)

(** X14: for ordered floats the interval used by the push loop lies
    between 0.1 and 60: a request below 0.1 becomes 0.1, one above 60
    becomes 60, and one in between is used as it is. *)
Theorem clamp_interval_in_range {F : Type} `{PyFloat F}
    (tenth sixty interval : F) :
  (forall a b : F, flt a b = true -> flt b a = false) ->
  (forall a b c : F, flt a c = true -> flt a b = true \/ flt b c = true) ->
  (forall x : F, fgt_int x 60 = flt sixty x) ->
  flt tenth sixty = true ->
  let used := Push.clamp_interval tenth sixty interval in
  flt used tenth = false
  /\ fgt_int used 60 = false
  /\ (flt interval tenth = true -> used = tenth)
  /\ (fgt_int interval 60 = true -> used = sixty)
  /\ (flt interval tenth = false -> fgt_int interval 60 = false ->
      used = interval).
Proof.
  intros Hasym Hco H60 Hlt used. unfold used, Push.clamp_interval.
  assert (Hirr : forall a : F, flt a a = false).
  { intros a. destruct (flt a a) eqn:Ha; [|done].
    by rewrite (Hasym a a Ha) in Ha. }
  assert (Hts : fgt_int tenth 60 = false).
  { rewrite H60. by apply Hasym. }
  assert (Hst : flt sixty tenth = false) by (by apply Hasym).
  assert (Hss : fgt_int sixty 60 = false) by (by rewrite H60).
  destruct (flt interval tenth) eqn:Hlow.
  - rewrite Hts. repeat split; try done.
    intros Hhigh. rewrite H60 in Hhigh.
    destruct (Hco _ tenth _ Hhigh) as [Hbad|Hbad]; [congruence|].
    by rewrite (Hasym _ _ Hbad) in Hlow.
  - destruct (fgt_int interval 60) eqn:Hhigh; repeat split; try done.
Qed.

Lemma q_gt_60 (x : Q) : q_gt_int x 60 = q_lt (inject_Z 60) x.
Proof. reflexivity. Qed.

(** A requested 0.01 is served every 0.1 s, a requested 120 every
    60 s. *)
Lemma clamp_interval_in_range_run :
  Push.clamp_interval (1 # 10)%Q (inject_Z 60) (1 # 100)%Q = (1 # 10)%Q
  /\ Push.clamp_interval (1 # 10)%Q (inject_Z 60) (inject_Z 120)
     = inject_Z 60.
Proof.
  split.
  - apply (@clamp_interval_in_range Q QFloat (1 # 10)%Q (inject_Z 60)
             (1 # 100)%Q q_lt_asym q_lt_cotrans q_gt_60 eq_refl).
    reflexivity.
  - apply (@clamp_interval_in_range Q QFloat (1 # 10)%Q (inject_Z 60)
             (inject_Z 120) q_lt_asym q_lt_cotrans q_gt_60 eq_refl).
    reflexivity.
Defined.

(** ** The size formatter beyond its units *)

Section size_more.
Import Size.

(** Rounding to 53 bits stays within the binade of the integer. *)
Lemma rn53_bounds (n : Z) :
  2 ^ 53 <= n -> 2 ^ Z.log2 n <= rn53 n <= 2 ^ (Z.log2 n + 1).
Proof.
  intros Hn. assert (Hpos : 0 < n) by lia.
  destruct (Z.log2_spec n Hpos) as [Hlo Hhi].
  assert (Hlog : 53 <= Z.log2 n).
  { apply Z.log2_le_pow2; lia. }
  unfold rn53.
  destruct (Z.leb_spec (Z.log2 n + 1) 53) as [?|_]; [lia|].
  set (s := Z.log2 n + 1 - 53) in *.
  assert (Hs : 0 < s) by (unfold s; lia).
  rewrite Z.shiftr_div_pow2, Z.shiftl_mul_pow2 by lia.
  assert (Hp : 0 < 2 ^ s) by (apply Z.pow_pos_nonneg; lia).
  assert (Hsplit : 2 ^ Z.log2 n = 2 ^ 52 * 2 ^ s).
  { rewrite <- Z.pow_add_r by lia. f_equal. unfold s. lia. }
  assert (Hsplit' : 2 ^ (Z.log2 n + 1) = 2 ^ 53 * 2 ^ s).
  { rewrite <- Z.pow_add_r by lia. f_equal. unfold s. lia. }
  replace (Z.succ (Z.log2 n)) with (Z.log2 n + 1) in Hhi by lia.
  assert (Hq1 : 2 ^ 52 <= n / 2 ^ s).
  { apply Z.div_le_lower_bound; lia. }
  assert (Hq2 : n / 2 ^ s < 2 ^ 53).
  { apply Z.div_lt_upper_bound; lia. }
  rewrite Hsplit, Hsplit'.
  set (q := n / 2 ^ s) in *. set (P := 2 ^ s) in *.
  assert (Hbound : forall q', q <= q' <= q + 1 ->
            2 ^ 52 * P <= q' * P <= 2 ^ 53 * P).
  { intros q' Hq'. split; apply Z.mul_le_mono_nonneg_r; lia. }
  destruct (Z.land n (Z.ones s) <? Z.shiftl 1 (s - 1)); [apply Hbound; lia|].
  destruct (Z.shiftl 1 (s - 1) <? Z.land n (Z.ones s)); [apply Hbound; lia|].
  destruct (Z.even q); apply Hbound; lia.
Qed.

Lemma den_mono (k j : nat) : Z.pos (den k) <= Z.pos (den (k + j)).
Proof.
  rewrite !den_pow. apply Z.pow_le_mono_r; lia.
Qed.

(** A value of at least [1024^(k + units left)] runs the loop dry. *)
Lemma size_loop_exhausted us (k : nat) (m : Z) suffix :
  Z.pos (den (k + length us)) <= m ->
  size_loop us (PyFloatQ (m # den k)) suffix = NoneValue.
Proof.
  revert k. induction us as [|u us IH]; intros k Hm; [done|].
  rewrite size_loop_fraction.
  simpl length in Hm.
  replace (k + S (length us))%nat with (S k + length us)%nat in Hm by lia.
  pose proof (den_mono (S k) (length us)) as Hmono.
  assert (Hk : Z.pos (den (S k)) = 1024 * Z.pos (den k)) by (simpl; lia).
  destruct (Z.ltb_spec m (1024 * Z.pos (den k))) as [Hlt|_]; [lia|].
  by apply (IH (S k)).
Qed.
End size_more.

(** X15: from 1 EiB on the formatter has no unit left: every count
    from [2^60] up to [2^1033] gives [None], and from [2^1034] on the
    first division overflows and the call raises. *)
Theorem get_size_beyond_units (n : Z) (suffix : string) :
  (2 ^ 60 <= n < 2 ^ 1033 -> Size.get_size n suffix = Size.NoneValue)
  /\ (2 ^ 1034 <= n -> Size.get_size n suffix = Size.Overflow).
Proof.
  assert (H60 : 2 ^ 53 < 2 ^ 60) by (apply Z.pow_lt_mono_r; lia).
  assert (H10 : (1024 : Z) < 2 ^ 60) by (vm_compute; reflexivity).
  assert (H1034 : 2 ^ 60 < 2 ^ 1034) by (apply Z.pow_lt_mono_r; lia).
  assert (Hstep : forall m, 1024 <= m ->
    Size.get_size m suffix
    = match Size.div_factor (Size.PyInt m) with
      | Some b => Size.size_loop ["K"; "M"; "G"; "T"; "P"]%string b suffix
      | None => Size.Overflow
      end).
  { intros m Hm. unfold Size.get_size, Size.units.
    cbn [Size.size_loop Size.lt_factor].
    destruct (Z.ltb_spec m 1024); [lia|done]. }
  split.
  - intros [Hlo Hhi]. rewrite Hstep by lia. unfold Size.div_factor.
    assert (Habs : Z.abs n = n) by lia.
    assert (Hsgn : Z.sgn n = 1) by lia.
    rewrite Habs, Hsgn, Z.mul_1_l.
    destruct (rn53_bounds n ltac:(lia)) as [Hr1 Hr2].
    assert (Hl60 : 60 <= Z.log2 n) by (apply Z.log2_le_pow2; lia).
    assert (Hl1033 : Z.log2 n < 1033) by (apply Z.log2_lt_pow2; lia).
    assert (Hge : 2 ^ 60 <= Size.rn53 n).
    { etrans; [|exact Hr1]. apply Z.pow_le_mono_r; lia. }
    assert (Hlt : Size.rn53 n < 2 ^ 1034).
    { eapply Z.le_lt_trans; [exact Hr2|]. apply Z.pow_lt_mono_r; lia. }
    destruct (Z.ltb_spec (Size.rn53 n) (2 ^ 1034)) as [_|?]; [|lia].
    rewrite (size_loop_proper _ _ (Size.rn53 n # Size.den 1)).
    2:{ rewrite Qred_correct. unfold Qeq, Qdiv, Qmult, Qinv. simpl. lia. }
    apply size_loop_exhausted.
    assert (Hd : Z.pos (Size.den 6) = 2 ^ 60) by (vm_compute; reflexivity).
    simpl length. replace (1 + 5)%nat with 6%nat by done. lia.
  - intros Hbig. rewrite Hstep by lia. unfold Size.div_factor.
    assert (Habs : Z.abs n = n) by lia. rewrite Habs.
    destruct (rn53_bounds n ltac:(lia)) as [Hr1 _].
    assert (Hl : 1034 <= Z.log2 n) by (apply Z.log2_le_pow2; lia).
    assert (Hge : 2 ^ 1034 <= Size.rn53 n).
    { etrans; [|exact Hr1]. apply Z.pow_le_mono_r; lia. }
    destruct (Z.ltb_spec (Size.rn53 n) (2 ^ 1034)) as [?|_]; [lia|done].
Qed.

Lemma get_size_beyond_units_run :
  Size.get_size (5 * 2 ^ 60) "B" = Size.NoneValue.
Proof.
  apply (proj1 (get_size_beyond_units (5 * 2 ^ 60) "B")).
  split; [vm_compute; discriminate | vm_compute; reflexivity].
Defined.

(** ** Two successive samples *)

Section rapl_two.
Context {F : Type} `{PyFloat F}.
Import Rapl.

(** What a call stores for a readable domain ... *)
Lemma get_power_stats_stores (r : reader F) fs now d v :
  d ∈ domains r ->
  NoDup (path <$> domains r) ->
  file_exists fs (energy_file d) = true ->
  read_int fs (energy_file d) = Some v ->
  uj64 v -> uj64 (max_range d) ->
  (forall t0 e0, last_readings r !! path d = Some (t0, e0) -> uj64 e0) ->
  last_readings (get_power_stats r fs now).2 !! path d = Some (now, v).
Proof.
  intros Hin Hnd Hex Hread Hv Hmax Hprior.
  apply list_elem_of_split in Hin as (pre & post & Hdom).
  rewrite get_power_stats_loop. simpl.
  rewrite Hdom in Hnd |- *. rewrite fmap_app, fmap_cons in Hnd.
  apply NoDup_app in Hnd as (_ & Hpre & Hnd).
  apply NoDup_cons in Hnd as [Hpost _].
  assert (Hnotin : path d ∉ path <$> pre).
  { intros Hin. apply (Hpre _ Hin). apply list_elem_of_here. }
  rewrite sample_loop_app, sample_loop_cons.
  rewrite sample_loop_readings_other by done.
  apply sample_domain_stores; try done.
  intros t0 e0. rewrite sample_loop_readings_other by done.
  intros Hl. apply cleanup_lookup in Hl as [Hl _]. by eapply Hprior.
Qed.

(** ... and what it reports for a domain with a prior reading whose
    name no other domain has. *)
Lemma get_power_stats_reports (r : reader F) fs now d v t0 e0 :
  d ∈ domains r ->
  NoDup (path <$> domains r) ->
  (forall d', d' ∈ domains r -> name d' = name d -> d' = d) ->
  last_readings (cleanup r now) !! path d = Some (t0, e0) ->
  file_exists fs (energy_file d) = true ->
  read_int fs (energy_file d) = Some v ->
  uj64 v -> uj64 e0 -> uj64 (max_range d) ->
  exists x, float_of_int (energy_delta v e0 (max_range d)) = Some x /\
    Dict.get (name d) (get_power_stats r fs now).1
    = if fgt_int (fsub now t0) 0 && (0 <=? energy_delta v e0 (max_range d))
      then Some (py_round (fdiv (fdiv x f1e6) (fsub now t0)) 2)
      else None.
Proof.
  intros Hin Hndp Hown Hprior Hex Hread Hv He0 Hmax.
  apply list_elem_of_split in Hin as (pre & post & Hdom).
  rewrite get_power_stats_loop. simpl. rewrite Hdom in Hndp, Hown |- *.
  rewrite fmap_app, fmap_cons in Hndp.
  apply NoDup_app in Hndp as (_ & Hpre & Hndp).
  apply NoDup_cons in Hndp as [Hnotin' _].
  assert (Hnotin : path d ∉ path <$> pre).
  { intros Hin. apply (Hpre _ Hin). apply list_elem_of_here. }
  assert (Hnpre : name d ∉ name <$> pre).
  { intros Hin. apply list_elem_of_fmap in Hin as (d' & Hname & Hd').
    assert (d' = d) as ->.
    { apply Hown; [|done]. apply elem_of_app. by left. }
    apply Hnotin. by apply list_elem_of_fmap_2. }
  assert (Hnpost : name d ∉ name <$> post).
  { intros Hin. apply list_elem_of_fmap in Hin as (d' & Hname & Hd').
    assert (d' = d) as ->.
    { apply Hown; [|done]. apply elem_of_app. right.
      by apply list_elem_of_further. }
    apply Hnotin'. by apply list_elem_of_fmap_2. }
  set (st := sample_loop fs now pre ([], last_readings (cleanup r now))).
  assert (Hp : st.2 !! path d = Some (t0, e0)).
  { unfold st. by rewrite sample_loop_readings_other. }
  destruct (sample_domain_emits fs now d st v t0 e0 Hex Hread Hp Hv He0 Hmax)
    as (x & Hx & Hstep).
  exists x. split; [done|].
  rewrite sample_loop_app, sample_loop_cons. fold st.
  rewrite sample_loop_stats_other by done. rewrite Hstep.
  destruct (fgt_int (fsub now t0) 0 && _).
  - apply dict_get_set_eq.
  - unfold st. by rewrite sample_loop_stats_other.
Qed.
End rapl_two.

(** X16: two successive calls, neither of them the one that runs the
    cleanup, on a reader whose domains have distinct paths: for a
    domain read as [v1] at time [t1] and as [v2] at time [t2], whose
    name no other domain of the reader has (other domains may share a
    name among themselves), the second call reports
    [round((de / 1e6) / (t2 - t1), 2)] with [de = v2 - v1], plus
    [max_range] when negative, if [t2 - t1 > 0] and [de >= 0], and
    nothing for the domain otherwise. *)
Theorem rapl_two_calls {F : Type} `{PyFloat F}
    (r : Rapl.reader F) (fs1 fs2 : Rapl.sysfs) (t1 t2 : F)
    (d : Rapl.domain) (v1 v2 : Z) :
  d ∈ Rapl.domains r ->
  NoDup (Rapl.path <$> Rapl.domains r) ->
  (forall d', d' ∈ Rapl.domains r -> Rapl.name d' = Rapl.name d -> d' = d) ->
  Rapl.cleanup_counter r < 299 ->
  (forall t0 e0, Rapl.last_readings r !! Rapl.path d = Some (t0, e0) ->
     Rapl.uj64 e0) ->
  Rapl.file_exists fs1 (Rapl.energy_file d) = true ->
  Rapl.read_int fs1 (Rapl.energy_file d) = Some v1 ->
  Rapl.file_exists fs2 (Rapl.energy_file d) = true ->
  Rapl.read_int fs2 (Rapl.energy_file d) = Some v2 ->
  Rapl.uj64 v1 -> Rapl.uj64 v2 -> Rapl.uj64 (Rapl.max_range d) ->
  let r1 := (Rapl.get_power_stats r fs1 t1).2 in
  let stats := (Rapl.get_power_stats r1 fs2 t2).1 in
  let dt := fsub t2 t1 in
  let raw := v2 - v1 in
  let de := if raw <? 0 then raw + Rapl.max_range d else raw in
  (fgt_int dt 0 = true /\ 0 <= de ->
     exists x, float_of_int de = Some x
       /\ Dict.get (Rapl.name d) stats
          = Some (py_round (fdiv (fdiv x f1e6) dt) 2))
  /\ (fgt_int dt 0 = false \/ de < 0 ->
      Dict.get (Rapl.name d) stats = None).
Proof.
  intros Hin Hndp Hown Hc Hprior Hex1 Hr1 Hex2 Hr2 Hv1 Hv2 Hmax
    r1 stats dt raw de.
  assert (Hstored : Rapl.last_readings r1 !! Rapl.path d = Some (t1, v1)).
  { by apply get_power_stats_stores. }
  assert (Hdom : Rapl.domains r1 = Rapl.domains r).
  { unfold r1. rewrite get_power_stats_loop. done. }
  assert (Hcount : Rapl.cleanup_counter r1 < 300).
  { unfold r1. rewrite get_power_stats_loop. simpl. unfold Rapl.cleanup.
    destruct (Z.ltb_spec 300 (Rapl.cleanup_counter r + 1)); simpl; lia. }
  destruct (get_power_stats_reports r1 fs2 t2 d v2 t1 v1) as (x & Hx & Hget);
    try done; try (by rewrite Hdom).
  { by rewrite cleanup_keeps_readings. }
  change (Rapl.energy_delta v2 v1 (Rapl.max_range d)) with de in *.
  fold dt stats in Hget. split.
  - intros [Hdt Hde]. exists x. split; [done|]. rewrite Hget, Hdt. simpl.
    by destruct (Z.leb_spec 0 de); [|lia].
  - intros Hbad. rewrite Hget. destruct Hbad as [-> | Hneg]; [done|].
    destruct (Z.leb_spec 0 de); [lia|]. by rewrite andb_false_r.
Qed.

(** A new reader with two zones named [Package-0] before [core], read
    at time 10 with 1000000 uJ in every register and at time 12 with
    3000000 uJ in the core register: 1 W for [core]. *)
Lemma rapl_two_calls_run :
  Rapl.name <$> Rapl.domains Sample.reader_shared_name
  = ["Package-0"; "Package-0"; "core"]%string
  /\ Dict.get "core"%string
       (Rapl.get_power_stats
          (Rapl.get_power_stats Sample.reader_shared_name
             Sample.powercap_start 10%Q).2
          Sample.powercap_both 12%Q).1
     = Some 1%Q.
Proof.
  split; [reflexivity|].
  destruct (@rapl_two_calls Q QFloat Sample.reader_shared_name
              Sample.powercap_start Sample.powercap_both 10%Q 12%Q
              Sample.core0 1000000 3000000)
    as [Hvalid _].
  - right. right. left.
  - vm_compute. repeat (apply NoDup_cons; split);
      [| |apply not_elem_of_nil|apply NoDup_nil_2].
    + rewrite !elem_of_cons, elem_of_nil. by intros [?|[?|?]].
    + rewrite !elem_of_cons, elem_of_nil. by intros [?|?].
  - intros d' Hin Hname. unfold Sample.reader_shared_name in Hin.
    cbn [Rapl.domains] in Hin.
    rewrite !elem_of_cons, elem_of_nil in Hin.
    destruct Hin as [-> | [-> | [-> | []]]]; [discriminate|discriminate|done].
  - simpl. lia.
  - intros t0 e0 Hl. vm_compute in Hl. discriminate.
  - reflexivity.
  - reflexivity.
  - reflexivity.
  - reflexivity.
  - apply uj64_intro; reflexivity.
  - apply uj64_intro; reflexivity.
  - apply uj64_intro; reflexivity.
  - destruct Hvalid as (x & Hx & Hget).
    { split; [reflexivity | vm_compute; discriminate]. }
    vm_compute in Hx. injection Hx as <-.
    refine (eq_trans Hget _). vm_compute. reflexivity.
Defined.
